(** * MunicipiosPBA: ingestion of municipal financial reports

    A shallow embedding of the ingestion core of the repository
    (deterministic line parsers, amount normalisation, entity resolution,
    the retry loop of the LLM extractor and the single-shot pipeline) and
    the properties stated about it.

    Conventions of the embedding.
    - A Python [str] is a [string]; the model covers ASCII text.  On ASCII
      text [unicodedata.normalize("NFKD", s).encode("ascii", "ignore")] is
      the identity; a character above 127 is dropped by [ascii_fold].
    - A Python [float] obtained by [float(s)] is the number its decimal
      spelling denotes, kept exactly as a reduced fraction ([PFin q]),
      or an infinity or a NaN; CPython rounds that number to the nearest
      double, the same double a literal with the same spelling denotes.
    - A raised exception is the [Raise] outcome of the [exc] monad.
    - A [dict] used as a map is a [gmap]; a row ([dict] with fixed keys) is
      a record whose absent or [None] entries are [None]. *)

From Stdlib Require Import ZArith QArith Lia Ascii.
From Stdlib Require String.
From stdpp Require Import base option list strings gmap pretty.



(** ** Characters (the ASCII range of the Unicode predicates Python uses) *)

Definition code (c : ascii) : N := N_of_ascii c.

(** [str.isspace], also the class [\s] of [re] and what [str.strip],
    [str.split] and [float] skip. *)
Definition is_space (c : ascii) : bool :=
  ((9 <=? code c) && (code c <=? 13) || (28 <=? code c) && (code c <=? 32))%N.

(** The class [\d]. *)
Definition is_digit (c : ascii) : bool :=
  ((48 <=? code c) && (code c <=? 57))%N.

Definition is_upper (c : ascii) : bool :=
  ((65 <=? code c) && (code c <=? 90))%N.

Definition is_lower (c : ascii) : bool :=
  ((97 <=? code c) && (code c <=? 122))%N.

(** The class [\w], which decides the word boundary [\b]. *)
Definition is_word (c : ascii) : bool :=
  is_digit c || is_upper c || is_lower c || Ascii.eqb c "_".

(** The line boundaries of [str.splitlines]. *)
Definition is_linebreak (c : ascii) : bool :=
  ((10 <=? code c) && (code c <=? 13) || (28 <=? code c) && (code c <=? 30))%N.

Definition to_lower (c : ascii) : ascii :=
  if is_upper c then ascii_of_N (code c + 32) else c.

Definition to_upper (c : ascii) : ascii :=
  if is_lower c then ascii_of_N (code c - 32) else c.

Definition digit_val (c : ascii) : Z := Z.of_N (code c) - 48.

(** ** Strings: the [str] methods the code calls *)

Fixpoint smap (f : ascii -> ascii) (s : string) : string :=
  match s with
  | EmptyString => EmptyString
  | String c r => String (f c) (smap f r)
  end.

Fixpoint sfilter (p : ascii -> bool) (s : string) : string :=
  match s with
  | EmptyString => EmptyString
  | String c r => if p c then String c (sfilter p r) else sfilter p r
  end.

(** Every character, some character of a string satisfies [p]. *)
Fixpoint sall (p : ascii -> bool) (s : string) : bool :=
  match s with
  | EmptyString => true
  | String c r => p c && sall p r
  end.

Fixpoint sany (p : ascii -> bool) (s : string) : bool :=
  match s with
  | EmptyString => false
  | String c r => p c || sany p r
  end.

(** [s.lower()] *)
Definition lower (s : string) : string := smap to_lower s.

(** [s.upper()] *)
Definition upper (s : string) : string := smap to_upper s.

(** [bool(s)] for a string: non-empty. *)
Definition nonempty (s : string) : bool :=
  match s with EmptyString => false | String _ _ => true end.

Fixpoint lstrip_by (p : ascii -> bool) (s : string) : string :=
  match s with
  | EmptyString => EmptyString
  | String c r => if p c then lstrip_by p r else s
  end.

Fixpoint rstrip_by (p : ascii -> bool) (s : string) : string :=
  match s with
  | EmptyString => EmptyString
  | String c r =>
      match rstrip_by p r with
      | EmptyString => if p c then EmptyString else String c EmptyString
      | r' => String c r'
      end
  end.

(** [s.strip()] *)
Definition strip (s : string) : string :=
  rstrip_by is_space (lstrip_by is_space s).

Fixpoint mem_char (c : ascii) (chars : string) : bool :=
  match chars with
  | EmptyString => false
  | String d r => Ascii.eqb c d || mem_char c r
  end.

(** [s.strip(chars)] *)
Definition strip_chars (chars s : string) : string :=
  rstrip_by (fun c => mem_char c chars) (lstrip_by (fun c => mem_char c chars) s).

Definition starts_word (s : string) : bool :=
  match s with
  | EmptyString => false
  | String d _ => negb (is_space d)
  end.

(** [s.split()]: the maximal runs of non-whitespace characters. *)
Fixpoint split_ws (s : string) : list string :=
  match s with
  | EmptyString => []
  | String c r =>
      if is_space c then split_ws r
      else if starts_word r then
        match split_ws r with
        | w :: ws => String c w :: ws
        | [] => [String c EmptyString]
        end
      else String c EmptyString :: split_ws r
  end.

(** [sep.join(parts)] *)
Fixpoint join (sep : string) (parts : list string) : string :=
  match parts with
  | [] => EmptyString
  | [w] => w
  | w :: ws => w +:+ sep +:+ join sep ws
  end.

(** [s.startswith(p)] *)
Definition startswith (s p : string) : bool := String.prefix p s.

(** [s.endswith("x")] for a one-character suffix. *)
Fixpoint ends_with_char (s : string) (x : ascii) : bool :=
  match s with
  | EmptyString => false
  | String c EmptyString => Ascii.eqb c x
  | String _ r => ends_with_char r x
  end.

(** [sub in s] *)
Fixpoint contains (sub s : string) : bool :=
  String.prefix sub s ||
  match s with
  | EmptyString => false
  | String _ r => contains sub r
  end.

(** [s.find(sub)]: the first index, or -1. *)
Fixpoint find (sub s : string) : Z :=
  if String.prefix sub s then 0
  else match s with
       | EmptyString => -1
       | String _ r => let i := find sub r in if (i <? 0)%Z then -1 else (i + 1)%Z
       end.

(** [s.rfind(sub)]: the last index, or -1. *)
Fixpoint rfind (sub s : string) : Z :=
  match s with
  | EmptyString => if String.prefix sub s then 0 else -1
  | String _ r =>
      let i := rfind sub r in
      if (0 <=? i)%Z then (i + 1)%Z
      else if String.prefix sub s then 0 else -1
  end.

Fixpoint take (n : nat) (s : string) : string :=
  match n, s with
  | S n', String c r => String c (take n' r)
  | _, _ => EmptyString
  end.

Fixpoint drop (n : nat) (s : string) : string :=
  match n, s with
  | S n', String _ r => drop n' r
  | _, _ => s
  end.

(** [s[:i]], with Python's reading of a negative bound. *)
Definition slice_to (s : string) (i : Z) : string :=
  if (0 <=? i)%Z then take (Z.to_nat i) s
  else take (Z.to_nat (Z.of_nat (String.length s) + i)) s.

(** [s[i:]] for [i >= 0]. *)
Definition slice_from (s : string) (i : nat) : string := drop i s.

(** [s.replace(c, by)] for a one-character [c]. *)
Fixpoint replace_char (c : ascii) (by_ : string) (s : string) : string :=
  match s with
  | EmptyString => EmptyString
  | String d r =>
      if Ascii.eqb d c then by_ +:+ replace_char c by_ r
      else String d (replace_char c by_ r)
  end.

(** [s.split(c, 1)[0]]: the text before the first [c], all of [s] without one. *)
Fixpoint before_char (c : ascii) (s : string) : string :=
  match s with
  | EmptyString => EmptyString
  | String d r => if Ascii.eqb d c then EmptyString else String d (before_char c r)
  end.

(** [s.splitlines()] *)
Fixpoint splitlines (s : string) : list string :=
  match s with
  | EmptyString => []
  | String c r =>
      if is_linebreak c then
        EmptyString ::
        match r with
        | String d r' =>
            if Ascii.eqb c "013" && Ascii.eqb d "010" then splitlines r'
            else splitlines r
        | EmptyString => []
        end
      else
        match splitlines r with
        | l :: ls => String c l :: ls
        | [] => [String c EmptyString]
        end
  end.

(** [unicodedata.normalize("NFKD", s).encode("ascii", "ignore").decode("ascii")]
    on the modelled range. *)
Definition ascii_fold (s : string) : string :=
  sfilter (fun c => (code c <? 128)%N) s.

(** ** Exceptions *)

Inductive pyerr : Type :=
| ValueError (msg : string)
| IndexError (msg : string)
| RuntimeError (msg : string)
| OtherError (kind msg : string)
| RaisedFrom (e cause : pyerr).      (* [raise e from cause] *)

Inductive exc (A : Type) : Type :=
| Ok (a : A)
| Raise (e : pyerr).
Arguments Ok {A} a.
Arguments Raise {A} e.

#[global] Instance exc_ret : MRet exc := fun A a => Ok a.
#[global] Instance exc_bind : MBind exc := fun A B f m =>
  match m with
  | Ok a => f a
  | Raise e => Raise e
  end.

Definition raises {A} (m : exc A) : bool :=
  match m with Ok _ => false | Raise _ => true end.

(** [str(exc)] *)
Fixpoint err_msg (e : pyerr) : string :=
  match e with
  | ValueError m | IndexError m | RuntimeError m | OtherError _ m => m
  | RaisedFrom e _ => err_msg e
  end.

(** [l[i]] with Python's negative indices; out of range raises. *)
Definition py_index {A} (l : list A) (i : Z) : exc A :=
  let n := Z.of_nat (length l) in
  let j := if (i <? 0)%Z then (n + i)%Z else i in
  if (j <? 0)%Z || (n <=? j)%Z then Raise (IndexError "list index out of range")
  else match l !! Z.to_nat j with
       | Some x => Ok x
       | None => Raise (IndexError "list index out of range")
       end.

(** ** Floats *)

Inductive pyfloat : Type :=
| PFin (q : Q)
| PInf (neg : bool)
| PNan.

Fixpoint pow10 (n : nat) : positive :=
  match n with
  | O => 1%positive
  | S n' => (10 * pow10 n')%positive
  end.

(** The number [m / 10^places], in lowest terms. *)
Definition decimal (m : Z) (places : nat) : Q := Qred (m # pow10 places).

(** The number [m * 10^k], in lowest terms. *)
Definition scaled (m : Z) (k : Z) : Q :=
  if (0 <=? k)%Z then Qred (inject_Z (m * Z.pos (pow10 (Z.to_nat k))))
  else decimal m (Z.to_nat (- k)).

Fixpoint digits_val_acc (acc : Z) (ds : string) : Z :=
  match ds with
  | EmptyString => acc
  | String c r => digits_val_acc (10 * acc + digit_val c) r
  end.

Definition digits_val (ds : string) : Z := digits_val_acc 0 ds.

(** Unary minus on a float. *)
Definition fneg (x : pyfloat) : pyfloat :=
  match x with
  | PFin q => PFin (Qred (- q))
  | PInf b => PInf (negb b)
  | PNan => PNan
  end.

(** The rest of a digit part [\d(_?\d)*] after its first digit: the digits
    read (underscores dropped) and the text left. *)
Fixpoint scan_more (s : string) : string * string :=
  match s with
  | String c r =>
      if is_digit c then
        let '(ds, r') := scan_more r in (String c ds, r')
      else if Ascii.eqb c "_" then
        match r with
        | String d r2 =>
            if is_digit d then
              let '(ds, r') := scan_more r2 in (String d ds, r')
            else (EmptyString, s)
        | EmptyString => (EmptyString, s)
        end
      else (EmptyString, s)
  | EmptyString => (EmptyString, EmptyString)
  end.

Definition scan_digitpart (s : string) : string * string :=
  match s with
  | String c r =>
      if is_digit c then
        let '(ds, r') := scan_more r in (String c ds, r')
      else (EmptyString, s)
  | EmptyString => (EmptyString, EmptyString)
  end.

Definition scan_sign (s : string) : bool * string :=
  match s with
  | String "+" r => (false, r)
  | String "-" r => (true, r)
  | _ => (false, s)
  end.

(** The numeral after the sign: [inf], [infinity], [nan] (any case) or a
    decimal numeral with an optional fraction and an optional exponent, the
    digit parts allowing single underscores between digits. *)
Definition float_body (neg : bool) (body : string) : option pyfloat :=
  let low := lower body in
  if String.eqb low "inf" || String.eqb low "infinity" then Some (PInf neg)
  else if String.eqb low "nan" then Some PNan
  else
    let '(ip, r1) := scan_digitpart body in
    let '(fp, r2) :=
      match r1 with
      | String "." r => scan_digitpart r
      | _ => (EmptyString, r1)
      end in
    if negb (nonempty ip) && negb (nonempty fp) then None
    else
      let m := digits_val (ip +:+ fp) in
      let m := if neg then (- m)%Z else m in
      let places := Z.of_nat (String.length fp) in
      match r2 with
      | EmptyString => Some (PFin (scaled m (- places)))
      | String e r3 =>
          if Ascii.eqb e "e" || Ascii.eqb e "E" then
            let '(eneg, r4) := scan_sign r3 in
            let '(ed, r5) := scan_digitpart r4 in
            if nonempty ed && negb (nonempty r5) then
              let x := digits_val ed in
              let x := if eneg then (- x)%Z else x in
              Some (PFin (scaled m (x - places)))
            else None
          else None
      end.

(** [float(s)] for a string: surrounding whitespace is skipped, then an
    optional sign, then the numeral.  [None] is [ValueError]. *)
Definition py_float (s : string) : option pyfloat :=
  let '(neg, body) := scan_sign (strip s) in
  float_body neg body.

(** ** The amount normalisers *)

(** [ingest/llm_utils.py: normalize_number] *)
Definition normalize_number (value : string) : option pyfloat :=
  let cleaned := strip value in
  if negb (nonempty cleaned) then None
  else
    let negative := startswith cleaned "(" && ends_with_char cleaned ")" in
    let cleaned := strip_chars "()" cleaned in
    let cleaned := replace_char "," "." (replace_char "." "" cleaned) in
    match py_float cleaned with
    | None => None
    | Some number => Some (if negative then fneg number else number)
    end.

(** [pipeline/parsers/common.py: parse_amount_ar], the same function as
    [pipeline/parsers/recursos.py: parse_amount_ar].  The guard on [None]
    concerns a value outside the declared type [str]. *)
Definition parse_amount_ar (value : string) : exc pyfloat :=
  let s := strip value in
  if negb (nonempty s) then Raise (ValueError "Valor vacio.")
  else
    let s := replace_char "," "." (replace_char "." "" s) in
    match py_float s with
    | Some x => Ok x
    | None => Raise (ValueError ("could not convert string to float: " +:+ s))
    end.

(** ** Regular expressions: the fragment of [re] the parsers use

    A backtracking matcher in continuation-passing style, with Python's
    order of preference: the left alternative first, repetitions greedy.
    An iteration of a repetition that consumes nothing is not taken (the
    bodies of the repetitions used here never match the empty string). *)

Inductive re : Type :=
| Eps
| Cls (f : ascii -> bool)                 (* one character of a class *)
| Cat (a b : re)
| Alt (a b : re)
| Rep (lo : nat) (hi : option nat) (a : re)   (* a{lo,hi}, greedy *)
| Grp (i : nat) (a : re)                  (* capturing group number i *)
| Bol                                     (* ^ *)
| Eol                                     (* $ *)
| Wb.                                     (* \b *)

Record pos : Type := { prev : option ascii; rest : string }.

Definition caps : Type := list (nat * string).

(** The text between two positions of one scan. *)
Definition consumed (s s' : string) : string :=
  take (String.length s - String.length s') s.

Definition at_boundary (p : pos) : bool :=
  xorb (match prev p with Some c => is_word c | None => false end)
       (match rest p with String c _ => is_word c | EmptyString => false end).

Definition at_end (p : pos) : bool :=
  match rest p with
  | EmptyString => true
  | String c EmptyString => Ascii.eqb c "010"
  | _ => false
  end.

Definition within (hi : option nat) (n : nat) : bool :=
  match hi with Some h => Nat.ltb n h | None => true end.

(** The loop of a greedy repetition [a{lo,hi}] whose body is matched by
    [body]: one more iteration is tried first, then the continuation.
    [fuel] bounds the iterations; each consumes at least one character, so
    one more than the length of the text left is never used up. *)
Section RepLoop.
Context {R : Type}.
Variable body : pos -> caps -> (pos -> caps -> option R) -> option R.
Variable lo : nat.
Variable hi : option nat.
Variable k : pos -> caps -> option R.

Fixpoint rep_loop (fuel n : nat) (p : pos) (cs : caps) : option R :=
  let stop := if Nat.leb lo n then k p cs else None in
  match fuel with
  | O => stop
  | S fuel' =>
      if within hi n then
        match body p cs (fun p' cs' =>
                if Nat.ltb (String.length (rest p')) (String.length (rest p))
                then rep_loop fuel' (S n) p' cs' else None) with
        | Some x => Some x
        | None => stop
        end
      else stop
  end.
End RepLoop.

Fixpoint exec {R} (r : re) (p : pos) (cs : caps)
    (k : pos -> caps -> option R) : option R :=
  match r with
  | Eps => k p cs
  | Cls f =>
      match rest p with
      | String c s => if f c then k {| prev := Some c; rest := s |} cs else None
      | EmptyString => None
      end
  | Cat a b => exec a p cs (fun p' cs' => exec b p' cs' k)
  | Alt a b =>
      match exec a p cs k with
      | Some x => Some x
      | None => exec b p cs k
      end
  | Rep lo hi a =>
      rep_loop (exec a) lo hi k (S (String.length (rest p))) O p cs
  | Grp i a =>
      exec a p cs (fun p' cs' => k p' ((i, consumed (rest p) (rest p')) :: cs'))
  | Bol => match prev p with None => k p cs | Some _ => None end
  | Eol => if at_end p then k p cs else None
  | Wb => if at_boundary p then k p cs else None
  end.

Definition accept (p : pos) (cs : caps) : option (pos * caps) := Some (p, cs).

(** A match object: [m.start()], [m.group(0)], the groups, the text after. *)
Record rmatch : Type :=
  { m_start : nat; m_text : string; m_caps : caps; m_after : string }.

(** [m.group(i)]; a group that did not take part gives [None]. *)
Fixpoint group (cs : caps) (i : nat) : option string :=
  match cs with
  | [] => None
  | (j, t) :: cs' => if Nat.eqb i j then Some t else group cs' i
  end.

Definition match_at (r : re) (pv : option ascii) (s : string) (i : nat)
  : option rmatch :=
  match exec r {| prev := pv; rest := s |} [] accept with
  | Some (p', cs) =>
      Some {| m_start := i; m_text := consumed s (rest p');
              m_caps := cs; m_after := rest p' |}
  | None => None
  end.

(** [pattern.match(s)] *)
Definition re_match (r : re) (s : string) : option rmatch :=
  match_at r None s 0.

Fixpoint search_from (r : re) (pv : option ascii) (s : string) (i : nat)
  : option rmatch :=
  match match_at r pv s i with
  | Some m => Some m
  | None =>
      match s with
      | String c s' => search_from r (Some c) s' (S i)
      | EmptyString => None
      end
  end.

(** [pattern.search(s)] *)
Definition re_search (r : re) (s : string) : option rmatch :=
  search_from r None s 0.

(** One pass over the text; [skip] counts the characters of the last match
    still to pass over. *)
Fixpoint findall_at (r : re) (pv : option ascii) (s : string) (skip : nat)
  : list string :=
  match skip with
  | S k =>
      match s with
      | String c s' => findall_at r (Some c) s' k
      | EmptyString => []
      end
  | O =>
      match match_at r pv s 0 with
      | Some m =>
          m_text m ::
          match s with
          | String c s' => findall_at r (Some c) s' (String.length (m_text m) - 1)
          | EmptyString => []
          end
      | None =>
          match s with
          | String c s' => findall_at r (Some c) s' 0
          | EmptyString => []
          end
      end
  end.

(** [pattern.findall(s)] for a pattern without capturing groups. *)
Definition re_findall (r : re) (s : string) : list string :=
  findall_at r None s 0.

Fixpoint remove_at (r : re) (pv : option ascii) (s : string) (skip : nat)
  : string :=
  match skip with
  | S k =>
      match s with
      | String c s' => remove_at r (Some c) s' k
      | EmptyString => EmptyString
      end
  | O =>
      match s with
      | EmptyString => EmptyString
      | String c s' =>
          match match_at r pv s 0 with
          | Some m =>
              match String.length (m_text m) with
              | O => String c (remove_at r (Some c) s' 0)
              | S k => remove_at r (Some c) s' k
              end
          | None => String c (remove_at r (Some c) s' 0)
          end
      end
  end.

(** [pattern.sub("", s)] *)
Definition re_remove (r : re) (s : string) : string :=
  remove_at r None s 0.

(** Pattern constructors. *)
Definition chr (c : ascii) : re := Cls (Ascii.eqb c).
Definition chr_i (c : ascii) : re := Cls (fun x => Ascii.eqb (to_lower x) (to_lower c)).
Definition digit : re := Cls is_digit.
Definition space : re := Cls is_space.
Definition any : re := Cls (fun c => negb (Ascii.eqb c "010")).
Definition opt (a : re) : re := Rep 0 (Some 1) a.
Definition star (a : re) : re := Rep 0 None a.
Definition plus (a : re) : re := Rep 1 None a.
Definition times (n : nat) (a : re) : re := Rep n (Some n) a.
Definition between (lo hi : nat) (a : re) : re := Rep lo (Some hi) a.
Definition at_least (lo : nat) (a : re) : re := Rep lo None a.

Fixpoint cat_all (l : list re) : re :=
  match l with
  | [] => Eps
  | [a] => a
  | a :: l' => Cat a (cat_all l')
  end.

Fixpoint alt_all (l : list re) : re :=
  match l with
  | [] => Cls (fun _ => false)
  | [a] => a
  | a :: l' => Alt a (alt_all l')
  end.

Fixpoint lit (s : string) : re :=
  match s with
  | EmptyString => Eps
  | String c EmptyString => chr c
  | String c r => Cat (chr c) (lit r)
  end.

Fixpoint lit_i (s : string) : re :=
  match s with
  | EmptyString => Eps
  | String c EmptyString => chr_i c
  | String c r => Cat (chr_i c) (lit_i r)
  end.

(** [_AMOUNT_RE = -?\d{1,3}(?:\.\d{3})*(?:,\d{2})], the same in
    [common.py], [recursos.py], [gastos.py] and [programas.py]. *)
Definition AMOUNT_RE : re :=
  cat_all [opt (chr "-"); between 1 3 digit;
           star (Cat (chr ".") (times 3 digit));
           Cat (chr ",") (times 2 digit)].

(** [common.py: find_amounts] *)
Definition find_amounts (text : string) : list string :=
  re_findall AMOUNT_RE text.

(** The strings a pattern can match, read off the pattern alone (the
    assertions [^], [$] and [\b] match the empty string). *)
Inductive lang : re -> string -> Prop :=
| L_eps : lang Eps EmptyString
| L_cls f c : f c = true -> lang (Cls f) (String c EmptyString)
| L_cat a b s t : lang a s -> lang b t -> lang (Cat a b) (s +:+ t)
| L_alt_l a b s : lang a s -> lang (Alt a b) s
| L_alt_r a b s : lang b s -> lang (Alt a b) s
| L_rep lo hi a n s :
    reps a n s -> lo <= n -> (forall h, hi = Some h -> n <= h) ->
    lang (Rep lo hi a) s
| L_grp i a s : lang a s -> lang (Grp i a) s
| L_bol : lang Bol EmptyString
| L_eol : lang Eol EmptyString
| L_wb : lang Wb EmptyString
with reps : re -> nat -> string -> Prop :=
| R_zero a : reps a 0 EmptyString
| R_more a n s t : lang a s -> reps a n t -> reps a (S n) (s +:+ t).

(** The pattern matches [s] from its first to its last character. *)
Definition matches_whole (r : re) (s : string) : bool :=
  match re_match r s with
  | Some m => negb (nonempty (m_after m))
  | None => false
  end.

(** A character that can belong to a spelling [float] accepts only if it is
    a digit or the letter n (of [inf], [infinity], [nan]). *)
Definition numeric_char (c : ascii) : bool :=
  is_digit c || Ascii.eqb (to_lower c) "n".

(** ** Helpers shared by the parsers *)

(** [normalize_name]: [" ".join(text.strip().split())] *)
Definition normalize_name (text : string) : string :=
  join " " (split_ws (strip text)).

(** [common.py: normalize_key], the same function as [_normalize_key] of
    [recursos.py], [gastos.py] and [programas.py]. *)
Definition normalize_key (text : string) : string :=
  lower (ascii_fold (normalize_name text)).

(** [_is_total_row] *)
Definition _is_total_row (name : string) : bool :=
  let n := lower (normalize_name name) in
  startswith n "total" || contains "total general" n.

(** [parse_amount_ar(amounts[i])] *)
Definition amount_at (amounts : list string) (i : Z) : exc pyfloat :=
  a ← py_index amounts i; parse_amount_ar a.

(** [x or y] on optional strings. *)
Definition py_or (x y : option string) : option string :=
  match x with
  | Some s => if nonempty s then x else y
  | None => y
  end.

(** Truth value of an optional string. *)
Definition truthy (x : option string) : bool :=
  match x with
  | Some s => nonempty s
  | None => false
  end.

Definition opt_eqb (x : option string) (s : string) : bool :=
  match x with
  | Some t => String.eqb t s
  | None => false
  end.

(** [m.group(i)] of a match in which group [i] took part. *)
Definition group_of (m : rmatch) (i : nat) : string :=
  default EmptyString (group (m_caps m) i).

(** ** The line scanner the seven parsers share

    Every parser runs the same loop over [text.splitlines()]: blank lines
    are skipped; before the section, a line is only tested for the start
    marker; inside it, a line holding an end keyword leaves the loop; any
    other line goes to the parser's own [body], which continues ([Next])
    or leaves the loop ([Stop]). *)

Inductive flow (S : Type) : Type :=
| Next (st : S)
| Stop (st : S).
Arguments Next {S} st.
Arguments Stop {S} st.

Section Scan.
Context {S : Type}.
Variable is_start : string -> bool.
Variable end_keywords : list string.
Variable body : string -> string -> S -> exc (flow S).

Definition is_end (low : string) : bool :=
  existsb (fun k => contains k low) end_keywords.

Fixpoint scan (lines : list string) (in_section : bool) (st : S) : exc S :=
  match lines with
  | [] => Ok st
  | raw_line :: more =>
      let line := normalize_name raw_line in
      if negb (nonempty line) then scan more in_section st
      else
        let low := normalize_key line in
        if negb in_section then scan more (is_start low) st
        else if is_end low then Ok st
        else
          r ← body line low st;
          match r with
          | Next st' => scan more true st'
          | Stop st' => Ok st'
          end
  end.
End Scan.

(** A raw line that opens the section, and one that holds an end keyword. *)
Definition opens_section (is_start : string -> bool) (raw_line : string) : bool :=
  nonempty (normalize_name raw_line)
  && is_start (normalize_key (normalize_name raw_line)).

Definition holds_end_keyword (end_keywords : list string) (raw_line : string) : bool :=
  nonempty (normalize_name raw_line)
  && is_end end_keywords (normalize_key (normalize_name raw_line)).

(** ** [pipeline/parsers/recursos.py] *)

Module Recursos.

Definition _SECTION_START : string := "evolucion de los recursos".
Definition _SECTION_END_KEYWORDS : list string :=
  [ "evolucion de los gastos"; "evolucion del gasto";
    "estado de ejecucion del gasto"; "estado de ejecucion de gastos";
    "evolucion de gastos por objeto"; "evolucion de gastos por programa";
    "evolucion de las principales metas"; "movimientos de tesoreria";
    "estado de situacion patrimonial";
    "cuenta ahorro inversion financiamiento" ].

Definition ws1 : re := plus space.

(** [_RIGHT_COL_RE], case-insensitive. *)
Definition _RIGHT_COL_RE : re :=
  alt_all
    [ cat_all [lit_i "cuenta"; ws1; lit_i "ahorro"];
      cat_all [lit_i "ahorro"; ws1; lit_i "corriente"];
      cat_all [lit_i "gastos"; ws1; lit_i "corrientes"];
      cat_all [lit_i "gastos"; ws1; lit_i "de"; ws1; lit_i "capital"];
      cat_all [lit_i "resultado"; ws1; lit_i "financiero"];
      cat_all [lit_i "ingresos"; ws1; lit_i "totales"];
      cat_all [lit_i "gastos"; ws1; lit_i "totales"];
      cat_all [lit_i "fuentes"; ws1; lit_i "financieras"];
      cat_all [lit_i "aplicaciones"; ws1; lit_i "financieras"] ].

(** [_ROMAN_RIGHT_RE = ^\s*[ivx]+\.], case-insensitive. *)
Definition _ROMAN_RIGHT_RE : re :=
  cat_all [Bol; star space; plus (Cls (fun c => mem_char (to_lower c) "ivx")); chr "."].

(** [_ROMAN_INLINE_RE = \b[IVX]+\.] *)
Definition _ROMAN_INLINE_RE : re :=
  cat_all [Wb; plus (Cls (fun c => mem_char c "IVX")); chr "."].

Definition _split_left_column (line : string) : string :=
  match re_search _ROMAN_INLINE_RE line with
  | Some roman => strip (take (m_start roman) line)
  | None =>
      match re_search _RIGHT_COL_RE line with
      | Some m => strip (take (m_start m) line)
      | None => line
      end
  end.

Definition _is_right_column_line (line : string) : bool :=
  match re_match _ROMAN_RIGHT_RE line with
  | Some _ => true
  | None =>
      let low := normalize_key line in
      contains "cuenta ahorro inversion financiamiento" low
      || contains "resultado financiero" low
  end.

Record row : Type :=
  { Rec_Tipo : string; Rec_Nombre : string; Rec_Categoria : string;
    Rec_Vigente : option pyfloat; Rec_Devengado : option pyfloat;
    Rec_Percibido : option pyfloat }.

Record state : Type :=
  { tipo_actual : option string; rows : list row; warnings : list string }.

Definition is_start (low : string) : bool :=
  contains _SECTION_START low
  || contains "evolucion" low && contains "recursos" low.

(** The name of a row: the text before the first amount. *)
Definition name_before (line first_amount : string) : string :=
  let idx := find first_amount line in
  if (0 <? idx)%Z then normalize_name (slice_to line idx)
  else normalize_name line.

Definition body (line low : string) (st : state) : exc (flow state) :=
  if _is_right_column_line line then mret (Next st)
  else
    let line := _split_left_column line in
    if negb (nonempty line) then mret (Next st)
    else
      let low := normalize_key line in
      (* Detectar cambios de tipo *)
      let '(tipo, tipo_line) :=
        if startswith low "1." && contains "presupuest" low
        then (Some "Presupuestario", true) else (tipo_actual st, false) in
      let '(tipo, tipo_line) :=
        if startswith low "2." && contains "extrapresupuest" low
        then (Some "Extrapresupuestario", true) else (tipo, tipo_line) in
      let st := {| tipo_actual := tipo; rows := rows st; warnings := warnings st |} in
      (* Extraer importes *)
      let amounts := re_findall AMOUNT_RE line in
      let n := length amounts in
      if Nat.leb 3 n then
        vig ← amount_at amounts 0;
        dev ← amount_at amounts 1;
        per ← amount_at amounts 2;
        first_amount ← py_index amounts 0;
        let name := name_before line first_amount in
        if _is_total_row name then mret (Next st)
        else
          match tipo with
          | Some t =>
              mret (Next {| tipo_actual := tipo;
                      rows := rows st ++
                        [{| Rec_Tipo := t; Rec_Nombre := name; Rec_Categoria := name;
                            Rec_Vigente := Some vig; Rec_Devengado := Some dev;
                            Rec_Percibido := Some per |}];
                      warnings := warnings st |})
          | None =>
              mret (Next {| tipo_actual := tipo; rows := rows st;
                      warnings := warnings st ++
                        ["Fila sin tipo detectado: '" +:+ line +:+ "'"] |})
          end
      else if Nat.eqb n 1 && tipo_line && opt_eqb tipo "Presupuestario" then
        (* Encabezado mezclado con columna derecha, ignorar *)
        mret (Next st)
      else if Nat.eqb n 1 && opt_eqb tipo "Extrapresupuestario" then
        per ← amount_at amounts 0;
        first_amount ← py_index amounts 0;
        let name :=
          if tipo_line then default EmptyString tipo
          else name_before line first_amount in
        if _is_total_row name then mret (Next st)
        else
          mret (Next {| tipo_actual := tipo;
                  rows := rows st ++
                    [{| Rec_Tipo := default EmptyString tipo; Rec_Nombre := name;
                        Rec_Categoria := name;
                        Rec_Vigente := None; Rec_Devengado := None;
                        Rec_Percibido := Some per |}];
                  warnings := warnings st |})
      else if Nat.ltb 0 n && negb (Nat.eqb n 3) then
        mret (Next {| tipo_actual := tipo; rows := rows st;
                warnings := warnings st ++
                  ["Fila con cantidad de importes inesperada: '" +:+ line +:+ "'"] |})
      else mret (Next st).

Definition parse_lines (lines : list string) (warnings0 : list string) : exc state :=
  scan is_start _SECTION_END_KEYWORDS body lines false
    {| tipo_actual := None; rows := []; warnings := warnings0 |}.

(** [parse_recursos_from_text]: the rows returned and the warnings list
    after the call. *)
Definition parse_recursos_from_text (text_all : string) (warnings0 : list string)
  : exc (list row * list string) :=
  st ← parse_lines (splitlines text_all) warnings0;
  mret (rows st, warnings st).

End Recursos.

(** ** [pipeline/parsers/gastos.py] *)

Module Gastos.

Definition _SECTION_START : string := "evolucion de gastos por objeto".
Definition _SECTION_END_KEYWORDS : list string :=
  [ "evolucion de gastos por programa"; "evolucion de los recursos" ].

Record row : Type :=
  { Gasto_Categoria : string; Gasto_Objeto : string;
    Gasto_Vigente : pyfloat; Gasto_Preventivo : pyfloat;
    Gasto_Compromiso : pyfloat; Gasto_Devengado : pyfloat;
    Gasto_Pagado : pyfloat }.

Record state : Type :=
  { tipo_actual : option string; rows : list row; warnings : list string }.

Definition is_start (low : string) : bool := contains _SECTION_START low.

Definition body (line low : string) (st : state) : exc (flow state) :=
  if startswith low "1." && contains "presupuest" low then
    mret (Next {| tipo_actual := Some "Presupuestarios";
                  rows := rows st; warnings := warnings st |})
  else if startswith low "2." && contains "extrapresupuest" low then
    mret (Next {| tipo_actual := Some "Extrapresupuestarios";
                  rows := rows st; warnings := warnings st |})
  else
    let amounts := re_findall AMOUNT_RE line in
    if Nat.leb 5 (length amounts) then
      vig ← amount_at amounts (-5);
      prev ← amount_at amounts (-4);
      comp ← amount_at amounts (-3);
      dev ← amount_at amounts (-2);
      pag ← amount_at amounts (-1);
      let name := normalize_name (re_remove AMOUNT_RE line) in
      if _is_total_row name then mret (Next st)
      else
        match tipo_actual st with
        | Some t =>
            if nonempty t then
              mret (Next {| tipo_actual := tipo_actual st;
                      rows := rows st ++
                        [{| Gasto_Categoria := t; Gasto_Objeto := name;
                            Gasto_Vigente := vig; Gasto_Preventivo := prev;
                            Gasto_Compromiso := comp; Gasto_Devengado := dev;
                            Gasto_Pagado := pag |}];
                      warnings := warnings st |})
            else
              mret (Next {| tipo_actual := tipo_actual st; rows := rows st;
                      warnings := warnings st ++
                        ["Fila sin tipo detectado: '" +:+ line +:+ "'"] |})
        | None =>
            mret (Next {| tipo_actual := tipo_actual st; rows := rows st;
                    warnings := warnings st ++
                      ["Fila sin tipo detectado: '" +:+ line +:+ "'"] |})
        end
    else mret (Next st).

Definition parse_lines (lines : list string) (warnings0 : list string) : exc state :=
  scan is_start _SECTION_END_KEYWORDS body lines false
    {| tipo_actual := None; rows := []; warnings := warnings0 |}.

(** [parse_gastos_objeto_from_text] *)
Definition parse_gastos_objeto_from_text (text_all : string)
    (warnings0 : list string) : exc (list row * list string) :=
  st ← parse_lines (splitlines text_all) warnings0;
  mret (rows st, warnings st).

End Gastos.

(** ** [pipeline/parsers/programas.py] *)

Module Programas.

(** [_CODE_LINE_RE = ^(\d{4,})\s*-?\s*(\d{1,3})\s+(.+)$] *)
Definition _CODE_LINE_RE : re :=
  cat_all [Bol; Grp 1 (at_least 4 digit); star space; opt (chr "-"); star space;
           Grp 2 (between 1 3 digit); plus space; Grp 3 (plus any); Eol].

Definition _SECTION_START : string := "evolucion de gastos por programa".
Definition _SECTION_END_KEYWORDS : list string :=
  [ "evolucion de los recursos"; "evolucion de gastos por objeto";
    "evolucion de las principales metas"; "movimientos de tesoreria";
    "estado de situacion patrimonial"; "situacion economico-financiera" ].

(** A jurisdiction row: [{"Juri_Nombre": ...}] has no code. *)
Record juri : Type :=
  { Juri_Codigo : option string; Juri_Nombre : option string }.

Record prog : Type :=
  { P_Juri_Codigo : option string; P_Juri_Nombre : option string;
    Prog_Codigo : option string; Prog_Nombre : string;
    Prog_Vigente : pyfloat; Prog_Preventivo : pyfloat;
    Prog_Compromiso : pyfloat; Prog_Devengado : pyfloat;
    Prog_Pagado : pyfloat }.

Record state : Type :=
  { jurisdicciones : list juri; programas : list prog;
    juri_actual : option string; current_group : option string;
    warnings : list string }.

Definition is_start (low : string) : bool := contains _SECTION_START low.

Definition body (line low : string) (st : state) : exc (flow state) :=
  if _is_total_row line then mret (Next st)
  else
    match re_match _CODE_LINE_RE line with
    | None =>
        (* Detectar jurisdiccion (linea sin codigo al inicio) *)
        let amounts := re_findall AMOUNT_RE line in
        let name := normalize_name (re_remove AMOUNT_RE line) in
        if Nat.eqb (length amounts) 0
           && (String.eqb name "Departamento Ejecutivo" || String.eqb name "H.C.D.")
        then
          mret (Next {| jurisdicciones := jurisdicciones st ++
                          [{| Juri_Codigo := None; Juri_Nombre := Some name |}];
                        programas := programas st;
                        juri_actual := Some name; current_group := Some name;
                        warnings := warnings st |})
        else if Nat.leb 5 (length amounts) then
          let hcd := opt_eqb (current_group st) "H.C.D."
                     && String.eqb (lower name) "actividades centrales" in
          let juri_name := if hcd then "HCD" else name in
          let prog_name := if hcd then "HCD" else name in
          let juris := jurisdicciones st ++
                         [{| Juri_Codigo := None; Juri_Nombre := Some juri_name |}] in
          vig ← amount_at amounts (-5);
          prev ← amount_at amounts (-4);
          comp ← amount_at amounts (-3);
          dev ← amount_at amounts (-2);
          pag ← amount_at amounts (-1);
          let progs :=
            if negb (_is_total_row prog_name) then
              programas st ++
                [{| P_Juri_Codigo := None; P_Juri_Nombre := Some juri_name;
                    Prog_Codigo := None; Prog_Nombre := prog_name;
                    Prog_Vigente := vig; Prog_Preventivo := prev;
                    Prog_Compromiso := comp; Prog_Devengado := dev;
                    Prog_Pagado := pag |}]
            else programas st in
          mret (Next {| jurisdicciones := juris; programas := progs;
                        juri_actual := Some juri_name;
                        current_group := current_group st;
                        warnings := warnings st |})
        else mret (Next st)
    | Some code_match =>
        (* Programas con codigo de jurisdiccion + codigo de programa *)
        let juri_code := group_of code_match 1 in
        let prog_code := group_of code_match 2 in
        let prog_rest := group_of code_match 3 in
        let amounts := re_findall AMOUNT_RE prog_rest in
        if Nat.ltb (length amounts) 5 then
          mret (Next {| jurisdicciones := jurisdicciones st;
                        programas := programas st;
                        juri_actual := juri_actual st;
                        current_group := current_group st;
                        warnings := warnings st ++
                          ["Fila de programa incompleta: '" +:+ line +:+ "'"] |})
        else
          vig ← amount_at amounts (-5);
          prev ← amount_at amounts (-4);
          comp ← amount_at amounts (-3);
          dev ← amount_at amounts (-2);
          pag ← amount_at amounts (-1);
          let name := normalize_name (re_remove AMOUNT_RE prog_rest) in
          if _is_total_row name then mret (Next st)
          else
            mret (Next {| jurisdicciones := jurisdicciones st ++
                            [{| Juri_Codigo := Some juri_code;
                                Juri_Nombre := py_or (current_group st) (juri_actual st) |}];
                          programas := programas st ++
                            [{| P_Juri_Codigo := Some juri_code; P_Juri_Nombre := None;
                                Prog_Codigo := Some prog_code; Prog_Nombre := name;
                                Prog_Vigente := vig; Prog_Preventivo := prev;
                                Prog_Compromiso := comp; Prog_Devengado := dev;
                                Prog_Pagado := pag |}];
                          juri_actual := juri_actual st;
                          current_group := current_group st;
                          warnings := warnings st |})
    end.

Definition parse_lines (lines : list string) (warnings0 : list string) : exc state :=
  scan is_start _SECTION_END_KEYWORDS body lines false
    {| jurisdicciones := []; programas := []; juri_actual := None;
       current_group := None; warnings := warnings0 |}.

(** [parse_programas_from_text]: the two lists of the returned dict and the
    warnings list after the call. *)
Definition parse_programas_from_text (text_all : string)
    (warnings0 : list string) : exc (list juri * list prog * list string) :=
  st ← parse_lines (splitlines text_all) warnings0;
  mret (jurisdicciones st, programas st, warnings st).

End Programas.

(** [\b\d{9}\b], used by the treasury and the accounts parsers. *)
Definition CODE9_RE : re := cat_all [Wb; times 9 digit; Wb].

(** ** [pipeline/parsers/movimientos.py] *)

Module Movimientos.

Definition _SECTION_START : string := "movimientos de tesoreria".
Definition _SECTION_END_KEYWORDS : list string :=
  [ "estado de situacion patrimonial"; "demostracion del saldo";
    "evolucion de las principales metas" ].

(** [_MOV_TYPES]: pairs (slug, label). *)
Definition _MOV_TYPES : list (string * string) :=
  [ ("Saldo Inicial", "saldo inicial");
    ("Ingreso", "ingresos del periodo");
    ("Ingreso", "ingresos de ajustes contables");
    ("Egreso", "gastos del periodo");
    ("Egreso", "egresos de ajustes contables");
    (* La constraint solo permite Saldo Inicial/Ingreso/Egreso. *)
    ("Saldo Inicial", "saldo final") ].

Record row : Type :=
  { MovTes_Tipo : string; MovTes_Importe : pyfloat;
    MovTes_TipoResumido : string }.

(** The dict [found], keyed by slug. *)
Definition state : Type := gmap string row.

(** [slug in found] *)
Definition has (found : gmap string row) (slug : string) : bool :=
  bool_decide (is_Some (found !! slug)).

(** The inner [for slug, label in _MOV_TYPES] with its [break]. *)
Fixpoint record_first (types : list (string * string)) (line low : string)
    (amounts : list string) (found : state) : exc state :=
  match types with
  | [] => mret found
  | (slug, label) :: more =>
      if contains label low && negb (has found slug) then
        importe ← amount_at amounts 0;
        let tipo_text := if contains ":" line then before_char ":" line else line in
        let tipo_text := normalize_name tipo_text in
        mret (<[slug := {| MovTes_Tipo := tipo_text; MovTes_Importe := importe;
                           MovTes_TipoResumido := slug |}]> found)
      else record_first more line low amounts found
  end.

Definition body (line low : string) (found : state) : exc (flow state) :=
  if contains "movimientos de tesoreria" low && contains "importe" low
  then mret (Next found)
  else
    (* Cortar columna derecha (estado patrimonial) si aparece un codigo 9 digitos *)
    let '(line, low) :=
      match re_search CODE9_RE line with
      | Some code_idx =>
          let line' := strip (take (m_start code_idx) line) in
          (line', normalize_key line')
      | None => (line, low)
      end in
    if negb (nonempty line) then mret (Next found)
    else
      let amounts := find_amounts line in
      if Nat.eqb (length amounts) 0 then mret (Next found)
      else
        found' ← record_first _MOV_TYPES line low amounts found;
        if Nat.eqb (size found') (length _MOV_TYPES) then mret (Stop found')
        else mret (Next found').

(** The rows, one per entry of [_MOV_TYPES] whose slug is in [found]. *)
Definition collect (found : state) : list row :=
  omap (fun '(slug, _) => found !! slug) _MOV_TYPES.

Definition parse_lines (lines : list string) (warnings0 : list string)
  : exc (list row * list string) :=
  found ← scan (contains _SECTION_START) _SECTION_END_KEYWORDS body lines false ∅;
  let rows := collect found in
  mret (rows,
        if Nat.eqb (length rows) 0
        then warnings0 ++ ["No se encontraron movimientos de tesoreria."]
        else warnings0).

(** [parse_movimientos_from_text] *)
Definition parse_movimientos_from_text (text_all : string)
    (warnings0 : list string) : exc (list row * list string) :=
  parse_lines (splitlines text_all) warnings0.

End Movimientos.

(** ** [pipeline/parsers/cuentas.py] *)

Module Cuentas.

Definition _SECTION_START : string := "demostracion del saldo".
Definition _SECTION_END_KEYWORDS : list string :=
  [ "evolucion de las principales metas" ].

(** [_CODE_RE = ^\d{6,12}\b] *)
Definition _CODE_RE : re := cat_all [Bol; between 6 12 digit; Wb].

Definition _tipo_from_nombre (name : string) : string :=
  let low := normalize_key name in
  if contains "banco" low then "BANCO"
  else if contains "fondos" low then "FONDOS"
  else if contains "recursos" low || contains "afectados" low then "RECURSOS"
  else if contains "caja" low then "CAJA"
  else "OTRO".

Record row : Type :=
  { Cuenta_Codigo : option string; Cuenta_Nombre : string;
    Cuenta_Tipo : string; Cuenta_Importe : pyfloat }.

Definition body (line low : string) (rows : list row) : exc (flow (list row)) :=
  if contains "total" low then mret (Next rows)
  (* Evitar lineas mezcladas con situacion patrimonial *)
  else if contains "pasivo" low || contains "activo" low || contains "patrimonio" low
  then mret (Next rows)
  else
    let codes := re_findall CODE9_RE line in
    if Nat.ltb 1 (length codes) then mret (Next rows)
    else
      let amounts := find_amounts line in
      if Nat.eqb (length amounts) 0 then mret (Next rows)
      else
        importe ← amount_at amounts (-1);
        last ← py_index amounts (-1);
        let line_wo_amount := strip (slice_to line (rfind last line)) in
        if negb (nonempty line_wo_amount) then mret (Next rows)
        else if startswith (lower line_wo_amount) "caja" then
          mret (Next (rows ++
            [{| Cuenta_Codigo := None; Cuenta_Nombre := "CAJA";
                Cuenta_Tipo := "CAJA"; Cuenta_Importe := importe |}]))
        else
          match re_match _CODE_RE line_wo_amount with
          | Some code_match =>
              let code := m_text code_match in
              let nombre := strip (slice_from line_wo_amount (String.length code)) in
              let nombre := if negb (nonempty nombre) then code else nombre in
              mret (Next (rows ++
                [{| Cuenta_Codigo := Some code; Cuenta_Nombre := nombre;
                    Cuenta_Tipo := _tipo_from_nombre nombre;
                    Cuenta_Importe := importe |}]))
          | None =>
              mret (Next (rows ++
                [{| Cuenta_Codigo := None; Cuenta_Nombre := line_wo_amount;
                    Cuenta_Tipo := _tipo_from_nombre line_wo_amount;
                    Cuenta_Importe := importe |}]))
          end.

Definition parse_lines (lines : list string) (warnings0 : list string)
  : exc (list row * list string) :=
  rows ← scan (contains _SECTION_START) _SECTION_END_KEYWORDS body lines false [];
  mret (rows,
        if Nat.eqb (length rows) 0
        then warnings0 ++ ["No se encontraron cuentas."]
        else warnings0).

(** [parse_cuentas_from_text] *)
Definition parse_cuentas_from_text (text_all : string)
    (warnings0 : list string) : exc (list row * list string) :=
  parse_lines (splitlines text_all) warnings0.

End Cuentas.

(** ** [pipeline/parsers/sitpat.py] *)

Module SitPat.

Definition _SECTION_START : string := "estado de situacion patrimonial".
Definition _SECTION_END_KEYWORDS : list string :=
  [ "demostracion del saldo"; "evolucion de las principales metas";
    "movimientos de tesoreria" ].

(** [_CODE_NAME_MAP], in insertion order. *)
Definition _CODE_NAME_MAP : list (string * string) :=
  [ ("110000000", "Activo Corriente");
    ("120000000", "Activo No Corriente");
    ("210000000", "Pasivo Corriente");
    ("220000000", "Pasivo No Corriente");
    ("311000000", "Capital Fiscal");
    ("312100000", "Resultados de Ejercicios Anteriores");
    ("312200000", "Resultado del ejercicio");
    ("312300000",
     "Resultados afectados a la construccion de bienes de dominio publico") ].

(** [x < 0] on a float. *)
Definition is_negative (x : pyfloat) : bool :=
  match x with
  | PFin q => negb (Qle_bool 0 q)
  | PInf neg => neg
  | PNan => false
  end.

Definition _tipo_from_name (name : string) (saldo : option pyfloat) : string :=
  let low := normalize_key name in
  if contains "activo" low then "ACTIVO"
  else if contains "pasivo" low || contains "patrimonio" low then "PASIVO_PATRIMONIO"
  else if match saldo with Some x => is_negative x | None => false end
  then "PASIVO_PATRIMONIO"
  else "PASIVO_PATRIMONIO".

Definition _pick_amount_after_code (line code : string) : exc (option pyfloat) :=
  let code_idx := find code line in
  if (code_idx <? 0)%Z then mret None
  else
    let tail := slice_from line (Z.to_nat code_idx + String.length code) in
    let amounts := find_amounts tail in
    if Nat.ltb 0 (length amounts) then
      x ← amount_at amounts 0; mret (Some x)
    else mret None.

Record row : Type :=
  { SitPat_Codigo : string; SitPat_Nombre : string;
    SitPat_Saldo : pyfloat; SitPat_Tipo : string }.

Definition state : Type := gmap string row.

(** The inner [for code, label in _CODE_NAME_MAP.items()]. *)
Fixpoint record_codes (entries : list (string * string)) (line : string)
    (found : state) : exc state :=
  match entries with
  | [] => mret found
  | (code, label) :: more =>
      if contains code line && negb (bool_decide (is_Some (found !! code))) then
        saldo ← _pick_amount_after_code line code;
        match saldo with
        | None => record_codes more line found
        | Some x =>
            record_codes more line
              (<[code := {| SitPat_Codigo := code; SitPat_Nombre := label;
                            SitPat_Saldo := x;
                            SitPat_Tipo := _tipo_from_name label saldo |}]> found)
        end
      else record_codes more line found
  end.

Definition body (line low : string) (found : state) : exc (flow state) :=
  if contains "estado de situacion patrimonial" low && contains "saldo" low
  then mret (Next found)
  else if contains "movimientos de tesoreria" low then mret (Next found)
  else
    found' ← record_codes _CODE_NAME_MAP line found;
    if Nat.eqb (size found') (length _CODE_NAME_MAP) then mret (Stop found')
    else mret (Next found').

Definition collect (found : state) : list row :=
  omap (fun '(code, _) => found !! code) _CODE_NAME_MAP.

Definition parse_lines (lines : list string) (warnings0 : list string)
  : exc (list row * list string) :=
  found ← scan (contains _SECTION_START) _SECTION_END_KEYWORDS body lines false ∅;
  let rows := collect found in
  mret (rows,
        if Nat.eqb (length rows) 0
        then warnings0 ++ ["No se encontraron filas de situacion patrimonial."]
        else warnings0).

(** [parse_sitpat_from_text] *)
Definition parse_sitpat_from_text (text_all : string)
    (warnings0 : list string) : exc (list row * list string) :=
  parse_lines (splitlines text_all) warnings0.

End SitPat.

(** ** [pipeline/parsers/metas.py] *)

Module Metas.

Definition _SECTION_START : string :=
  "evolucion de las principales metas de programas".
Definition _SECTION_END_KEYWORDS : list string :=
  [ "r.a.f.a.m."; "hoja:"; "estado de situacion patrimonial";
    "movimientos de tesoreria" ].

(** [_PROG_HEADER_RE = ^\s*(\d{10})\s+(\d+)\s+(.+)$] *)
Definition _PROG_HEADER_RE : re :=
  cat_all [Bol; star space; Grp 1 (times 10 digit); plus space;
           Grp 2 (plus digit); plus space; Grp 3 (plus any); Eol].

(** [_META_ITEM_RE = ^\s*(\d+)\b] *)
Definition _META_ITEM_RE : re :=
  cat_all [Bol; star space; Grp 1 (plus digit); Wb].

(** [_UNIT_RE = \(([^)]+)\)\s*$] *)
Definition _UNIT_RE : re :=
  cat_all [chr "("; Grp 1 (plus (Cls (fun c => negb (Ascii.eqb c ")"))));
           chr ")"; star space; Eol].

(** [_NUM_TOKEN_RE =
     -?\d{1,3}(?:\.\d{3})*(?:,\d{2})|-?\d{1,3}(?:\.\d{3})+|\d+] *)
Definition _NUM_TOKEN_RE : re :=
  alt_all
    [ AMOUNT_RE;
      cat_all [opt (chr "-"); between 1 3 digit;
               plus (Cat (chr ".") (times 3 digit))];
      plus digit ].

(** [float(s)], raising [ValueError]. *)
Definition float_of (s : string) : exc pyfloat :=
  match py_float s with
  | Some x => Ok x
  | None => Raise (ValueError ("could not convert string to float: " +:+ s))
  end.

Fixpoint parse_tokens (tokens : list string) : exc (list pyfloat) :=
  match tokens with
  | [] => mret []
  | m :: more =>
      x ← (if contains "," m then parse_amount_ar m
           else float_of (replace_char "." "" m));
      xs ← parse_tokens more;
      mret (x :: xs)
  end.

(** [_parse_numeric_tokens] *)
Definition _parse_numeric_tokens (text : string) : exc (list pyfloat) :=
  parse_tokens (re_findall _NUM_TOKEN_RE text).

Record row : Type :=
  { Juri_Codigo : string; Prog_Codigo : string; Prog_Nombre : option string;
    Meta_Nombre : string; Meta_Unidad : option string;
    Meta_Anual : option pyfloat; Meta_Parcial : option pyfloat;
    Meta_Ejecutado : option pyfloat; Meta_Observacion : option string }.

Record state : Type :=
  { rows : list row;
    current_juri : option string; current_prog_code : option string;
    current_prog_name : option string;
    pending_meta : option row }.

(** The three assignments made once a line has at least three numbers. *)
Definition fill (pending : row) (nums : list pyfloat) : exc row :=
  anual ← (if Nat.leb 4 (length nums) then py_index nums (-4) else py_index nums (-3));
  parcial ← py_index nums (-3);
  ejecutado ← py_index nums (-2);
  mret {| Juri_Codigo := Juri_Codigo pending; Prog_Codigo := Prog_Codigo pending;
          Prog_Nombre := Prog_Nombre pending; Meta_Nombre := Meta_Nombre pending;
          Meta_Unidad := Meta_Unidad pending;
          Meta_Anual := Some anual; Meta_Parcial := Some parcial;
          Meta_Ejecutado := Some ejecutado;
          Meta_Observacion := Meta_Observacion pending |}.

Definition with_pending (st : state) (p : option row) : state :=
  {| rows := rows st; current_juri := current_juri st;
     current_prog_code := current_prog_code st;
     current_prog_name := current_prog_name st; pending_meta := p |}.

Definition emit (st : state) (r : row) : state :=
  {| rows := rows st ++ [r]; current_juri := current_juri st;
     current_prog_code := current_prog_code st;
     current_prog_name := current_prog_name st; pending_meta := None |}.

Definition body (line low : string) (st : state) : exc (flow state) :=
  if contains "programado" low && contains "diferencia" low then mret (Next st)
  else if String.eqb low "departamento ejecutivo" || String.eqb low "h.c.d."
  then mret (Next st)
  else
    match re_match _PROG_HEADER_RE line with
    | Some prog_match =>
        mret (Next {| rows := rows st;
                      current_juri := Some (group_of prog_match 1);
                      current_prog_code := Some (group_of prog_match 2);
                      current_prog_name :=
                        Some (normalize_name (group_of prog_match 3));
                      pending_meta := None |})
    | None =>
        match current_juri st, current_prog_code st with
        | Some juri, Some prog_code =>
            nums ← _parse_numeric_tokens line;
            match re_match _META_ITEM_RE line with
            | Some _ =>
                let meta_text := strip (re_remove _META_ITEM_RE line) in
                let '(unit, meta_text) :=
                  match re_search _UNIT_RE meta_text with
                  | Some unit_match =>
                      (Some (normalize_name (group_of unit_match 1)),
                       normalize_name (take (m_start unit_match) meta_text))
                  | None => (None, meta_text)
                  end in
                let pending :=
                  {| Juri_Codigo := juri; Prog_Codigo := prog_code;
                     Prog_Nombre := current_prog_name st;
                     Meta_Nombre := meta_text; Meta_Unidad := unit;
                     Meta_Anual := None; Meta_Parcial := None;
                     Meta_Ejecutado := None; Meta_Observacion := None |} in
                if Nat.leb 3 (length nums) then
                  r ← fill pending nums; mret (Next (emit st r))
                else mret (Next (with_pending st (Some pending)))
            | None =>
                match pending_meta st with
                | Some pending =>
                    if Nat.leb 3 (length nums) then
                      r ← fill pending nums; mret (Next (emit st r))
                    else mret (Next st)
                | None => mret (Next st)
                end
            end
        | _, _ => mret (Next st)
        end
    end.

Definition parse_lines (lines : list string) (warnings0 : list string)
  : exc (list row * list string) :=
  st ← scan (contains _SECTION_START) _SECTION_END_KEYWORDS body lines false
         {| rows := []; current_juri := None; current_prog_code := None;
            current_prog_name := None; pending_meta := None |};
  mret (rows st,
        if Nat.eqb (length (rows st)) 0
        then warnings0 ++ ["No se encontraron metas."]
        else warnings0).

(** [parse_metas_from_text] *)
Definition parse_metas_from_text (text_all : string)
    (warnings0 : list string) : exc (list row * list string) :=
  parse_lines (splitlines text_all) warnings0.

End Metas.

(** ** [pipeline/runner.py: run_document], steps 10, 11 and 15

    The store is outside the code: what [fetch_rows] returns after the
    run's jurisdictions were written is the input [juri_db]. *)

Module Runner.

(** A row of [bd_jurisdiccion] as fetched. *)
Record juri_db_row : Type :=
  { ID_Jurisdiccion : option string;
    Juri_Codigo : option string; Juri_Nombre : option string }.

(** Step 10: [juri_map], keyed by code, else by name. *)
Fixpoint build_juri_map (juri_db : list juri_db_row)
    (juri_map : gmap string (option string)) : gmap string (option string) :=
  match juri_db with
  | [] => juri_map
  | j :: more =>
      let name := Juri_Nombre j in
      let code := Juri_Codigo j in
      if truthy code then
        build_juri_map more
          (<[default EmptyString code := ID_Jurisdiccion j]> juri_map)
      else if truthy name then
        build_juri_map more
          (<[default EmptyString name := ID_Jurisdiccion j]> juri_map)
      else build_juri_map more juri_map
  end.

(** [juri_map.get(key)] *)
Definition get (juri_map : gmap string (option string)) (key : string)
  : option string :=
  mjoin (juri_map !! key).

(** A row of [bd_programas] to insert: the program without its jurisdiction
    keys, plus [ID_Jurisdiccion]. *)
Record prog_row : Type :=
  { PR_ID_Jurisdiccion : string; PR_source : Programas.prog }.

(** The look-up of step 11 for one program. *)
Definition resolve_juri (juri_map : gmap string (option string))
    (p : Programas.prog) : option string :=
  let juri_code := Programas.P_Juri_Codigo p in
  let juri_name := Programas.P_Juri_Nombre p in
  let juri_id :=
    if truthy juri_code then get juri_map (default EmptyString juri_code)
    else None in
  let juri_id :=
    if negb (truthy juri_id) && truthy juri_name
    then get juri_map (default EmptyString juri_name)
    else juri_id in
  if truthy juri_id then juri_id else None.

Definition prog_warning (p : Programas.prog) : string :=
  "Programa sin jurisdiccion: '" +:+ Programas.Prog_Nombre p +:+ "'".

(** Step 11: the loop over [programas]. *)
Fixpoint map_programas (juri_map : gmap string (option string))
    (programas : list Programas.prog) (warnings : list string)
  : list prog_row * list string :=
  match programas with
  | [] => ([], warnings)
  | p :: more =>
      match resolve_juri juri_map p with
      | None => map_programas juri_map more (warnings ++ [prog_warning p])
      | Some juri_id =>
          let '(rows, w) := map_programas juri_map more warnings in
          ({| PR_ID_Jurisdiccion := juri_id; PR_source := p |} :: rows, w)
      end
  end.

(** The key under which step 10 files a fetched jurisdiction. *)
Definition juri_key (j : juri_db_row) : option string :=
  if truthy (Juri_Codigo j) then Juri_Codigo j
  else if truthy (Juri_Nombre j) then Juri_Nombre j
  else None.

Definition resolved (juri_map : gmap string (option string))
    (p : Programas.prog) : bool :=
  bool_decide (is_Some (resolve_juri juri_map p)).

(** Steps 10 and 11 together. *)
Definition programs_step (juri_db : list juri_db_row)
    (programas : list Programas.prog) (warnings : list string)
  : list prog_row * list string :=
  map_programas (build_juri_map juri_db ∅) programas warnings.

(** A row of [bd_metas] to insert. *)
Record meta_row : Type :=
  { ID_Programa : string; Meta_Nombre : string; Meta_Unidad : option string;
    Meta_Anual : option pyfloat; Meta_Parcial : option pyfloat;
    Meta_Ejecutado : option pyfloat; Meta_Observacion : option string }.

Definition get2 (m : gmap (string * string) string) (k : string * string)
  : option string :=
  match m !! k with
  | Some v => if nonempty v then Some v else None
  | None => None
  end.

(** The look-up of step 15 for one goal. *)
Definition resolve_prog (prog_by_key prog_by_name : gmap (string * string) string)
    (m : Metas.row) : option string :=
  let juri_code := strip (Metas.Juri_Codigo m) in
  let prog_code := strip (Metas.Prog_Codigo m) in
  let prog_name := lower (strip (default EmptyString (Metas.Prog_Nombre m))) in
  let prog_id :=
    if nonempty juri_code && nonempty prog_code
    then get2 prog_by_key (juri_code, prog_code) else None in
  if negb (truthy prog_id) && nonempty juri_code && nonempty prog_name
  then get2 prog_by_name (juri_code, prog_name)
  else prog_id.

Definition meta_warning (m : Metas.row) : string :=
  "No se encontro programa para meta: " +:+ strip (Metas.Juri_Codigo m) +:+ " "
  +:+ strip (Metas.Prog_Codigo m) +:+ " " +:+ Metas.Meta_Nombre m.

(** Step 15, lines 253-277: the loop over [metas_raw].  Its only outputs are
    [metas_rows] and the warnings list. *)
Fixpoint map_metas (prog_by_key prog_by_name : gmap (string * string) string)
    (metas_raw : list Metas.row) (warnings : list string)
  : list meta_row * list string :=
  match metas_raw with
  | [] => ([], warnings)
  | m :: more =>
      match resolve_prog prog_by_key prog_by_name m with
      | None =>
          map_metas prog_by_key prog_by_name more (warnings ++ [meta_warning m])
      | Some prog_id =>
          let '(rows, w) := map_metas prog_by_key prog_by_name more warnings in
          ({| ID_Programa := prog_id; Meta_Nombre := Metas.Meta_Nombre m;
              Meta_Unidad := Metas.Meta_Unidad m;
              Meta_Anual := Metas.Meta_Anual m;
              Meta_Parcial := Metas.Meta_Parcial m;
              Meta_Ejecutado := Metas.Meta_Ejecutado m;
              Meta_Observacion := Metas.Meta_Observacion m |} :: rows, w)
      end
  end.

End Runner.

(** ** [single_shot/pipeline.py] *)

Module SingleShot.

(** The items of the payload arrays, with the types of the JSON schema. *)
Record programa_item : Type :=
  { Prog_Codigo : option string; Prog_Nombre : string;
    Juri_Codigo : option string;
    Prog_Vigente : option pyfloat; Prog_Preventivo : option pyfloat;
    Prog_Compromiso : option pyfloat; Prog_Devengado : option pyfloat;
    Prog_Pagado : option pyfloat }.

Record meta_item : Type :=
  { Meta_Codigo : option string; Meta_Nombre : string;
    Meta_Unidad : option string;
    Meta_Anual : option pyfloat; Meta_Parcial : option pyfloat;
    Meta_Ejecutado : option pyfloat;
    M_Juri_Codigo : option string; M_Prog_Codigo : option string;
    M_Prog_Nombre : option string }.

Record mov_item : Type :=
  { MovTes_Tipo : string; MovTes_Importe : option pyfloat }.

(** A row of [bd_jurisdiccion] as [fetch_jurisdicciones] returns it. *)
Record juri_db_row : Type :=
  { ID_Jurisdiccion : option string;
    JD_Juri_Codigo : option string; JD_Juri_Nombre : option string }.

(** [{j.get("Juri_Codigo"): j.get("ID_Jurisdiccion") for j in juri_db
      if j.get("Juri_Codigo")}] *)
Fixpoint build_juri_map (juri_db : list juri_db_row)
    (juri_map : gmap string (option string)) : gmap string (option string) :=
  match juri_db with
  | [] => juri_map
  | j :: more =>
      if truthy (JD_Juri_Codigo j) then
        build_juri_map more
          (<[default EmptyString (JD_Juri_Codigo j) := ID_Jurisdiccion j]> juri_map)
      else build_juri_map more juri_map
  end.

Record prog_row : Type :=
  { PR_ID_Jurisdiccion : string; PR_Prog_Codigo : option string;
    PR_Prog_Nombre : string;
    PR_Prog_Vigente : option pyfloat; PR_Prog_Preventivo : option pyfloat;
    PR_Prog_Compromiso : option pyfloat; PR_Prog_Devengado : option pyfloat;
    PR_Prog_Pagado : option pyfloat }.

(** The key looked up for one program: [str(juri_codigo).strip()]. *)
Definition juri_key (item : programa_item) : string :=
  strip (default EmptyString (Juri_Codigo item)).

Definition lookup_juri (juri_map : gmap string (option string))
    (item : programa_item) : option string :=
  let juri_id := mjoin (juri_map !! juri_key item) in
  if truthy juri_id then juri_id else None.

Definition prog_warning (item : programa_item) : string :=
  "Programa sin jurisdiccion: " +:+ Prog_Nombre item.

Definition resolved (juri_map : gmap string (option string))
    (item : programa_item) : bool :=
  bool_decide (is_Some (lookup_juri juri_map item)).

(** The row appended for a program whose jurisdiction is [juri_id]. *)
Definition prog_row_of (juri_id : string) (item : programa_item) : prog_row :=
  {| PR_ID_Jurisdiccion := juri_id; PR_Prog_Codigo := Prog_Codigo item;
     PR_Prog_Nombre := Prog_Nombre item;
     PR_Prog_Vigente := Prog_Vigente item;
     PR_Prog_Preventivo := Prog_Preventivo item;
     PR_Prog_Compromiso := Prog_Compromiso item;
     PR_Prog_Devengado := Prog_Devengado item;
     PR_Prog_Pagado := Prog_Pagado item |}.

(** [_map_programas]: the rows and the warnings. *)
Fixpoint _map_programas (items : list programa_item)
    (juri_map : gmap string (option string)) : list prog_row * list string :=
  match items with
  | [] => ([], [])
  | item :: more =>
      let '(rows, warnings) := _map_programas more juri_map in
      match lookup_juri juri_map item with
      | None => (rows, prog_warning item :: warnings)
      | Some juri_id => (prog_row_of juri_id item :: rows, warnings)
      end
  end.

(** [_norm_text]: combining marks removed (none in the modelled range),
    trimmed, upper-cased, blanks collapsed. *)
Definition _norm_text (value : string) : string :=
  join " " (split_ws (upper (strip value))).

(** [_normalize_movtes_tipo] *)
Definition _normalize_movtes_tipo (value : option string) : option string :=
  match value with
  | None => None
  | Some v =>
      if negb (nonempty v) then None
      else
        let key := lower (_norm_text v) in
        if contains "saldo" key && contains "final" key then None
        else if contains "saldo" key && contains "inicial" key then Some "Saldo Inicial"
        else if contains "ingreso" key then Some "Ingreso"
        else if contains "gasto" key || contains "egreso" key then Some "Egreso"
        else None
  end.

Record mov_row : Type :=
  { MR_Tipo : string; MR_TipoResumido : string; MR_Importe : option pyfloat }.

(** [_map_movimientos] (the document and municipality ids left out). *)
Fixpoint _map_movimientos (items : list mov_item) : list mov_row :=
  match items with
  | [] => []
  | item :: more =>
      match _normalize_movtes_tipo (Some (MovTes_Tipo item)) with
      | Some res =>
          if nonempty res then
            {| MR_Tipo := MovTes_Tipo item; MR_TipoResumido := res;
               MR_Importe := MovTes_Importe item |} :: _map_movimientos more
          else _map_movimientos more
      | None => _map_movimientos more
      end
  end.

Record meta_row : Type :=
  { ID_Programa : string; R_Meta_Nombre : string; R_Meta_Unidad : option string;
    R_Meta_Anual : option pyfloat; R_Meta_Parcial : option pyfloat;
    R_Meta_Ejecutado : option pyfloat; R_Meta_Observacion : option string }.

(** The key of a goal: [f"{juri}::{prog}" if juri and prog else prog]. *)
Definition meta_key (item : meta_item) : string :=
  let juri_codigo := strip (default EmptyString (M_Juri_Codigo item)) in
  let prog_codigo := strip (default EmptyString (M_Prog_Codigo item)) in
  if nonempty juri_codigo && nonempty prog_codigo
  then juri_codigo +:+ "::" +:+ prog_codigo
  else prog_codigo.

Definition lookup_prog (program_mapping : gmap string string)
    (item : meta_item) : option string :=
  match program_mapping !! meta_key item with
  | Some prog_id => if nonempty prog_id then Some prog_id else None
  | None => None
  end.

Definition meta_warning (item : meta_item) : string :=
  "Meta sin programa: " +:+ Meta_Nombre item.

Definition meta_resolved (program_mapping : gmap string string)
    (item : meta_item) : bool :=
  bool_decide (is_Some (lookup_prog program_mapping item)).

(** [_map_metas]: rows, warnings, unresolved. *)
Fixpoint _map_metas (items : list meta_item) (program_mapping : gmap string string)
  : list meta_row * list string * list meta_item :=
  match items with
  | [] => ([], [], [])
  | item :: more =>
      let '(rows, warnings, unresolved) := _map_metas more program_mapping in
      match lookup_prog program_mapping item with
      | None => (rows, meta_warning item :: warnings, item :: unresolved)
      | Some prog_id =>
          ({| ID_Programa := prog_id; R_Meta_Nombre := Meta_Nombre item;
              R_Meta_Unidad := Meta_Unidad item;
              R_Meta_Anual := Meta_Anual item;
              R_Meta_Parcial := Meta_Parcial item;
              R_Meta_Ejecutado := Meta_Ejecutado item;
              R_Meta_Observacion := None |} :: rows, warnings, unresolved)
      end
  end.

(** What [run_single_shot] does with the goals once mapped: the writes to
    the store, in order. *)
Inductive write : Type :=
| LogUnresolved (rows : list meta_item)
| InsertStaging (table : string) (rows : list meta_item)
| UpsertMetas (rows : list meta_row).

Definition goals_step (items : list meta_item) (program_mapping : gmap string string)
    (metas_staging_table : option string) (warnings : list string)
  : list write * list string :=
  let '(metas_rows, meta_warnings, metas_unresolved) :=
    _map_metas items program_mapping in
  let warnings := warnings ++ meta_warnings in
  let side :=
    match metas_unresolved with
    | [] => []
    | _ =>
        LogUnresolved metas_unresolved ::
        match metas_staging_table with
        | Some t => if nonempty t then [InsertStaging t metas_unresolved] else []
        | None => []
        end
    end in
  (side ++ [UpsertMetas metas_rows], warnings).

(** The second pass over the goals, lines 357-371.  [extract_metas_only] is
    the outcome the call would have; [calls] counts how often it is made. *)
Record second_pass : Type :=
  { bd_metas : list meta_item; sp_warnings : list string;
    calls : nat; replaced : bool }.

Definition metas_threshold : nat := 50.

Definition reload_metas (bd_metas0 : list meta_item) (warnings : list string)
    (extract_metas_only : exc (list meta_item)) : exc second_pass :=
  let metas_count := length bd_metas0 in
  if Nat.ltb metas_count metas_threshold then
    metas_list ← extract_metas_only;
    if Nat.ltb metas_count (length metas_list) then
      mret {| bd_metas := metas_list;
              sp_warnings := warnings ++
                ["Metas recargadas en segunda pasada (metas only)."];
              calls := 1; replaced := true |}
    else
      mret {| bd_metas := bd_metas0; sp_warnings := warnings;
              calls := 1; replaced := false |}
  else
    mret {| bd_metas := bd_metas0; sp_warnings := warnings;
            calls := 0; replaced := false |}.

End SingleShot.

(** ** The retry loop of the LLM extractor

    [single_shot/openai_extract.py: extract_pdf_single_shot] and
    [extract_metas_only], [ingest/llm_utils.py: call_structured_output]:
    the three loops differ in the prompt and in the text of the final
    error only.  The transport is outside the code: [native i] and
    [chat i] are what the two calls of attempt [i] would do. *)

Module Retry.

Inductive native_outcome (P : Type) : Type :=
| NativeOk (payload : P)          (* the text of the response *)
| NativeUnsupported               (* [TypeError] naming [response_format] *)
| NativeFail (e : pyerr).         (* any other exception *)
Arguments NativeOk {P} payload.
Arguments NativeUnsupported {P}.
Arguments NativeFail {P} e.

Section Loop.
Context {P : Type}.
Variable native_call : nat -> native_outcome string.
Variable chat_call : nat -> exc string.
Variable loads : string -> exc P.          (* [json.loads] *)
Variable validate : P -> exc unit.         (* [json_validate] *)
Variable final_msg : string.       (* "LLM fallo despues de reintentos" ... *)
Variable empty_msg : string.       (* "LLM fallo." / "LLM fallo metas." *)
Variable max_retries : Z.
Variable retry_sleep_sec : Q.

(** The plain chat call with the schema in the prompt, validated here. *)
Definition fallback (i : nat) : exc P :=
  text ← chat_call i;
  if negb (nonempty text) then Raise (RuntimeError "Respuesta vacia del LLM.")
  else
    parsed ← loads text;
    _ ← validate parsed;
    mret parsed.

(** The body of the [try]: its outcome and [use_responses] afterwards. *)
Definition attempt (i : nat) (use_responses : bool) : exc P * bool :=
  if use_responses then
    match native_call i with
    | NativeOk text => (loads text, true)
    | NativeFail e => (Raise e, true)
    | NativeUnsupported => (fallback i, false)
    end
  else (fallback i, false).

(** [for attempt in range(max_retries + 1)], from attempt [i] with [n]
    attempts left; [slept] lists the arguments of [time.sleep] so far. *)
Fixpoint loop (n : nat) (i : nat) (use_responses : bool) (slept : list Q)
  : exc P * list Q :=
  match n with
  | O => (Raise (RuntimeError empty_msg), slept)
  | S n' =>
      match attempt i use_responses with
      | (Ok payload, _) => (Ok payload, slept)
      | (Raise last_error, use_responses') =>
          if (Z.of_nat i <? max_retries)%Z then
            loop n' (S i) use_responses'
              (slept ++ [(retry_sleep_sec * inject_Z (Z.of_nat i + 1))%Q])
          else
            (Raise (RaisedFrom
                      (RuntimeError (final_msg +:+ ": " +:+ err_msg last_error))
                      last_error),
             slept)
      end
  end.

Definition extract (has_responses : bool) : exc P * list Q :=
  loop (Z.to_nat (max_retries + 1)) 0 has_responses [].

(** The pause after the failure of attempt [i]:
    [retry_sleep_sec * (attempt + 1)]. *)
Definition delay (i : nat) : Q := (retry_sleep_sec * inject_Z (Z.of_nat i + 1))%Q.

(** The error raised once the attempts are used up. *)
Definition exhausted (last_error : pyerr) : pyerr :=
  RaisedFrom (RuntimeError (final_msg +:+ ": " +:+ err_msg last_error)) last_error.

(** [use_responses] at the start of attempt [i], and the outcome of that
    attempt, when all attempts before it were made. *)
Fixpoint use_responses_at (has_responses : bool) (i : nat) : bool :=
  match i with
  | O => has_responses
  | S j => snd (attempt j (use_responses_at has_responses j))
  end.

Definition outcome (has_responses : bool) (i : nat) : exc P :=
  fst (attempt i (use_responses_at has_responses i)).
End Loop.

Definition total_delay (slept : list Q) : Q := fold_right Qplus 0%Q slept.

End Retry.

(** A text given line by line. *)
Definition nl : string := String "010" EmptyString.
Definition lines_text (ls : list string) : string := join nl ls.

(** ** Character classes and sample inputs used by the properties *)

Definition digit_or_dot (c : ascii) : bool := is_digit c || Ascii.eqb c ".".
Definition not_space (c : ascii) : bool := negb (is_space c).

(** A resources table closed by the title of the expenses table, followed
    by a line shaped like a row. *)
Definition boundary_lines : list string :=
  [ "Evolucion de los Recursos";
    "1. Presupuestarios";
    "Ingresos corrientes 1.000,00 900,00 800,00";
    "Evolucion de los Gastos";
    "Gastos en personal 500,00 400,00 300,00" ].

(** A resources table whose title line also carries the title of the
    table printed to its right, which is one of the end keywords. *)
Definition two_column_title_text : string :=
  lines_text
    [ "Evolucion de los Recursos Cuenta Ahorro Inversion Financiamiento";
      "1. Presupuestarios";
      "Ingresos corrientes 1.000,00 900,00 800,00" ].

(** A report with none of the tables. *)
Definition no_tables_text : string :=
  lines_text [ "Municipalidad de Prueba"; "Informe trimestral 1.000,00" ].

(** A treasury section with the six canonical lines. *)
Definition six_movements_text : string :=
  lines_text
    [ "MOVIMIENTOS DE TESORERIA";
      "Saldo Inicial: 1.000,00";
      "Ingresos del Periodo: 500,00";
      "Ingresos de Ajustes Contables: 10,00";
      "Gastos del Periodo: 300,00";
      "Egresos de Ajustes Contables: 5,00";
      "Saldo Final: 1.205,00" ].

Definition mov (tipo : string) (cents : Z) (resumido : string) : Movimientos.row :=
  {| Movimientos.MovTes_Tipo := tipo;
     Movimientos.MovTes_Importe := PFin (decimal cents 2);
     Movimientos.MovTes_TipoResumido := resumido |}.

(** A goals section whose current program is 1110100000 / 16. *)
Definition in_program : Metas.state :=
  {| Metas.rows := []; Metas.current_juri := Some "1110100000";
     Metas.current_prog_code := Some "16";
     Metas.current_prog_name := Some "Salud Publica";
     Metas.pending_meta := None |}.

Definition whole (n : Z) : pyfloat := PFin (inject_Z n).

(** A goal line with three numeric columns and no difference column. *)
Definition three_columns_text : string :=
  lines_text
    [ "Evolucion de las principales metas de programas";
      "1110100000 16 Salud Publica";
      "2 Vacunas aplicadas 100 50 30" ].

(** A parsed goal of program 1110100000 / 16, and a programs table that
    only knows program 01 of that jurisdiction. *)
Definition orphan_goal : Metas.row :=
  {| Metas.Juri_Codigo := "1110100000"; Metas.Prog_Codigo := "16";
     Metas.Prog_Nombre := Some "Salud Publica";
     Metas.Meta_Nombre := "Consultas medicas";
     Metas.Meta_Unidad := Some "Personas";
     Metas.Meta_Anual := Some (whole 1000);
     Metas.Meta_Parcial := Some (whole 500);
     Metas.Meta_Ejecutado := Some (whole 450);
     Metas.Meta_Observacion := None |}.

Definition only_program_01 : gmap (string * string) string :=
  {[ ("1110100000", "01") := "prog-01" ]}.

Definition only_program_01_by_name : gmap (string * string) string :=
  {[ ("1110100000", "administracion") := "prog-01" ]}.

Definition goal_named (name : string) : SingleShot.meta_item :=
  {| SingleShot.Meta_Codigo := None; SingleShot.Meta_Nombre := name;
     SingleShot.Meta_Unidad := None; SingleShot.Meta_Anual := None;
     SingleShot.Meta_Parcial := None; SingleShot.Meta_Ejecutado := None;
     SingleShot.M_Juri_Codigo := Some "1110100000";
     SingleShot.M_Prog_Codigo := Some "16"; SingleShot.M_Prog_Nombre := None |}.

(** A transport that refuses the connection twice and then answers. *)
Definition flaky_native (i : nat) : Retry.native_outcome string :=
  if Nat.ltb i 2 then Retry.NativeFail (OtherError "APIConnectionError" "Connection error.")
  else Retry.NativeOk "{}".

Definition no_chat (i : nat) : exc string :=
  Raise (OtherError "APIConnectionError" "Connection error.").

(** ** Capturing groups *)

(** The capturing groups of a pattern, each with its own pattern. *)
Fixpoint groups_of (r : re) : list (nat * re) :=
  match r with
  | Cat a b | Alt a b => groups_of a ++ groups_of b
  | Rep _ _ a => groups_of a
  | Grp i a => (i, a) :: groups_of a
  | _ => []
  end.

(** Group [i] takes part in every match of the pattern. *)
Fixpoint always_captures (r : re) (i : nat) : bool :=
  match r with
  | Cat a b => always_captures a i || always_captures b i
  | Alt a b => always_captures a i && always_captures b i
  | Rep lo _ a => Nat.ltb 0 lo && always_captures a i
  | Grp j a => Nat.eqb i j || always_captures a i
  | _ => false
  end.

(** Every captured text belongs to the language of its group. *)
Definition caps_in (r : re) (new : caps) : Prop :=
  Forall (fun it => exists a, In (fst it, a) (groups_of r) /\ lang a (snd it)) new.

(** The state a parser body hands back. *)
Definition flow_st {S : Type} (f : flow S) : S :=
  match f with Next st | Stop st => st end.

(** ** [pipeline/runner.py: run_document], step 9

    The jurisdictions parsed are written once per key, the key being the
    code, else the name; an entry without key is left out. *)

Module RunnerJuris.

(** A row of [bd_jurisdiccion] to insert: [dict(j)] with the document and,
    when the document has one, the municipality. *)
Record juri_row : Type :=
  { JR_Juri_Codigo : option string; JR_Juri_Nombre : option string;
    JR_ID_DocumentoCargado : string; JR_ID_Municipio : option string }.

(** [key = code or name] *)
Definition key (j : Programas.juri) : option string :=
  py_or (Programas.Juri_Codigo j) (Programas.Juri_Nombre j).

Definition row_of (doc_id : string) (id_muni : option string)
    (j : Programas.juri) : juri_row :=
  {| JR_Juri_Codigo := Programas.Juri_Codigo j;
     JR_Juri_Nombre := Programas.Juri_Nombre j;
     JR_ID_DocumentoCargado := doc_id; JR_ID_Municipio := id_muni |}.

(** The loop of step 9, with the set [seen_juri]. *)
Fixpoint juri_rows_from (doc_id : string) (id_muni : option string)
    (jurisdicciones : list Programas.juri) (seen_juri : gset string)
  : list juri_row :=
  match jurisdicciones with
  | [] => []
  | j :: more =>
      let k := key j in
      if negb (truthy k) || bool_decide ((default EmptyString k) ∈ seen_juri)
      then juri_rows_from doc_id id_muni more seen_juri
      else row_of doc_id id_muni j
           :: juri_rows_from doc_id id_muni more ({[default EmptyString k]} ∪ seen_juri)
  end.

Definition juri_rows (doc_id : string) (id_muni : option string)
    (jurisdicciones : list Programas.juri) : list juri_row :=
  juri_rows_from doc_id id_muni jurisdicciones ∅.

(** The key of a row written, the same [code or name]. *)
Definition row_key (r : juri_row) : option string :=
  py_or (JR_Juri_Codigo r) (JR_Juri_Nombre r).

End RunnerJuris.

(** A programs table with one jurisdiction header and one coded program,
    and the jurisdictions the store returns for it. *)
Definition one_program_text : string :=
  lines_text
    [ "Evolucion de Gastos por Programa";
      "Departamento Ejecutivo";
      "1110101000 01 Conduccion superior 1.000,00 900,00 800,00 700,00 600,00" ].

Definition one_program_juri_db : list Runner.juri_db_row :=
  [ {| Runner.ID_Jurisdiccion := Some "j-1"; Runner.Juri_Codigo := None;
       Runner.Juri_Nombre := Some "Departamento Ejecutivo" |};
    {| Runner.ID_Jurisdiccion := Some "j-2"; Runner.Juri_Codigo := Some "1110101000";
       Runner.Juri_Nombre := Some "Departamento Ejecutivo" |} ].

(** [d.get(k)] for a dict written as a literal, in insertion order. *)
Fixpoint assoc_get (k : string) (d : list (string * string)) : option string :=
  match d with
  | [] => None
  | (k', v) :: more => if String.eqb k k' then Some v else assoc_get k more
  end.

(** [str.isdigit]: non-empty and made of digits. *)
Definition isdigit (s : string) : bool := nonempty s && sall is_digit s.

(** ** [single_shot/pipeline.py], the mappings of the other tables *)

Module SingleShotRows.

Definition _SITPAT_NAMES : list (string * string) :=
  [ ("ACTIVO CORRIENTE", "Activo");
    ("ACTIVO NO CORRIENTE", "Activo");
    ("PASIVO CORRIENTE", "Pasivo");
    ("PASIVO NO CORRIENTE", "Pasivo");
    ("CAPITAL FISCAL", "Patrimonio Publico");
    ("RESULTADO DE EJERCICIOS ANTERIORES", "Patrimonio Publico");
    ("RESULTADO DEL EJERCICIO", "Patrimonio Publico");
    ("RESULTADOS AFECTADOS A CONSTRUCCION DE BIENES DE DOMINIO PUBLICO",
     "Patrimonio Publico") ].

(** The items of [bd_cuentas] and [bd_situacionpatrimonial], with the
    types of the JSON schema. *)
Record cuenta_item : Type :=
  { Cuenta_Codigo : option string; Cuenta_Nombre : string;
    Cuenta_Importe : option pyfloat }.

Record sitpat_item : Type :=
  { SitPat_Tipo : option string; SitPat_Nombre : string;
    SitPat_Saldo : option pyfloat }.

(** The type under which an account is moved to the balance sheet, if it
    is: the test of the loop of [_reclassify_cuentas_to_sitpat]. *)
Definition moved_as (item : cuenta_item) : option string :=
  let name := SingleShot._norm_text (Cuenta_Nombre item) in
  let code := strip (default EmptyString (Cuenta_Codigo item)) in
  let is_numeric_code := isdigit code && Nat.leb 6 (String.length code) in
  let sitpat_tipo := assoc_get name _SITPAT_NAMES in
  if truthy sitpat_tipo
     && (is_numeric_code
         || (startswith name "ACTIVO" || startswith name "PASIVO"
             || startswith name "CAPITAL" || startswith name "RESULTADO"))
  then sitpat_tipo else None.

Definition to_sitpat (sitpat_tipo : string) (item : cuenta_item) : sitpat_item :=
  {| SitPat_Tipo := Some sitpat_tipo; SitPat_Nombre := Cuenta_Nombre item;
     SitPat_Saldo := Cuenta_Importe item |}.

(** The loop: the accounts kept, the balance-sheet list and the count. *)
Fixpoint reclassify_loop (cuentas : list cuenta_item)
    (kept_cuentas : list cuenta_item) (sitpat : list sitpat_item) (moved : nat)
  : list cuenta_item * list sitpat_item * nat :=
  match cuentas with
  | [] => (kept_cuentas, sitpat, moved)
  | item :: more =>
      match moved_as item with
      | Some sitpat_tipo =>
          reclassify_loop more kept_cuentas
            (sitpat ++ [to_sitpat sitpat_tipo item]) (S moved)
      | None => reclassify_loop more (kept_cuentas ++ [item]) sitpat moved
      end
  end.

(** [_reclassify_cuentas_to_sitpat]: the two arrays of the payload after
    the call, and the warnings returned. *)
Definition _reclassify_cuentas_to_sitpat (cuentas : list cuenta_item)
    (sitpat : list sitpat_item)
  : list cuenta_item * list sitpat_item * list string :=
  let '(kept_cuentas, sitpat', moved) := reclassify_loop cuentas [] sitpat 0 in
  (kept_cuentas, sitpat',
   if Nat.ltb 0 moved
   then ["Se movieron " +:+ pretty moved
         +:+ " filas de bd_cuentas a bd_situacionpatrimonial."]
   else []).

(** [_map_recursos] (the document and municipality ids are the same on
    every row). *)
Record recurso_item : Type :=
  { Rec_Categoria : option string; Rec_TipoRecurso : string;
    Rec_Vigente : option pyfloat; Rec_Devengado : option pyfloat;
    Rec_Percibido : option pyfloat }.

Record recurso_row : Type :=
  { RR_ID_DocumentoCargado : string; RR_ID_Municipio : string;
    RR_Rec_Categoria : option string; RR_Rec_Nombre : string;
    RR_Rec_Tipo : string;
    RR_Rec_Vigente : option pyfloat; RR_Rec_Devengado : option pyfloat;
    RR_Rec_Percibido : option pyfloat }.

Definition rec_tipo_norm (rec_categoria : option string) : option string :=
  if truthy rec_categoria then
    let cat_norm := SingleShot._norm_text (default EmptyString rec_categoria) in
    let t := if contains "PRESUPUEST" cat_norm then Some "Presupuestario" else None in
    if contains "EXTRAPRESUPUEST" cat_norm then Some "Extrapresupuestario" else t
  else None.

Definition recurso_row_of (doc_id id_municipio : string) (item : recurso_item)
  : recurso_row :=
  {| RR_ID_DocumentoCargado := doc_id; RR_ID_Municipio := id_municipio;
     RR_Rec_Categoria := Rec_Categoria item;
     RR_Rec_Nombre := Rec_TipoRecurso item;
     RR_Rec_Tipo :=
       match rec_tipo_norm (Rec_Categoria item) with
       | Some t => t
       | None => Rec_TipoRecurso item
       end;
     RR_Rec_Vigente := Rec_Vigente item; RR_Rec_Devengado := Rec_Devengado item;
     RR_Rec_Percibido := Rec_Percibido item |}.

Definition _map_recursos (items : list recurso_item) (doc_id id_municipio : string)
  : list recurso_row :=
  map (recurso_row_of doc_id id_municipio) items.

(** The key on which [upsert_recursos] resolves conflicts:
    [ID_DocumentoCargado,Rec_Categoria,Rec_Tipo]. *)
Definition recurso_conflict_key (r : recurso_row) : string * option string * string :=
  (RR_ID_DocumentoCargado r, RR_Rec_Categoria r, RR_Rec_Tipo r).

End SingleShotRows.

(** ** [single_shot/pipeline.py]: programs and goals

    [juri_map] is the dict [run_single_shot] builds from the jurisdictions
    fetched; where the code walks its items, the dict is given as the list
    of its items in insertion order. *)

Module SingleShotProgs.

(** [d[k] = v] on the items of a dict: the value is replaced in place, a
    new key goes last. *)
Fixpoint dict_set (k : string) (v : option string)
    (d : list (string * option string)) : list (string * option string) :=
  match d with
  | [] => [(k, v)]
  | (k', v') :: more =>
      if String.eqb k k' then (k, v) :: more else (k', v') :: dict_set k v more
  end.

(** The items of [juri_map], in order. *)
Fixpoint juri_map_items (juri_db : list SingleShot.juri_db_row)
    (d : list (string * option string)) : list (string * option string) :=
  match juri_db with
  | [] => d
  | j :: more =>
      if truthy (SingleShot.JD_Juri_Codigo j) then
        juri_map_items more
          (dict_set (default EmptyString (SingleShot.JD_Juri_Codigo j))
                    (SingleShot.ID_Jurisdiccion j) d)
      else juri_map_items more d
  end.

(** A row of [bd_programas] as [fetch_programas_for_juris] returns it. *)
Record prog_db_row : Type :=
  { ID_Programa : option string; Prog_Codigo : option string;
    Prog_Nombre : option string; ID_Jurisdiccion : option string }.

(** [juri_by_id = {v: k for k, v in juri_map.items() if v}] *)
Fixpoint juri_by_id_from (items : list (string * option string))
    (m : gmap string string) : gmap string string :=
  match items with
  | [] => m
  | (k, v) :: more =>
      if truthy v then juri_by_id_from more (<[default EmptyString v := k]> m)
      else juri_by_id_from more m
  end.

Definition juri_by_id (items : list (string * option string)) : gmap string string :=
  juri_by_id_from items ∅.

(** [juri_by_id.get(juri_id, "")] *)
Definition juri_code_of (by_id : gmap string string) (juri_id : option string)
  : string :=
  match juri_id with
  | Some i => default EmptyString (by_id !! i)
  | None => EmptyString
  end.

(** The loop of [_build_program_mapping]. *)
Fixpoint program_mapping_from (program_rows : list prog_db_row)
    (by_id : gmap string string) (mapping : gmap string string)
  : gmap string string :=
  match program_rows with
  | [] => mapping
  | row :: more =>
      let prog_codigo := strip (default EmptyString (Prog_Codigo row)) in
      let juri_codigo := juri_code_of by_id (ID_Jurisdiccion row) in
      let prog_id := ID_Programa row in
      if negb (truthy prog_id) then program_mapping_from more by_id mapping
      else
        let prog_id := default EmptyString prog_id in
        let mapping :=
          if nonempty prog_codigo then <[prog_codigo := prog_id]> mapping
          else mapping in
        let mapping :=
          if nonempty juri_codigo && nonempty prog_codigo
          then <[juri_codigo +:+ "::" +:+ prog_codigo := prog_id]> mapping
          else mapping in
        program_mapping_from more by_id mapping
  end.

(** [_build_program_mapping] *)
Definition _build_program_mapping (program_rows : list prog_db_row)
    (juri_map : list (string * option string)) : gmap string string :=
  program_mapping_from program_rows (juri_by_id juri_map) ∅.

(** A row [_create_programs_from_metas] writes. *)
Record new_prog_row : Type :=
  { NP_ID_Jurisdiccion : string; NP_Prog_Codigo : string; NP_Prog_Nombre : string }.

(** The loop of [_create_programs_from_metas], with the set [seen]. *)
Fixpoint new_program_rows (items : list SingleShot.meta_item)
    (juri_map : gmap string (option string)) (seen : gset (string * string))
  : list new_prog_row :=
  match items with
  | [] => []
  | item :: more =>
      let juri_codigo := strip (default EmptyString (SingleShot.M_Juri_Codigo item)) in
      let prog_codigo := strip (default EmptyString (SingleShot.M_Prog_Codigo item)) in
      let prog_nombre := strip (default EmptyString (SingleShot.M_Prog_Nombre item)) in
      if negb (nonempty juri_codigo) || negb (nonempty prog_codigo)
         || negb (nonempty prog_nombre)
      then new_program_rows more juri_map seen
      else if bool_decide ((juri_codigo, prog_codigo) ∈ seen)
      then new_program_rows more juri_map seen
      else
        let juri_id := mjoin (juri_map !! juri_codigo) in
        if negb (truthy juri_id) then new_program_rows more juri_map seen
        else
          {| NP_ID_Jurisdiccion := default EmptyString juri_id;
             NP_Prog_Codigo := prog_codigo; NP_Prog_Nombre := prog_nombre |}
          :: new_program_rows more juri_map ({[(juri_codigo, prog_codigo)]} ∪ seen)
  end.

(** [_create_programs_from_metas]: the rows handed to [upsert_programas]
    (the call is made when there is a row) and the number returned. *)
Definition _create_programs_from_metas (items : list SingleShot.meta_item)
    (juri_map : gmap string (option string)) : list new_prog_row * nat :=
  let rows := new_program_rows items juri_map ∅ in
  (rows, length rows).

End SingleShotProgs.

(** The key of a goal in [_create_programs_from_metas], the goals the
    function can make a program of, and the row of such a goal. *)
Definition new_prog_key (item : SingleShot.meta_item) : string * string :=
  (strip (default EmptyString (SingleShot.M_Juri_Codigo item)),
   strip (default EmptyString (SingleShot.M_Prog_Codigo item))).

Definition creatable (juri_map : gmap string (option string))
    (item : SingleShot.meta_item) : bool :=
  nonempty (strip (default EmptyString (SingleShot.M_Juri_Codigo item)))
  && nonempty (strip (default EmptyString (SingleShot.M_Prog_Codigo item)))
  && nonempty (strip (default EmptyString (SingleShot.M_Prog_Nombre item)))
  && truthy (mjoin (juri_map !! strip (default EmptyString (SingleShot.M_Juri_Codigo item)))).

Definition new_prog_row_of (juri_map : gmap string (option string))
    (item : SingleShot.meta_item) : SingleShotProgs.new_prog_row :=
  {| SingleShotProgs.NP_ID_Jurisdiccion :=
       default EmptyString
         (mjoin (juri_map !! strip (default EmptyString (SingleShot.M_Juri_Codigo item))));
     SingleShotProgs.NP_Prog_Codigo :=
       strip (default EmptyString (SingleShot.M_Prog_Codigo item));
     SingleShotProgs.NP_Prog_Nombre :=
       strip (default EmptyString (SingleShot.M_Prog_Nombre item)) |}.

(** ** [ingest/]: the router, the look-up of programs and the checks *)

Module Ingest.

(** *** [ingest/router.py] *)

Definition _JURI_PROG_KEYWORDS : list string :=
  ["jurisdic"; "programa"; "presupuesto"].

Definition _METAS_KEYWORDS : list string :=
  ["metas"; "evolucion"; "evoluci"; "principales"].

(** [_score_page] *)
Definition _score_page (text : string) (keywords : list string) : nat :=
  let text_lower := lower text in
  length (List.filter (fun key => contains key text_lower) keywords).

(** [_extract_page_texts]: the items of the dict, pages counted from [index];
    [extract_text()] may give [None]. *)
Fixpoint page_texts_from (index : nat) (pages : list (option string))
  : list (nat * string) :=
  match pages with
  | [] => []
  | text :: more =>
      (index, default EmptyString (py_or text (Some EmptyString)))
      :: page_texts_from (S index) more
  end.

Definition _extract_page_texts (pages : list (option string)) : list (nat * string) :=
  page_texts_from 1 pages.

Record RouterResult : Type :=
  { juri_prog_pages : list nat; metas_pages : list nat;
    page_texts : list (nat * string); used_fallback : bool }.

(** The loop of [route_sections] over the items of [page_texts]. *)
Fixpoint route_loop (items : list (nat * string))
    (juri_prog_pages metas_pages : list nat) : list nat * list nat :=
  match items with
  | [] => (juri_prog_pages, metas_pages)
  | (page_num, text) :: more =>
      let juri_prog_pages :=
        if 2 <=? _score_page text _JURI_PROG_KEYWORDS
        then juri_prog_pages ++ [page_num] else juri_prog_pages in
      let metas_pages :=
        if 2 <=? _score_page text _METAS_KEYWORDS
        then metas_pages ++ [page_num] else metas_pages in
      route_loop more juri_prog_pages metas_pages
  end.

(** [route_sections], from the pages [pdfplumber] gives. *)
Definition route_sections (pages : list (option string)) : RouterResult :=
  let page_texts := _extract_page_texts pages in
  let '(juri_prog_pages, metas_pages) := route_loop page_texts [] [] in
  let used_fallback :=
    match juri_prog_pages, metas_pages with
    | [], [] => true
    | _, _ => false
    end in
  {| juri_prog_pages := juri_prog_pages; metas_pages := metas_pages;
     page_texts := page_texts; used_fallback := used_fallback |}.

(** *** [ingest/extract_metas.py] *)

(** A row of [fetch_programas_mapping]. *)
Record program_row : Type :=
  { ID_Programa : option string; Prog_Codigo : option string;
    Juri_Codigo : option string; Prog_Nombre : option string }.

(** A goal of the payload; [valores] is passed on as it is.  [id_programa]
    is the key [extract_metas] sets. *)
Record meta : Type :=
  { prog_codigo : option string; juri_codigo : option string;
    prog_nombre : option string; meta_codigo : option string;
    meta_nombre : option string; unidad_medida : option string;
    valores : option string; id_programa : option string }.

(** [_norm] *)
Definition _norm (text : string) : string :=
  join " " (split_ws (lower (strip text))).

(** The loop of [_build_program_mapping]. *)
Fixpoint program_mapping_from (rows : list program_row)
    (mapping : gmap string string) : gmap string string :=
  match rows with
  | [] => mapping
  | row :: more =>
      let prog_codigo := strip (default EmptyString (Prog_Codigo row)) in
      let juri_codigo := strip (default EmptyString (Juri_Codigo row)) in
      let prog_nombre := strip (default EmptyString (Prog_Nombre row)) in
      let id_programa := ID_Programa row in
      if negb (truthy id_programa) then program_mapping_from more mapping
      else
        let id_programa := default EmptyString id_programa in
        let mapping :=
          if nonempty prog_codigo then <[prog_codigo := id_programa]> mapping
          else mapping in
        let mapping :=
          if nonempty juri_codigo && nonempty prog_codigo
          then <[juri_codigo +:+ "::" +:+ prog_codigo := id_programa]> mapping
          else mapping in
        let mapping :=
          if nonempty prog_nombre
          then <["nombre::" +:+ _norm prog_nombre := id_programa]> mapping
          else mapping in
        let mapping :=
          if nonempty juri_codigo && nonempty prog_nombre
          then <[juri_codigo +:+ "::nombre::" +:+ _norm prog_nombre := id_programa]>
                 mapping
          else mapping in
        program_mapping_from more mapping
  end.

Definition _build_program_mapping (rows : list program_row) : gmap string string :=
  program_mapping_from rows ∅.

(** [_resolve_program_id] *)
Definition _resolve_program_id (mapping : gmap string string) (m : meta)
  : option string :=
  let prog_codigo := strip (default EmptyString (prog_codigo m)) in
  let juri_codigo := strip (default EmptyString (juri_codigo m)) in
  let prog_nombre := strip (default EmptyString (prog_nombre m)) in
  if nonempty juri_codigo && nonempty prog_codigo then
    py_or (mapping !! (juri_codigo +:+ "::" +:+ prog_codigo)) (mapping !! prog_codigo)
  else if nonempty prog_codigo then mapping !! prog_codigo
  else if nonempty juri_codigo && nonempty prog_nombre then
    py_or (mapping !! (juri_codigo +:+ "::nombre::" +:+ _norm prog_nombre))
          (mapping !! ("nombre::" +:+ _norm prog_nombre))
  else if nonempty prog_nombre then mapping !! ("nombre::" +:+ _norm prog_nombre)
  else None.

(** [meta["id_programa"] = id_programa] *)
Definition set_id_programa (m : meta) (id : option string) : meta :=
  {| prog_codigo := prog_codigo m; juri_codigo := juri_codigo m;
     prog_nombre := prog_nombre m; meta_codigo := meta_codigo m;
     meta_nombre := meta_nombre m; unidad_medida := unidad_medida m;
     valores := valores m; id_programa := id |}.

(** The loop of [extract_metas] over the goals of the payload: the
    resolved and the unresolved ones. *)
Fixpoint resolve_metas (mapping : gmap string string) (metas : list meta)
    (resolved unresolved : list meta) : list meta * list meta :=
  match metas with
  | [] => (resolved, unresolved)
  | m :: more =>
      let id_programa := _resolve_program_id mapping m in
      if negb (truthy id_programa)
      then resolve_metas mapping more resolved (unresolved ++ [m])
      else resolve_metas mapping more
             (resolved ++ [set_id_programa m id_programa]) unresolved
  end.

(** What [extract_metas] returns for the goals [metas] of the payload. *)
Definition extract_metas (program_rows : list program_row) (metas : list meta)
  : list meta * list meta :=
  resolve_metas (_build_program_mapping program_rows) metas [] [].

(** *** [ingest/run_ingest.py] and [ingest/validate.py] *)

(** A row of [_prep_metas_rows]. *)
Record metas_row : Type :=
  { R_ID_DocumentoCargado : string; R_ID_Programa : option string;
    R_Meta_Codigo : option string; R_Meta_Nombre : option string;
    R_Unidad_Medida : option string; R_Meta_Valores : option string }.

Definition _prep_metas_rows (doc_id : string) (metas : list meta) : list metas_row :=
  map (fun m =>
         {| R_ID_DocumentoCargado := doc_id; R_ID_Programa := id_programa m;
            R_Meta_Codigo := meta_codigo m; R_Meta_Nombre := meta_nombre m;
            R_Unidad_Medida := unidad_medida m; R_Meta_Valores := valores m |})
      metas.

(** [str(x)] of an optional string in a message. *)
Definition fmt (x : option string) : string := default "None" x.

(** [validate_metas] on the rows of [_prep_metas_rows]: the keys in small
    letters are absent from them, so their [get] is [None]. *)
Fixpoint validate_metas (metas : list metas_row) : list string :=
  match metas with
  | [] => []
  | m :: more =>
      let id_programa := py_or None (R_ID_Programa m) in
      if negb (truthy id_programa) then
        ("Meta sin id_programa: "
         +:+ fmt (py_or (py_or (py_or None None) (R_Meta_Codigo m)) (R_Meta_Nombre m)))
        :: validate_metas more
      else validate_metas more
  end.

(** The entries of the payload of [extract_jurisdicciones_programas]. *)
Record juri_item : Type :=
  { ji_juri_codigo : option string; ji_juri_nombre : option string }.

Record prog_item : Type :=
  { pi_juri_codigo : option string; pi_prog_codigo : option string;
    pi_prog_nombre : option string }.

(** [juri_codes] of [validate_juri_prog]. *)
Definition juri_codes (jurisdicciones : list juri_item) : gset string :=
  list_to_set
    (omap (fun item => if truthy (ji_juri_codigo item) then ji_juri_codigo item
                       else None) jurisdicciones).

Fixpoint prog_warnings (codes : gset string) (programas : list prog_item)
  : list string :=
  match programas with
  | [] => []
  | prog :: more =>
      if negb (truthy (pi_juri_codigo prog)) then
        ("Programa sin juri_codigo: "
         +:+ fmt (py_or (pi_prog_codigo prog) (pi_prog_nombre prog)))
        :: prog_warnings codes more
      else if negb (bool_decide (default EmptyString (pi_juri_codigo prog) ∈ codes))
      then
        ("Programa con juri_codigo desconocido: " +:+ fmt (pi_prog_codigo prog)
         +:+ " -> " +:+ fmt (pi_juri_codigo prog))
        :: prog_warnings codes more
      else prog_warnings codes more
  end.

(** [validate_juri_prog] *)
Definition validate_juri_prog (jurisdicciones : list juri_item)
    (programas : list prog_item) : list string :=
  (match jurisdicciones with
   | [] => ["No se detectaron jurisdicciones."] | _ => [] end)
  ++ (match programas with
      | [] => ["No se detectaron programas."] | _ => [] end)
  ++ prog_warnings (juri_codes jurisdicciones) programas.

End Ingest.

(** [run_single_shot], lines 383-388: the mapping of programs the goals are
    looked up in.  [prog_db] is what the first [fetch_programas_for_juris]
    returns and [prog_db'] what the second returns, made only when
    [_create_programs_from_metas] wrote a row.  [juri_items] are the items
    of [juri_map]. *)
Definition program_mapping_step (juri_items : list (string * option string))
    (goals : list SingleShot.meta_item)
    (prog_db prog_db' : list SingleShotProgs.prog_db_row) : gmap string string :=
  let program_mapping := SingleShotProgs._build_program_mapping prog_db juri_items in
  let '(rows, created) :=
    SingleShotProgs._create_programs_from_metas goals (list_to_map juri_items) in
  if 0 <? created
  then SingleShotProgs._build_program_mapping prog_db' juri_items
  else program_mapping.

Definition two_juri_items : list (string * option string) :=
  [("1110101000", Some "j-1"); ("1110102000", Some "j-2")].

Definition goal_of (juri prog name : string) : SingleShot.meta_item :=
  {| SingleShot.Meta_Codigo := None; SingleShot.Meta_Nombre := "Consultas";
     SingleShot.Meta_Unidad := None; SingleShot.Meta_Anual := None;
     SingleShot.Meta_Parcial := None; SingleShot.Meta_Ejecutado := None;
     SingleShot.M_Juri_Codigo := Some juri; SingleShot.M_Prog_Codigo := Some prog;
     SingleShot.M_Prog_Nombre := Some name |}.

Definition stored_program (id juri prog : string) : SingleShotProgs.prog_db_row :=
  {| SingleShotProgs.ID_Programa := Some id;
     SingleShotProgs.Prog_Codigo := Some prog;
     SingleShotProgs.Prog_Nombre := None;
     SingleShotProgs.ID_Jurisdiccion := Some juri |}.

(** ** [pipeline/load_supabase.py]: [insert_rows]

    A row is a dict from column names to values; the value [None] is
    Python's [None].  [execute] is the call of the client: it gets the
    table and the rows and returns the length of [res.data], when that is
    a list. *)

Module LoadSupabase.
Section Rows.
Context {V : Type}.

Local Abbreviation row := (gmap string (option V)).

(** [all_keys.update(row.keys())] over the rows. *)
Fixpoint all_keys_from (rows : list row) (all_keys : gset string) : gset string :=
  match rows with
  | [] => all_keys
  | row :: more => all_keys_from more (all_keys ∪ dom row)
  end.

(** [{k: row.get(k, None) for k in all_keys}] *)
Definition normalized (all_keys : gset string) (r : row) : row :=
  set_to_map (fun k => (k, mjoin (r !! k))) all_keys.

Definition normalized_rows (rows : list row) : list row :=
  let all_keys := all_keys_from rows ∅ in
  map (normalized all_keys) rows.

Definition insert_rows (execute : string -> list row -> exc (option nat))
    (table_name : string) (rows : option (list row)) : exc nat :=
  if negb (nonempty table_name) then Raise (ValueError "table_name esta vacio.")
  else
    match rows with
    | None => Raise (ValueError "rows es None.")
    | Some [] => Ok 0
    | Some rows =>
        match execute table_name (normalized_rows rows) with
        | Raise e =>
            Raise (RaisedFrom
                     (RuntimeError ("Error al insertar en " +:+ table_name +:+ ": "
                                    +:+ err_msg e)) e)
        | Ok (Some n) => Ok n
        | Ok None => Ok 0
        end
    end.
End Rows.
End LoadSupabase.

(** ** [runner.py], step 15: the programs the goals are looked up in

    [juri_items] are the items of [juri_map] in the order of the dict.  An
    identifier [None] is kept as the empty string: both are falsy, and the
    look-up of a goal tests nothing else. *)

Module RunnerGoals.

(** A row of [bd_programas] as [fetch_rows] returns it. *)
Record prog_db_row : Type :=
  { ID_Programa : option string; ID_Jurisdiccion : option string;
    Prog_Codigo : option string; Prog_Nombre : option string }.

(** Lines 242-246: the first code of [juri_map] with that identifier. *)
Fixpoint juri_code_of (juri_items : list (string * option string))
    (juri_id : option string) : option string :=
  match juri_items with
  | [] => None
  | (code, jid) :: more =>
      if bool_decide (jid = juri_id) then Some code
      else juri_code_of more juri_id
  end.

(** Lines 237-251: the loop over [prog_db]. *)
Fixpoint prog_maps_from (prog_db : list prog_db_row)
    (juri_items : list (string * option string))
    (prog_by_key prog_by_name : gmap (string * string) string)
  : gmap (string * string) string * gmap (string * string) string :=
  match prog_db with
  | [] => (prog_by_key, prog_by_name)
  | p :: more =>
      let pid := default EmptyString (ID_Programa p) in
      let juri_id := ID_Jurisdiccion p in
      let prog_code := strip (default EmptyString (Prog_Codigo p)) in
      let prog_name := lower (strip (default EmptyString (Prog_Nombre p))) in
      let juri_code := juri_code_of juri_items juri_id in
      if truthy juri_code then
        let juri_code := default EmptyString juri_code in
        let prog_by_key :=
          if nonempty prog_code then <[(juri_code, prog_code) := pid]> prog_by_key
          else prog_by_key in
        let prog_by_name :=
          if nonempty prog_name then <[(juri_code, prog_name) := pid]> prog_by_name
          else prog_by_name in
        prog_maps_from more juri_items prog_by_key prog_by_name
      else prog_maps_from more juri_items prog_by_key prog_by_name
  end.

Definition prog_maps (prog_db : list prog_db_row)
    (juri_items : list (string * option string))
  : gmap (string * string) string * gmap (string * string) string :=
  prog_maps_from prog_db juri_items ∅ ∅.

(** Step 15 from the programs fetched: the rows for [bd_metas] and the
    warnings. *)
Definition metas_step (prog_db : list prog_db_row)
    (juri_items : list (string * option string))
    (metas_raw : list Metas.row) (warnings : list string)
  : list Runner.meta_row * list string :=
  let '(prog_by_key, prog_by_name) := prog_maps prog_db juri_items in
  Runner.map_metas prog_by_key prog_by_name metas_raw warnings.

(** The row written for a goal once its program is found. *)
Definition row_for (m : Metas.row) (prog_id : string) : Runner.meta_row :=
  {| Runner.ID_Programa := prog_id; Runner.Meta_Nombre := Metas.Meta_Nombre m;
     Runner.Meta_Unidad := Metas.Meta_Unidad m;
     Runner.Meta_Anual := Metas.Meta_Anual m;
     Runner.Meta_Parcial := Metas.Meta_Parcial m;
     Runner.Meta_Ejecutado := Metas.Meta_Ejecutado m;
     Runner.Meta_Observacion := Metas.Meta_Observacion m |}.

End RunnerGoals.

Definition recursos_row_ok (r : Recursos.row) : Prop :=
  (Recursos.Rec_Tipo r = "Presupuestario" \/
   Recursos.Rec_Tipo r = "Extrapresupuestario") /\
  Recursos.Rec_Categoria r = Recursos.Rec_Nombre r /\
  _is_total_row (Recursos.Rec_Nombre r) = false /\
  (exists q, Recursos.Rec_Percibido r = Some (PFin q)) /\
  ((exists v d, Recursos.Rec_Vigente r = Some (PFin v) /\
                Recursos.Rec_Devengado r = Some (PFin d)) \/
   (Recursos.Rec_Vigente r = None /\ Recursos.Rec_Devengado r = None /\
    Recursos.Rec_Tipo r = "Extrapresupuestario")).

Definition recursos_inv (w0 : list string) (st : Recursos.state) : Prop :=
  (Recursos.tipo_actual st = None \/
   Recursos.tipo_actual st = Some "Presupuestario" \/
   Recursos.tipo_actual st = Some "Extrapresupuestario") /\
  Forall recursos_row_ok (Recursos.rows st) /\
  exists extra, Recursos.warnings st = w0 ++ extra.

Definition gastos_row_ok (r : Gastos.row) : Prop :=
  (Gastos.Gasto_Categoria r = "Presupuestarios" \/
   Gastos.Gasto_Categoria r = "Extrapresupuestarios") /\
  _is_total_row (Gastos.Gasto_Objeto r) = false /\
  exists v p c d g,
    Gastos.Gasto_Vigente r = PFin v /\ Gastos.Gasto_Preventivo r = PFin p /\
    Gastos.Gasto_Compromiso r = PFin c /\ Gastos.Gasto_Devengado r = PFin d /\
    Gastos.Gasto_Pagado r = PFin g.

Definition gastos_inv (w0 : list string) (st : Gastos.state) : Prop :=
  (Gastos.tipo_actual st = None \/
   Gastos.tipo_actual st = Some "Presupuestarios" \/
   Gastos.tipo_actual st = Some "Extrapresupuestarios") /\
  Forall gastos_row_ok (Gastos.rows st) /\
  exists extra, Gastos.warnings st = w0 ++ extra.

Definition prog_ok (p : Programas.prog) : Prop :=
  _is_total_row (Programas.Prog_Nombre p) = false /\
  (exists v q c d g,
     Programas.Prog_Vigente p = PFin v /\ Programas.Prog_Preventivo p = PFin q /\
     Programas.Prog_Compromiso p = PFin c /\ Programas.Prog_Devengado p = PFin d /\
     Programas.Prog_Pagado p = PFin g) /\
  ((exists jc pc,
      Programas.P_Juri_Codigo p = Some jc /\ Programas.Prog_Codigo p = Some pc /\
      Programas.P_Juri_Nombre p = None /\
      sall is_digit jc = true /\ 4 <= String.length jc /\
      sall is_digit pc = true /\ 1 <= String.length pc <= 3) \/
   (Programas.P_Juri_Codigo p = None /\ Programas.Prog_Codigo p = None /\
    Programas.P_Juri_Nombre p = Some (Programas.Prog_Nombre p))).

(** The jurisdiction of a program is listed. *)
Definition juri_listed (js : list Programas.juri) (p : Programas.prog) : Prop :=
  exists j, In j js /\
    Programas.Juri_Codigo j = Programas.P_Juri_Codigo p /\
    (Programas.P_Juri_Codigo p = None ->
     Programas.Juri_Nombre j = Programas.P_Juri_Nombre p).

Definition programas_inv (w0 : list string) (st : Programas.state) : Prop :=
  Forall prog_ok (Programas.programas st) /\
  Forall (juri_listed (Programas.jurisdicciones st)) (Programas.programas st) /\
  exists extra, Programas.warnings st = w0 ++ extra.

Definition cuenta_ok (r : Cuentas.row) : Prop :=
  (exists q, Cuentas.Cuenta_Importe r = PFin q) /\
  nonempty (Cuentas.Cuenta_Nombre r) = true /\
  Cuentas.Cuenta_Tipo r = Cuentas._tipo_from_nombre (Cuentas.Cuenta_Nombre r) /\
  match Cuentas.Cuenta_Codigo r with
  | Some c => sall is_digit c = true /\ 6 <= String.length c <= 12
  | None => True
  end.

Definition sitpat_keyed (found : SitPat.state) : Prop :=
  forall k r, found !! k = Some r ->
    SitPat.SitPat_Codigo r = k /\
    In (k, SitPat.SitPat_Nombre r) SitPat._CODE_NAME_MAP /\
    (exists q, SitPat.SitPat_Saldo r = PFin q) /\
    SitPat.SitPat_Tipo r
    = SitPat._tipo_from_name (SitPat.SitPat_Nombre r) (Some (SitPat.SitPat_Saldo r)).

Definition sitpat_pair (r : SitPat.row) : string * string :=
  (SitPat.SitPat_Codigo r, SitPat.SitPat_Nombre r).

Definition mov_keyed (found : Movimientos.state) : Prop :=
  forall k r, found !! k = Some r ->
    Movimientos.MovTes_TipoResumido r = k /\
    exists q, Movimientos.MovTes_Importe r = PFin q.

Definition is_fin (x : pyfloat) : Prop := exists q, x = PFin q.

Definition meta_head_ok (r : Metas.row) : Prop :=
  (sall is_digit (Metas.Juri_Codigo r) = true /\
   String.length (Metas.Juri_Codigo r) = 10) /\
  (sall is_digit (Metas.Prog_Codigo r) = true /\
   1 <= String.length (Metas.Prog_Codigo r)) /\
  Metas.Meta_Observacion r = None.

Definition meta_row_ok (r : Metas.row) : Prop :=
  meta_head_ok r /\
  (exists a, Metas.Meta_Anual r = Some (PFin a)) /\
  (exists p, Metas.Meta_Parcial r = Some (PFin p)) /\
  (exists e, Metas.Meta_Ejecutado r = Some (PFin e)).

Definition metas_inv (st : Metas.state) : Prop :=
  Forall meta_row_ok (Metas.rows st) /\
  (forall j, Metas.current_juri st = Some j ->
     sall is_digit j = true /\ String.length j = 10) /\
  (forall c, Metas.current_prog_code st = Some c ->
     sall is_digit c = true /\ 1 <= String.length c) /\
  (forall p, Metas.pending_meta st = Some p -> meta_head_ok p).

Definition is_word_str (w : string) : Prop :=
  nonempty w = true /\ sall not_space w = true.

(** The keys under which [_build_program_mapping] files a fetched program:
    its stripped code, and that code behind the code of its jurisdiction. *)
Definition filed_under (by_id : gmap string string)
    (p : SingleShotProgs.prog_db_row) (k : string) : Prop :=
  let prog_codigo := strip (default EmptyString (SingleShotProgs.Prog_Codigo p)) in
  let juri_codigo := SingleShotProgs.juri_code_of by_id (SingleShotProgs.ID_Jurisdiccion p) in
  truthy (SingleShotProgs.ID_Programa p) = true /\
  nonempty prog_codigo = true /\
  (k = prog_codigo \/
   (nonempty juri_codigo = true /\ k = juri_codigo +:+ "::" +:+ prog_codigo)).

Definition ingest_program_07 : Ingest.program_row :=
  {| Ingest.ID_Programa := Some "p-7"; Ingest.Prog_Codigo := Some " 07";
     Ingest.Juri_Codigo := Some "1110101000"; Ingest.Prog_Nombre := Some "Salud" |}.

Definition ingest_goal_07 : Ingest.meta :=
  {| Ingest.prog_codigo := Some "07 "; Ingest.juri_codigo := Some "1110199000";
     Ingest.prog_nombre := None; Ingest.meta_codigo := None;
     Ingest.meta_nombre := Some "Consultas"; Ingest.unidad_medida := None;
     Ingest.valores := None; Ingest.id_programa := None |}.

(** A fetched program is filed under the code of its jurisdiction. *)
Definition runner_filed (juri_items : list (string * option string))
    (p : RunnerGoals.prog_db_row) (jc : string) : Prop :=
  RunnerGoals.juri_code_of juri_items (RunnerGoals.ID_Jurisdiccion p) = Some jc /\
  nonempty jc = true.

(** * Properties *)

(** ** Strings *)

Lemma str_app_cons c (s t : string) : String c s +:+ t = String c (s +:+ t).
Proof. reflexivity. Qed.

Lemma str_app_nil_l (t : string) : EmptyString +:+ t = t.
Proof. reflexivity. Qed.

Lemma str_app_nil_r (s : string) : s +:+ EmptyString = s.
Proof.
  induction s as [|c s IH]; [reflexivity|]. rewrite str_app_cons. congruence.
Qed.

Lemma str_app_assoc (s t u : string) : (s +:+ t) +:+ u = s +:+ (t +:+ u).
Proof.
  induction s as [|c s IH]; [reflexivity|]. rewrite !str_app_cons. congruence.
Qed.

Lemma str_length_app (s t : string) :
  String.length (s +:+ t) = String.length s + String.length t.
Proof.
  induction s as [|c s IH]; [reflexivity|]. rewrite str_app_cons. simpl. congruence.
Qed.

Lemma str_take_app (s t : string) : take (String.length s) (s +:+ t) = s.
Proof.
  induction s as [|c s IH]; [now destruct t|]. rewrite str_app_cons. simpl. congruence.
Qed.

Lemma consumed_app (s t : string) : consumed (s +:+ t) t = s.
Proof.
  unfold consumed. rewrite str_length_app.
  replace (String.length s + String.length t - String.length t)
    with (String.length s) by lia.
  apply str_take_app.
Qed.

(** ** The matcher only returns strings of the pattern's language *)

Section RepLoopSound.
Context {R : Type}.
Variable a : re.
Variable body : pos -> caps -> (pos -> caps -> option R) -> option R.
Variable lo : nat.
Variable hi : option nat.
Variable k : pos -> caps -> option R.
Hypothesis body_sound : forall p cs k' x,
  body p cs k' = Some x ->
  exists s p' cs', rest p = s +:+ rest p' /\ lang a s /\ k' p' cs' = Some x.

Lemma rep_loop_sound fuel : forall n p cs x,
  rep_loop body lo hi k fuel n p cs = Some x ->
  (forall h, hi = Some h -> n <= h) ->
  exists m s p' cs',
    rest p = s +:+ rest p' /\ reps a m s /\ lo <= n + m /\
    (forall h, hi = Some h -> n + m <= h) /\ k p' cs' = Some x.
Proof.
  assert (Hstop : forall n p cs x,
    (if Nat.leb lo n then k p cs else None) = Some x ->
    (forall h, hi = Some h -> n <= h) ->
    exists m s p' cs',
      rest p = s +:+ rest p' /\ reps a m s /\ lo <= n + m /\
      (forall h, hi = Some h -> n + m <= h) /\ k p' cs' = Some x).
  { intros n p cs x H Hn. destruct (Nat.leb lo n) eqn:E; [|discriminate].
    apply Nat.leb_le in E.
    exists 0, EmptyString, p, cs. repeat split; try constructor; try lia; auto.
    intros h Hh. specialize (Hn h Hh). lia. }
  induction fuel as [|fuel IH]; intros n p cs x H Hn; simpl in H.
  - eapply Hstop; eassumption.
  - destruct (within hi n) eqn:W; [|eapply Hstop; eassumption].
    destruct (body p cs _) as [y|] eqn:B; [|eapply Hstop; eassumption].
    injection H as ->.
    apply body_sound in B. destruct B as (s & p1 & cs1 & Hs & La & Hk).
    cbv beta in Hk.
    destruct (Nat.ltb _ _); [|discriminate].
    apply IH in Hk.
    + destruct Hk as (m & t & p' & cs' & Ht & Hr & Hlo & Hhi & Hk).
      exists (S m), (s +:+ t), p', cs'. repeat split.
      * rewrite Hs, Ht. now rewrite str_app_assoc.
      * now constructor.
      * lia.
      * intros h Hh. specialize (Hhi h Hh). lia.
      * exact Hk.
    + intros h Hh. unfold within in W. rewrite Hh in W.
      apply Nat.ltb_lt in W. lia.
Qed.
End RepLoopSound.

Lemma exec_sound {R} (r : re) : forall p cs (k : pos -> caps -> option R) x,
  exec r p cs k = Some x ->
  exists s p' cs', rest p = s +:+ rest p' /\ lang r s /\ k p' cs' = Some x.
Proof.
  induction r as [|f|a IHa b IHb|a IHa b IHb|lo hi a IHa|i a IHa| | |];
    intros p cs k x H; cbn [exec] in H.
  - exists EmptyString, p, cs. repeat split; [constructor | exact H].
  - destruct (rest p) as [|c s] eqn:E; [discriminate|].
    destruct (f c) eqn:F; [|discriminate].
    exists (String c EmptyString), {| prev := Some c; rest := s |}, cs.
    repeat split; [now constructor | exact H].
  - apply IHa in H. destruct H as (s & p1 & cs1 & Hs & La & H).
    apply IHb in H. destruct H as (t & p2 & cs2 & Ht & Lb & H).
    exists (s +:+ t), p2, cs2. repeat split; [|now constructor|exact H].
    rewrite Hs, Ht. now rewrite str_app_assoc.
  - destruct (exec a p cs k) as [y|] eqn:E.
    + injection H as ->. apply IHa in E.
      destruct E as (s & p1 & cs1 & Hs & La & H).
      exists s, p1, cs1. repeat split; [exact Hs|now apply L_alt_l|exact H].
    + apply IHb in H. destruct H as (s & p1 & cs1 & Hs & La & H).
      exists s, p1, cs1. repeat split; [exact Hs|now apply L_alt_r|exact H].
  - apply (rep_loop_sound a) in H; [|exact IHa|intros; lia].
    destruct H as (m & s & p' & cs' & Hs & Hr & Hlo & Hhi & H).
    exists s, p', cs'. repeat split; [exact Hs| |exact H].
    apply L_rep with (n := m); [exact Hr|lia|exact Hhi].
  - apply IHa in H. destruct H as (s & p1 & cs1 & Hs & La & H).
    cbv beta in H.
    exists s, p1, ((i, consumed (rest p) (rest p1)) :: cs1).
    repeat split; [exact Hs|now constructor|exact H].
  - destruct (prev p); [discriminate|].
    exists EmptyString, p, cs. repeat split; [constructor | exact H].
  - destruct (at_end p); [|discriminate].
    exists EmptyString, p, cs. repeat split; [constructor | exact H].
  - destruct (at_boundary p); [|discriminate].
    exists EmptyString, p, cs. repeat split; [constructor | exact H].
Qed.

Lemma match_at_sound r pv s i m :
  match_at r pv s i = Some m ->
  lang r (m_text m) /\ s = m_text m +:+ m_after m.
Proof.
  unfold match_at. intros H.
  destruct (exec r _ [] accept) as [[p' cs]|] eqn:E; [|discriminate].
  injection H as <-. simpl.
  apply exec_sound in E. destruct E as (t & p1 & cs1 & Ht & L & A).
  unfold accept in A. injection A as -> ->. simpl in Ht. subst s.
  now rewrite consumed_app.
Qed.

Lemma findall_at_sound r s : forall pv skip t,
  In t (findall_at r pv s skip) -> lang r t.
Proof.
  induction s as [|c s IH]; intros pv skip t H.
  - destruct skip; simpl in H; [|contradiction].
    destruct (match_at r pv EmptyString 0) as [m|] eqn:E; simpl in H.
    + destruct H as [<-|[]]. now apply match_at_sound in E.
    + contradiction.
  - destruct skip; simpl in H.
    + destruct (match_at r pv (String c s) 0) as [m|] eqn:E.
      * destruct H as [<-|H]; [now apply match_at_sound in E | eauto].
      * eauto.
    + eauto.
Qed.

Lemma re_findall_sound r s t : In t (re_findall r s) -> lang r t.
Proof. apply findall_at_sound. Qed.

(** ** Characters and classes *)

Ltac char_cases c :=
  destruct c as [[] [] [] [] [] [] [] []]; vm_compute; try reflexivity;
  try discriminate; try tauto.

Lemma sall_app p (s t : string) : sall p (s +:+ t) = sall p s && sall p t.
Proof.
  induction s as [|c s IH]; [reflexivity|]. rewrite str_app_cons. simpl.
  rewrite IH. now rewrite andb_assoc.
Qed.

Lemma sall_impl (p q : ascii -> bool) (s : string) :
  (forall c, p c = true -> q c = true) -> sall p s = true -> sall q s = true.
Proof.
  intros Hpq. induction s as [|c s IH]; simpl; [easy|].
  intros H. apply andb_true_iff in H as [Hc Hs].
  now rewrite (Hpq c Hc), IH.
Qed.

Lemma lstrip_by_id p c (s : string) :
  p c = false -> lstrip_by p (String c s) = String c s.
Proof. intros H. simpl. now rewrite H. Qed.

Lemma rstrip_by_id p (s : string) :
  sall (fun c => negb (p c)) s = true -> rstrip_by p s = s.
Proof.
  induction s as [|c s IH]; simpl; [easy|].
  intros H. apply andb_true_iff in H as [Hc Hs]. rewrite (IH Hs).
  apply negb_true_iff in Hc. rewrite Hc. now destruct s.
Qed.

Lemma strip_id (s : string) : sall not_space s = true -> strip s = s.
Proof.
  intros H. unfold strip.
  destruct s as [|c s]; [reflexivity|].
  assert (Hc : is_space c = false).
  { simpl in H. apply andb_true_iff in H as [Hc _]. now apply negb_true_iff in Hc. }
  rewrite lstrip_by_id by exact Hc. now apply rstrip_by_id.
Qed.

Lemma replace_char_app c b (s t : string) :
  replace_char c b (s +:+ t) = replace_char c b s +:+ replace_char c b t.
Proof.
  induction s as [|d s IH]; [reflexivity|]. rewrite str_app_cons. simpl.
  destruct (Ascii.eqb d c); rewrite IH; [now rewrite str_app_assoc | now rewrite str_app_cons].
Qed.

Lemma replace_char_id c b (s : string) :
  sall (fun d => negb (Ascii.eqb d c)) s = true -> replace_char c b s = s.
Proof.
  induction s as [|d s IH]; simpl; [easy|].
  intros H. apply andb_true_iff in H as [Hd Hs].
  apply negb_true_iff in Hd. now rewrite Hd, IH.
Qed.

Lemma replace_dot_digits (g : string) :
  sall digit_or_dot g = true -> sall is_digit (replace_char "." EmptyString g) = true.
Proof.
  induction g as [|d g IH]; simpl; [easy|].
  intros H. apply andb_true_iff in H as [Hd Hg].
  destruct (Ascii.eqb d ".") eqn:E.
  - rewrite str_app_nil_l. now apply IH.
  - simpl. unfold digit_or_dot in Hd. rewrite E, orb_false_r in Hd.
    now rewrite Hd, IH.
Qed.

Lemma digit_not_space c : is_digit c = true -> not_space c = true.
Proof. char_cases c. Qed.

Lemma digit_not_dot c : is_digit c = true -> negb (Ascii.eqb c ".") = true.
Proof. char_cases c. Qed.

Lemma digit_not_comma c : is_digit c = true -> negb (Ascii.eqb c ",") = true.
Proof. char_cases c. Qed.

Lemma digit_or_dot_not_space c : digit_or_dot c = true -> not_space c = true.
Proof. char_cases c. Qed.

(** ** [float] accepts a plain decimal numeral *)

Lemma scan_more_digits (D r : string) :
  sall is_digit D = true ->
  match r with
  | EmptyString => True
  | String c _ => is_digit c = false /\ Ascii.eqb c "_" = false
  end ->
  scan_more (D +:+ r) = (D, r).
Proof.
  intros HD Hr. induction D as [|d D IH].
  - rewrite str_app_nil_l. destruct r as [|c r]; [reflexivity|].
    destruct Hr as [H1 H2]. simpl. now rewrite H1, H2.
  - simpl in HD. apply andb_true_iff in HD as [Hd HD].
    rewrite str_app_cons. simpl. rewrite Hd, (IH HD). reflexivity.
Qed.

Lemma scan_digitpart_digits (d : ascii) (D r : string) :
  sall is_digit (String d D) = true ->
  match r with
  | EmptyString => True
  | String c _ => is_digit c = false /\ Ascii.eqb c "_" = false
  end ->
  scan_digitpart (String d D +:+ r) = (String d D, r).
Proof.
  intros HD Hr. simpl in HD. apply andb_true_iff in HD as [Hd HD].
  rewrite str_app_cons. unfold scan_digitpart. rewrite Hd.
  now rewrite (scan_more_digits D r HD Hr).
Qed.

Lemma scan_sign_digit (d : ascii) (r : string) :
  is_digit d = true -> scan_sign (String d r) = (false, String d r).
Proof. char_cases d. Qed.

Lemma not_special_digit (d : ascii) (r : string) :
  is_digit d = true ->
  String.eqb (lower (String d r)) "inf" || String.eqb (lower (String d r)) "infinity"
  = false /\ String.eqb (lower (String d r)) "nan" = false.
Proof.
  intros H. unfold lower. simpl.
  assert (H1 : Ascii.eqb (to_lower d) "i" = false) by (revert H; char_cases d).
  assert (H2 : Ascii.eqb (to_lower d) "n" = false) by (revert H; char_cases d).
  now rewrite H1, H2.
Qed.

(** A sign-free plain numeral: digits, a point, digits. *)
Lemma float_body_plain (neg : bool) (d f : ascii) (D F : string) :
  sall is_digit (String d D) = true -> sall is_digit (String f F) = true ->
  exists q,
    float_body neg (String d D +:+ String "." (String f F)) = Some (PFin q).
Proof.
  intros HD HF. unfold float_body. cbv zeta.
  assert (Hd : is_digit d = true) by (simpl in HD; now apply andb_true_iff in HD).
  rewrite str_app_cons.
  destruct (not_special_digit d (D +:+ String "." (String f F)) Hd) as [E1 E2].
  rewrite E1, E2. rewrite <- str_app_cons.
  rewrite (scan_digitpart_digits d D _ HD) by (split; reflexivity).
  pose proof (scan_digitpart_digits f F EmptyString HF I) as HFs.
  rewrite str_app_nil_r in HFs. rewrite HFs.
  cbn [nonempty negb andb]. eexists. reflexivity.
Qed.

(** A sign-free whole numeral: digits only. *)
Lemma float_body_whole (neg : bool) (d : ascii) (D : string) :
  sall is_digit (String d D) = true ->
  exists q, float_body neg (String d D) = Some (PFin q).
Proof.
  intros HD. unfold float_body. cbv zeta.
  assert (Hd : is_digit d = true) by (simpl in HD; now apply andb_true_iff in HD).
  destruct (not_special_digit d D Hd) as [E1 E2].
  rewrite E1, E2.
  pose proof (scan_digitpart_digits d D EmptyString HD I) as Hs.
  rewrite str_app_nil_r in Hs. rewrite Hs.
  cbn [nonempty negb andb]. eexists. reflexivity.
Qed.

Lemma py_float_plain (sg : string) (d f : ascii) (D F : string) :
  sg = EmptyString \/ sg = "-" ->
  sall is_digit (String d D) = true -> sall is_digit (String f F) = true ->
  exists q, py_float (sg +:+ String d D +:+ String "." (String f F)) = Some (PFin q).
Proof.
  intros Hsg HD HF.
  assert (Hns : sall not_space (String d D +:+ String "." (String f F)) = true).
  { rewrite sall_app. apply andb_true_iff. split.
    - apply (sall_impl is_digit); [apply digit_not_space | exact HD].
    - change (sall not_space (String "." (String f F)))
        with (sall not_space (String f F)).
      apply (sall_impl is_digit); [apply digit_not_space | exact HF]. }
  assert (Hd : is_digit d = true) by (simpl in HD; now apply andb_true_iff in HD).
  unfold py_float. destruct Hsg as [-> | ->].
  - rewrite str_app_nil_l, (strip_id _ Hns).
    rewrite str_app_cons, (scan_sign_digit d _ Hd), <- str_app_cons.
    apply (float_body_plain false d f D F HD HF).
  - rewrite strip_id by (rewrite str_app_cons; simpl; exact Hns).
    change (scan_sign ("-" +:+ String d D +:+ String "." (String f F)))
      with (true, String d D +:+ String "." (String f F)).
    apply (float_body_plain true d f D F HD HF).
Qed.

(** ** The shape of an amount token *)

Lemma lang_cls_inv f (s : string) :
  lang (Cls f) s -> exists c, s = String c EmptyString /\ f c = true.
Proof. intros H. inversion H; subst. eauto. Qed.

Lemma lang_cat_inv a b (s : string) :
  lang (Cat a b) s -> exists s1 s2, s = s1 +:+ s2 /\ lang a s1 /\ lang b s2.
Proof. intros H. inversion H; subst. eauto. Qed.

Lemma lang_alt_inv a b (s : string) : lang (Alt a b) s -> lang a s \/ lang b s.
Proof. intros H. inversion H; subst; auto. Qed.

Lemma lang_rep_inv lo hi a (s : string) :
  lang (Rep lo hi a) s ->
  exists n, reps a n s /\ lo <= n /\ (forall h, hi = Some h -> n <= h).
Proof. intros H. inversion H; subst. eauto. Qed.

Lemma reps_0_inv a (s : string) : reps a 0 s -> s = EmptyString.
Proof. intros H. now inversion H. Qed.

Lemma reps_S_inv a n (s : string) :
  reps a (S n) s -> exists s1 s2, s = s1 +:+ s2 /\ lang a s1 /\ reps a n s2.
Proof. intros H. inversion H; subst. eauto. Qed.

Lemma reps_cls f n (s : string) :
  reps (Cls f) n s -> sall f s = true /\ String.length s = n.
Proof.
  revert s. induction n as [|n IH]; intros s H.
  - apply reps_0_inv in H as ->. now split.
  - apply reps_S_inv in H as (s1 & s2 & -> & H1 & H2).
    apply lang_cls_inv in H1 as (c & -> & Hc).
    apply IH in H2 as [H2 H3]. rewrite str_app_cons, str_app_nil_l. simpl.
    now rewrite Hc, H2, H3.
Qed.

Lemma lang_rep_cls lo hi f (s : string) :
  lang (Rep lo hi (Cls f)) s -> sall f s = true /\ lo <= String.length s.
Proof.
  intros H. apply lang_rep_inv in H as (n & H & Hlo & _).
  apply reps_cls in H as [H2 H3]. split; [exact H2 | lia].
Qed.

Lemma lang_opt_chr c (s : string) :
  lang (opt (chr c)) s -> s = EmptyString \/ s = String c EmptyString.
Proof.
  intros H. apply lang_rep_inv in H as (n & H & _ & Hhi).
  assert (Hn : n <= 1) by (apply Hhi; reflexivity).
  destruct n as [|[|n]]; [| |lia].
  - apply reps_0_inv in H. now left.
  - apply reps_S_inv in H as (s1 & s2 & -> & H1 & H2).
    apply reps_0_inv in H2 as ->.
    apply lang_cls_inv in H1 as (d & -> & Hd).
    apply Ascii.eqb_eq in Hd. subst d. now right.
Qed.

Lemma reps_dot_group n (s : string) :
  reps (Cat (chr ".") (times 3 digit)) n s -> sall digit_or_dot s = true.
Proof.
  revert s. induction n as [|n IH]; intros s H.
  - now apply reps_0_inv in H as ->.
  - apply reps_S_inv in H as (s1 & s2 & -> & H1 & H2).
    rewrite sall_app, (IH _ H2), andb_true_r.
    apply lang_cat_inv in H1 as (u & v & -> & Hu & Hv).
    apply lang_cls_inv in Hu as (c & -> & Hc).
    apply lang_rep_cls in Hv as [Hv _].
    apply Ascii.eqb_eq in Hc. subst c.
    rewrite str_app_cons, str_app_nil_l.
    change (sall digit_or_dot (String "." v)) with (sall digit_or_dot v).
    apply (sall_impl is_digit); [|exact Hv].
    intros d Hd. unfold digit_or_dot. now rewrite Hd.
Qed.

Lemma nonempty_of_length (s : string) :
  1 <= String.length s -> exists c r, s = String c r.
Proof. destruct s as [|c r]; simpl; [lia | eauto]. Qed.

(** A string of the language of [_AMOUNT_RE] is an optional minus sign, a
    non-empty run of digits, groups of digits led by a point, a comma and a
    non-empty run of digits. *)
Lemma amount_shape (t : string) :
  lang AMOUNT_RE t ->
  exists sg d g f,
    t = sg +:+ d +:+ g +:+ String "," f /\
    (sg = EmptyString \/ sg = "-") /\
    sall is_digit d = true /\ 1 <= String.length d /\
    sall digit_or_dot g = true /\
    sall is_digit f = true /\ 1 <= String.length f.
Proof.
  unfold AMOUNT_RE, cat_all. intros H.
  apply lang_cat_inv in H as (sg & t1 & -> & Hsg & H).
  apply lang_cat_inv in H as (d & t2 & -> & Hd & H).
  apply lang_cat_inv in H as (g & t3 & -> & Hg & H).
  apply lang_cat_inv in H as (cm & f & -> & Hcm & Hf).
  apply lang_opt_chr in Hsg.
  apply lang_rep_cls in Hd as [Hd1 Hd2].
  apply lang_rep_inv in Hg as (n & Hg & _). apply reps_dot_group in Hg.
  apply lang_cls_inv in Hcm as (c & -> & Hc). apply Ascii.eqb_eq in Hc. subst c.
  apply lang_rep_cls in Hf as [Hf1 Hf2].
  exists sg, d, g, f. repeat split; try assumption; lia.
Qed.

Lemma amount_cleaned (sg d g f : string) :
  (sg = EmptyString \/ sg = "-") ->
  sall is_digit d = true -> sall digit_or_dot g = true -> sall is_digit f = true ->
  replace_char "," "." (replace_char "." EmptyString (sg +:+ d +:+ g +:+ String "," f))
  = sg +:+ (d +:+ replace_char "." EmptyString g) +:+ String "." f.
Proof.
  intros Hsg Hd Hg Hf.
  assert (Hg' := replace_dot_digits g Hg).
  rewrite !replace_char_app.
  assert (E1 : replace_char "." EmptyString sg = sg) by (destruct Hsg; now subst).
  assert (E2 : replace_char "," "." sg = sg) by (destruct Hsg; now subst).
  rewrite E1, E2.
  rewrite (replace_char_id "." _ d)
    by (apply (sall_impl is_digit); [apply digit_not_dot | exact Hd]).
  rewrite (replace_char_id "," _ d)
    by (apply (sall_impl is_digit); [apply digit_not_comma | exact Hd]).
  rewrite (replace_char_id "," _ (replace_char "." EmptyString g))
    by (apply (sall_impl is_digit); [apply digit_not_comma | exact Hg']).
  change (replace_char "." EmptyString (String "," f))
    with (String "," (replace_char "." EmptyString f)).
  rewrite (replace_char_id "." _ f)
    by (apply (sall_impl is_digit); [apply digit_not_dot | exact Hf]).
  change (replace_char "," "." (String "," f))
    with ("." +:+ replace_char "," "." f).
  rewrite (replace_char_id "," _ f)
    by (apply (sall_impl is_digit); [apply digit_not_comma | exact Hf]).
  now rewrite str_app_assoc.
Qed.

Lemma parse_amount_ar_token (t : string) :
  lang AMOUNT_RE t -> exists q, parse_amount_ar t = Ok (PFin q).
Proof.
  intros H. apply amount_shape in H.
  destruct H as (sg & d & g & f & -> & Hsg & Hd & Hdn & Hg & Hf & Hfn).
  assert (Hns : sall not_space (sg +:+ d +:+ g +:+ String "," f) = true).
  { assert (N1 : sall not_space sg = true) by (destruct Hsg; now subst).
    assert (N2 : sall not_space d = true)
      by (apply (sall_impl is_digit); [apply digit_not_space | exact Hd]).
    assert (N3 : sall not_space g = true)
      by (apply (sall_impl digit_or_dot); [apply digit_or_dot_not_space | exact Hg]).
    assert (N4 : sall not_space (String "," f) = true).
    { change (sall not_space (String "," f)) with (sall not_space f).
      apply (sall_impl is_digit); [apply digit_not_space | exact Hf]. }
    now rewrite !sall_app, N1, N2, N3, N4. }
  unfold parse_amount_ar. rewrite (strip_id _ Hns).
  apply nonempty_of_length in Hdn as (d0 & D & ->).
  apply nonempty_of_length in Hfn as (f0 & F & ->).
  assert (Hne : nonempty (sg +:+ String d0 D +:+ g +:+ String "," (String f0 F)) = true)
    by (destruct Hsg; now subst).
  rewrite Hne. cbn [negb].
  rewrite (amount_cleaned sg _ g _ Hsg Hd Hg Hf).
  rewrite str_app_cons.
  destruct (py_float_plain sg d0 f0 (D +:+ replace_char "." EmptyString g) F Hsg)
    as [q Hq].
  - simpl. simpl in Hd. apply andb_true_iff in Hd as [Hd0 HD].
    rewrite Hd0, sall_app, HD. simpl. now apply replace_dot_digits.
  - exact Hf.
  - exists q. now rewrite Hq.
Qed.

Lemma matches_whole_sound r (s : string) : matches_whole r s = true -> lang r s.
Proof.
  unfold matches_whole, re_match. intros H.
  destruct (match_at r None s 0) as [m|] eqn:E; [|discriminate].
  apply match_at_sound in E as [L ->].
  destruct (m_after m); [|discriminate]. now rewrite str_app_nil_r.
Qed.

Lemma py_index_ok {A} (P : A -> Prop) (l : list A) (i : Z) :
  Forall P l -> (- Z.of_nat (length l) <= i < Z.of_nat (length l))%Z ->
  exists x, py_index l i = Ok x /\ P x.
Proof.
  intros HP Hi. unfold py_index.
  set (n := Z.of_nat (length l)) in *.
  set (j := if (i <? 0)%Z then (n + i)%Z else i).
  assert (Hj : (0 <= j < n)%Z) by (subst j; destruct (Z.ltb_spec i 0); lia).
  destruct (Z.ltb_spec j 0), (Z.leb_spec n j); try lia. simpl.
  destruct (l !! Z.to_nat j) as [x|] eqn:E.
  - exists x. split; [reflexivity|].
    rewrite Forall_forall in HP. apply HP.
    eapply list_elem_of_lookup_2. exact E.
  - apply lookup_ge_None in E. subst n. lia.
Qed.

Lemma find_amounts_parse (line : string) :
  Forall (fun t => exists q, parse_amount_ar t = Ok (PFin q)) (re_findall AMOUNT_RE line).
Proof.
  apply Forall_forall. intros t Ht. apply list_elem_of_In in Ht.
  apply parse_amount_ar_token. eapply re_findall_sound. exact Ht.
Qed.

Lemma amount_at_ok (line : string) (i : Z) :
  let amounts := re_findall AMOUNT_RE line in
  (- Z.of_nat (length amounts) <= i < Z.of_nat (length amounts))%Z ->
  exists q, amount_at amounts i = Ok (PFin q).
Proof.
  intros amounts Hi.
  destruct (py_index_ok _ amounts i (find_amounts_parse line) Hi) as (t & Ht & q & Hq).
  exists q. unfold amount_at. now rewrite Ht.
Qed.



(** ** What [float] rejects *)

Lemma sany_app p (s t : string) : sany p (s +:+ t) = sany p s || sany p t.
Proof.
  induction s as [|c s IH]; [reflexivity|]. rewrite str_app_cons. simpl.
  rewrite IH. now rewrite orb_assoc.
Qed.

Lemma sany_lstrip_by p q (s : string) :
  sany p (lstrip_by q s) = true -> sany p s = true.
Proof.
  induction s as [|c s IH]; simpl; [easy|].
  destruct (q c); [|easy]. intros H. rewrite (IH H). apply orb_true_r.
Qed.

Lemma sany_rstrip_by p q (s : string) :
  sany p (rstrip_by q s) = true -> sany p s = true.
Proof.
  induction s as [|c s IH]; simpl; [easy|].
  destruct (rstrip_by q s) as [|d r] eqn:E.
  - destruct (q c); simpl; [discriminate|]. rewrite orb_false_r.
    intros ->. reflexivity.
  - intros H. change (sany p (String c (String d r)))
      with (p c || sany p (String d r)) in H.
    apply orb_true_iff in H as [H|H]; [now rewrite H|].
    rewrite (IH H). apply orb_true_r.
Qed.

Lemma sany_strip p (s : string) : sany p (strip s) = true -> sany p s = true.
Proof. intros H. now apply sany_rstrip_by, sany_lstrip_by in H. Qed.

Lemma sany_strip_chars p chars (s : string) :
  sany p (strip_chars chars s) = true -> sany p s = true.
Proof. intros H. now apply sany_rstrip_by, sany_lstrip_by in H. Qed.

Lemma sany_replace_char p c b (s : string) :
  sany p b = false -> sany p (replace_char c b s) = true -> sany p s = true.
Proof.
  intros Hb. induction s as [|d s IH]; simpl; [easy|].
  destruct (Ascii.eqb d c).
  - rewrite sany_app, Hb. simpl. intros H. rewrite (IH H). apply orb_true_r.
  - simpl. intros H. apply orb_true_iff in H as [H|H]; [now rewrite H|].
    rewrite (IH H). apply orb_true_r.
Qed.

Lemma sany_scan_sign p (s : string) :
  sany p (snd (scan_sign s)) = true -> sany p s = true.
Proof.
  destruct s as [|c s]; [easy|].
  assert (H : snd (scan_sign (String c s)) = String c s
              \/ snd (scan_sign (String c s)) = s).
  { unfold scan_sign. destruct c as [[] [] [] [] [] [] [] []]; auto. }
  destruct H as [-> | ->]; [easy|]. simpl. intros ->. apply orb_true_r.
Qed.

Lemma sany_lower_n (b : string) :
  sany (fun c => Ascii.eqb c "n") (lower b) = true -> sany numeric_char b = true.
Proof.
  induction b as [|c b IH]; simpl; [easy|].
  intros H. apply orb_true_iff in H as [H|H].
  - unfold numeric_char. rewrite H. now rewrite orb_true_r.
  - rewrite (IH H). apply orb_true_r.
Qed.

Lemma sany_weaken (p q : ascii -> bool) (s : string) :
  (forall c, p c = true -> q c = true) -> sany p s = true -> sany q s = true.
Proof.
  intros Hpq. induction s as [|c s IH]; simpl; [easy|].
  intros H. apply orb_true_iff in H as [H|H].
  - now rewrite (Hpq c H).
  - rewrite (IH H). apply orb_true_r.
Qed.

(** The text left by a scan is an end of the text scanned. *)
Lemma scan_more_rest p n : forall s : string,
  String.length s <= n ->
  sany p (snd (scan_more s)) = true -> sany p s = true.
Proof.
  induction n as [|n IH]; intros s Hn.
  - destruct s; [easy | simpl in Hn; lia].
  - destruct s as [|c r]; [easy|]. simpl in Hn. simpl.
    destruct (is_digit c).
    + specialize (IH r ltac:(lia)). destruct (scan_more r) as [ds r'].
      simpl in *. intros H. rewrite (IH H). apply orb_true_r.
    + destruct (Ascii.eqb c "_"); [|easy].
      destruct r as [|d r2]; [easy|].
      destruct (is_digit d); [|easy].
      simpl in Hn. specialize (IH r2 ltac:(lia)).
      destruct (scan_more r2) as [ds r']. simpl in *.
      intros H. rewrite (IH H). now rewrite !orb_true_r.
Qed.

Lemma scan_digitpart_rest p (s : string) :
  sany p (snd (scan_digitpart s)) = true -> sany p s = true.
Proof.
  destruct s as [|c r]; [easy|]. unfold scan_digitpart.
  destruct (is_digit c); [|easy].
  pose proof (scan_more_rest p (String.length r) r (le_n _)) as H.
  destruct (scan_more r) as [ds r']. simpl in *.
  intros H'. rewrite (H H'). apply orb_true_r.
Qed.

Lemma scan_digitpart_digit (s : string) :
  nonempty (fst (scan_digitpart s)) = true -> sany is_digit s = true.
Proof.
  destruct s as [|c r]; [easy|]. unfold scan_digitpart.
  destruct (is_digit c) eqn:E; [|easy]. intros _. simpl. now rewrite E.
Qed.

Lemma digit_numeric c : is_digit c = true -> numeric_char c = true.
Proof. intros H. unfold numeric_char. now rewrite H. Qed.

(** A string [float] accepts holds a digit or the letter n. *)
Lemma py_float_numeric (s : string) (x : pyfloat) :
  py_float s = Some x -> sany numeric_char s = true.
Proof.
  unfold py_float. intros H. apply sany_strip.
  pose proof (sany_scan_sign numeric_char (strip s)) as Hsign.
  destruct (scan_sign (strip s)) as [neg body]. simpl in Hsign. apply Hsign.
  clear Hsign. unfold float_body in H.
  destruct (String.eqb (lower body) "inf" || String.eqb (lower body) "infinity") eqn:E1.
  { apply sany_lower_n. apply orb_true_iff in E1 as [E|E];
      apply String.eqb_eq in E; now rewrite E. }
  destruct (String.eqb (lower body) "nan") eqn:E2.
  { apply sany_lower_n. apply String.eqb_eq in E2. now rewrite E2. }
  pose proof (scan_digitpart_digit body) as Hip.
  pose proof (scan_digitpart_rest is_digit body) as Hr1.
  destruct (scan_digitpart body) as [ip r1]. simpl in Hip, Hr1.
  destruct (nonempty ip) eqn:Nip.
  { apply (sany_weaken is_digit); [apply digit_numeric | now apply Hip]. }
  apply (sany_weaken is_digit); [apply digit_numeric|]. apply Hr1.
  assert (Hfp : forall fp r2,
    (match r1 with
     | String "." r => scan_digitpart r
     | _ => (EmptyString, r1)
     end) = (fp, r2) -> nonempty fp = true -> sany is_digit r1 = true).
  { intros fp r2 Hm Hfp. destruct r1 as [|c r]; [now inversion Hm; subst|].
    destruct (Ascii.eqb c ".") eqn:Ec.
    - apply Ascii.eqb_eq in Ec. subst c.
      pose proof (scan_digitpart_digit r) as Hd. rewrite Hm in Hd.
      simpl. now apply Hd.
    - assert (Hm' : (EmptyString, String c r) = (fp, r2)).
      { rewrite <- Hm. revert Ec. clear. char_cases c. }
      inversion Hm'; subst. discriminate. }
  destruct (match r1 with String "." r => scan_digitpart r | _ => (EmptyString, r1) end)
    as [fp r2] eqn:Em.
  destruct (nonempty fp) eqn:Nfp; [now apply (Hfp fp r2)|].
  discriminate.
Qed.

Lemma py_float_garbage (s : string) :
  sany numeric_char s = false -> py_float s = None.
Proof.
  intros H. destruct (py_float s) as [x|] eqn:E; [|reflexivity].
  apply py_float_numeric in E. congruence.
Qed.

Lemma not_true_false (b : bool) : (b = true -> False) -> b = false.
Proof. destruct b; [intros H; now destruct H | reflexivity]. Qed.

Lemma cleaned_garbage (s : string) :
  sany numeric_char s = false ->
  sany numeric_char (replace_char "," "." (replace_char "." EmptyString s)) = false.
Proof.
  intros H. apply not_true_false. intros C.
  apply sany_replace_char in C; [|reflexivity].
  apply sany_replace_char in C; [|reflexivity]. congruence.
Qed.

Lemma normalize_number_garbage (s : string) :
  sany numeric_char s = false -> normalize_number s = None.
Proof.
  intros H. unfold normalize_number.
  destruct (nonempty (strip s)); [|reflexivity]. simpl.
  rewrite py_float_garbage; [reflexivity|].
  apply cleaned_garbage. apply not_true_false. intros C.
  apply sany_strip_chars, sany_strip in C. congruence.
Qed.

Lemma parse_amount_ar_garbage (s : string) :
  sany numeric_char s = false -> exists msg, parse_amount_ar s = Raise (ValueError msg).
Proof.
  intros H. unfold parse_amount_ar.
  destruct (nonempty (strip s)); simpl; [|eauto].
  rewrite py_float_garbage; [eauto|].
  apply cleaned_garbage. apply not_true_false. intros C.
  apply sany_strip in C. congruence.
Qed.




(** ** The section boundary *)

Section ScanBoundary.
Context {S : Type}.
Variable is_start : string -> bool.
Variable end_keywords : list string.
Variable body : string -> string -> S -> exc (flow S).

Local Abbreviation scan := (scan is_start end_keywords body).

Local Ltac step_line l st IH :=
  destruct (is_end end_keywords (normalize_key (normalize_name l)));
  [reflexivity|];
  destruct (body (normalize_name l) (normalize_key (normalize_name l)) st)
    as [[?|?]|?]; simpl; [apply IH | reflexivity..].

(** Inside the section, an end keyword cuts the scan. *)
Lemma scan_cut_inside (mid : list string) (e : string) (post : list string) :
  holds_end_keyword end_keywords e = true ->
  forall st, scan (mid ++ e :: post) true st = scan mid true st.
Proof.
  intros He. apply andb_true_iff in He as [He1 He2].
  induction mid as [|l mid IH]; intros st; simpl.
  - now rewrite He1, He2.
  - destruct (nonempty (normalize_name l)); simpl; [|apply IH].
    step_line l st IH.
Qed.

(** Once a line has opened the section, the lines after the first line
    that holds an end keyword have no effect. *)
Lemma scan_cut (pre : list string) (s : string) (mid : list string)
    (e : string) (post : list string) :
  opens_section is_start s = true ->
  holds_end_keyword end_keywords e = true ->
  forall b st,
    scan (pre ++ s :: mid ++ e :: post) b st = scan (pre ++ s :: mid) b st.
Proof.
  intros Hs He. apply andb_true_iff in Hs as [Hs1 Hs2].
  pose proof (scan_cut_inside mid e post He) as Hmid.
  assert (Hin : forall st,
    scan (s :: mid ++ e :: post) true st = scan (s :: mid) true st).
  { intros st. simpl. rewrite Hs1. simpl. step_line s st Hmid. }
  induction pre as [|l pre IH]; intros b st.
  - destruct b; [apply Hin|].
    simpl. rewrite Hs1. simpl. rewrite Hs2. apply Hmid.
  - simpl. destruct (nonempty (normalize_name l)); simpl; [|apply IH].
    destruct b; simpl; [|apply IH].
    step_line l st IH.
Qed.
End ScanBoundary.




Lemma bind_ok {A B} (a : A) (f : A -> exc B) : (Ok a ≫= f) = f a.
Proof. reflexivity. Qed.

(** ** No parser raises *)

Section ScanTotal.
Context {S : Type}.
Variable is_start : string -> bool.
Variable end_keywords : list string.
Variable body : string -> string -> S -> exc (flow S).
Hypothesis body_total : forall line low st, exists r, body line low st = Ok r.

Lemma scan_total (lines : list string) : forall b st,
  exists st', scan is_start end_keywords body lines b st = Ok st'.
Proof.
  induction lines as [|l lines IH]; intros b st; simpl; [eauto|].
  destruct (nonempty (normalize_name l)); simpl; [|apply IH].
  destruct b; simpl; [|apply IH].
  destruct (is_end end_keywords (normalize_key (normalize_name l))); [eauto|].
  destruct (body_total (normalize_name l) (normalize_key (normalize_name l)) st)
    as [[st'|st'] ->]; simpl; [apply IH | eauto].
Qed.
End ScanTotal.

Lemma py_index_total {A} (l : list A) (i : Z) :
  (- Z.of_nat (length l) <= i < Z.of_nat (length l))%Z ->
  exists x, py_index l i = Ok x.
Proof.
  intros Hi.
  destruct (py_index_ok (fun _ => True) l i) as (x & Hx & _); [|exact Hi|eauto].
  apply Forall_forall. auto.
Qed.

Ltac solve_range :=
  repeat match goal with
         | H : _ && _ = true |- _ => apply andb_true_iff in H as [? ?]
         end;
  repeat match goal with
         | H : Nat.leb _ _ = true |- _ => apply Nat.leb_le in H
         | H : Nat.leb _ _ = false |- _ => apply Nat.leb_gt in H
         | H : Nat.ltb _ _ = true |- _ => apply Nat.ltb_lt in H
         | H : Nat.ltb _ _ = false |- _ => apply Nat.ltb_ge in H
         | H : Nat.eqb _ _ = true |- _ => apply Nat.eqb_eq in H
         | H : Nat.eqb _ _ = false |- _ => apply Nat.eqb_neq in H
         end; lia.

(** One step through a parser body: a branch is chosen, or an amount or an
    element is read at an index the guards passed so far put in range. *)
Ltac total_step :=
  cbv beta iota zeta;
  lazymatch goal with
  | |- exists r, mret _ = Ok r => eexists; reflexivity
  | |- exists r, Ok _ = Ok r => eexists; reflexivity
  | |- exists r, (Ok _ ≫= _) = Ok r => rewrite bind_ok
  | |- exists r, (amount_at (re_findall AMOUNT_RE ?l) ?i ≫= _) = Ok r =>
      let q := fresh "q" in
      let E := fresh "E" in
      destruct (amount_at_ok l i) as [q E]; [solve_range | rewrite E, bind_ok]
  | |- exists r, (py_index ?l ?i ≫= _) = Ok r =>
      let x := fresh "x" in
      let E := fresh "E" in
      destruct (py_index_total l i) as [x E]; [solve_range | rewrite E, bind_ok]
  | |- exists r, (if ?b then _ else _) = Ok r => destruct b eqn:?
  | |- exists r, (match ?x with _ => _ end) = Ok r =>
      lazymatch x with
      | if ?b then _ else _ => destruct b eqn:?
      | _ => destruct x eqn:?
      end
  end.

Lemma recursos_body_total line low st : exists r, Recursos.body line low st = Ok r.
Proof. unfold Recursos.body. repeat total_step. Qed.

Lemma gastos_body_total line low st : exists r, Gastos.body line low st = Ok r.
Proof. unfold Gastos.body. repeat total_step. Qed.

Lemma programas_body_total line low st : exists r, Programas.body line low st = Ok r.
Proof. unfold Programas.body. repeat total_step. Qed.

Lemma cuentas_body_total line low rows : exists r, Cuentas.body line low rows = Ok r.
Proof. unfold Cuentas.body, find_amounts. repeat total_step. Qed.

Lemma record_first_total types line low amounts_line found :
  Nat.eqb (length (find_amounts amounts_line)) 0 = false ->
  exists found',
    Movimientos.record_first types line low (find_amounts amounts_line) found
    = Ok found'.
Proof.
  intros Hn. unfold find_amounts in *.
  induction types as [|[slug label] types IH]; simpl; [eauto|].
  repeat total_step. exact IH.
Qed.

Lemma movimientos_body_total line low found :
  exists r, Movimientos.body line low found = Ok r.
Proof.
  unfold Movimientos.body. repeat total_step.
  all: match goal with
       | |- context [Movimientos.record_first ?t ?l ?lo (find_amounts ?a) ?f] =>
           destruct (record_first_total t l lo a f) as [f' ->]; [assumption|]
       end; rewrite bind_ok; repeat total_step.
Qed.

Lemma pick_amount_total line code :
  exists x, SitPat._pick_amount_after_code line code = Ok x.
Proof. unfold SitPat._pick_amount_after_code, find_amounts. repeat total_step. Qed.

Lemma record_codes_total entries line : forall found,
  exists found', SitPat.record_codes entries line found = Ok found'.
Proof.
  induction entries as [|[code label] entries IH]; intros found; simpl; [eauto|].
  destruct (contains code line && _); [|apply IH].
  destruct (pick_amount_total line code) as [[x|] ->]; rewrite bind_ok; apply IH.
Qed.

Lemma sitpat_body_total line low found :
  exists r, SitPat.body line low found = Ok r.
Proof.
  unfold SitPat.body. repeat total_step.
  destruct (record_codes_total SitPat._CODE_NAME_MAP line found) as [f' ->].
  rewrite bind_ok. repeat total_step.
Qed.

(** The tokens of the goals parser. *)

Lemma prefix_char c d (r : string) :
  String.prefix (String c EmptyString) (String d r) = Ascii.eqb d c.
Proof.
  simpl. destruct (ascii_dec c d) as [->|Hne].
  - destruct r; now rewrite Ascii.eqb_refl.
  - symmetry. apply Ascii.eqb_neq. congruence.
Qed.

Lemma contains_char c (s : string) :
  contains (String c EmptyString) s = sany (fun d => Ascii.eqb d c) s.
Proof.
  induction s as [|d r IH]; [reflexivity|].
  cbn [contains sany]. now rewrite prefix_char, IH.
Qed.

Lemma sany_false_of_sall p q (s : string) :
  (forall c, q c = true -> p c = false) -> sall q s = true -> sany p s = false.
Proof.
  intros Hqp. induction s as [|c s IH]; simpl; [easy|].
  intros H. apply andb_true_iff in H as [Hc Hs]. now rewrite (Hqp c Hc), IH.
Qed.

Lemma digit_or_dot_not_comma c : digit_or_dot c = true -> Ascii.eqb c "," = false.
Proof. char_cases c. Qed.

Lemma digit_is_digit_or_dot c : is_digit c = true -> digit_or_dot c = true.
Proof. intros H. unfold digit_or_dot. now rewrite H. Qed.

Lemma py_float_whole (sg : string) (d : ascii) (D : string) :
  sg = EmptyString \/ sg = "-" ->
  sall is_digit (String d D) = true ->
  exists q, py_float (sg +:+ String d D) = Some (PFin q).
Proof.
  intros Hsg HD.
  assert (Hns : sall not_space (String d D) = true)
    by (apply (sall_impl is_digit); [apply digit_not_space | exact HD]).
  assert (Hd : is_digit d = true) by (simpl in HD; now apply andb_true_iff in HD).
  unfold py_float. destruct Hsg as [-> | ->].
  - rewrite str_app_nil_l, (strip_id _ Hns), (scan_sign_digit d _ Hd).
    apply (float_body_whole false d D HD).
  - rewrite strip_id by (rewrite str_app_cons; simpl; exact Hns).
    change (scan_sign ("-" +:+ String d D)) with (true, String d D).
    apply (float_body_whole true d D HD).
Qed.

(** A token made of an optional minus sign, digits and points holds no
    comma, and is a whole number once its points are removed. *)
Lemma dotted_token (sg d g : string) :
  (sg = EmptyString \/ sg = "-") ->
  sall is_digit d = true -> 1 <= String.length d -> sall digit_or_dot g = true ->
  contains "," (sg +:+ d +:+ g) = false /\
  exists x, Metas.float_of (replace_char "." EmptyString (sg +:+ d +:+ g)) = Ok x.
Proof.
  intros Hsg Hd Hdn Hg. split.
  - rewrite contains_char, !sany_app.
    assert (E1 : sany (fun c => Ascii.eqb c ",") sg = false) by (destruct Hsg; now subst).
    rewrite E1.
    rewrite (sany_false_of_sall _ digit_or_dot d digit_or_dot_not_comma)
      by (apply (sall_impl is_digit); [apply digit_is_digit_or_dot | exact Hd]).
    now rewrite (sany_false_of_sall _ digit_or_dot g digit_or_dot_not_comma).
  - rewrite !replace_char_app.
    assert (E1 : replace_char "." EmptyString sg = sg) by (destruct Hsg; now subst).
    rewrite E1.
    rewrite (replace_char_id "." _ d)
      by (apply (sall_impl is_digit); [apply digit_not_dot | exact Hd]).
    apply nonempty_of_length in Hdn as (d0 & D & ->).
    rewrite str_app_cons.
    destruct (py_float_whole sg d0 (D +:+ replace_char "." EmptyString g) Hsg)
      as [q Hq].
    + simpl. simpl in Hd. apply andb_true_iff in Hd as [Hd0 HD].
      rewrite Hd0, sall_app, HD. simpl. now apply replace_dot_digits.
    + unfold Metas.float_of. rewrite Hq. eauto.
Qed.

Lemma comma_in_amount (t : string) : lang AMOUNT_RE t -> contains "," t = true.
Proof.
  intros H. apply amount_shape in H.
  destruct H as (sg & d & g & f & -> & _).
  rewrite contains_char, !sany_app. simpl. now rewrite !orb_true_r.
Qed.

Lemma num_token_parse (t : string) :
  lang Metas._NUM_TOKEN_RE t ->
  exists x,
    (if contains "," t then parse_amount_ar t
     else Metas.float_of (replace_char "." EmptyString t)) = Ok x.
Proof.
  unfold Metas._NUM_TOKEN_RE, alt_all. intros H.
  apply lang_alt_inv in H as [H|H].
  - rewrite (comma_in_amount t H).
    destruct (parse_amount_ar_token t H) as [q ->]. eauto.
  - apply lang_alt_inv in H as [H|H].
    + unfold cat_all in H.
      apply lang_cat_inv in H as (sg & t1 & -> & Hsg & H).
      apply lang_cat_inv in H as (d & g & -> & Hd & Hg).
      apply lang_opt_chr in Hsg. apply lang_rep_cls in Hd as [Hd1 Hd2].
      apply lang_rep_inv in Hg as (n & Hg & _). apply reps_dot_group in Hg.
      destruct (dotted_token sg d g Hsg Hd1 Hd2 Hg) as [-> Hx]. exact Hx.
    + apply lang_rep_cls in H as [H1 H2].
      destruct (dotted_token EmptyString t EmptyString (or_introl eq_refl) H1 H2
                  eq_refl) as [Hc Hx].
      rewrite str_app_nil_l, str_app_nil_r in Hc, Hx. now rewrite Hc.
Qed.

Lemma parse_tokens_total (tokens : list string) :
  Forall (lang Metas._NUM_TOKEN_RE) tokens ->
  exists xs, Metas.parse_tokens tokens = Ok xs /\ length xs = length tokens.
Proof.
  induction 1 as [|t tokens Ht _ IH]; simpl; [eauto|].
  destruct (num_token_parse t Ht) as [x ->]. rewrite bind_ok.
  destruct IH as (xs & -> & Hlen). rewrite bind_ok.
  exists (x :: xs). split; [reflexivity | simpl; congruence].
Qed.

Lemma parse_numeric_tokens_total (text : string) :
  exists xs, Metas._parse_numeric_tokens text = Ok xs.
Proof.
  unfold Metas._parse_numeric_tokens.
  destruct (parse_tokens_total (re_findall Metas._NUM_TOKEN_RE text)) as (xs & H & _).
  - apply Forall_forall. intros t Ht. apply list_elem_of_In in Ht.
    eapply re_findall_sound. exact Ht.
  - eauto.
Qed.

Lemma fill_total (pending : Metas.row) (nums : list pyfloat) :
  Nat.leb 3 (length nums) = true -> exists r, Metas.fill pending nums = Ok r.
Proof.
  intros H. unfold Metas.fill.
  destruct (Nat.leb 4 (length nums)) eqn:H4; repeat total_step.
Qed.

Lemma metas_body_total line low st : exists r, Metas.body line low st = Ok r.
Proof.
  unfold Metas.body. repeat total_step.
  destruct (parse_numeric_tokens_total line) as [nums ->]. rewrite bind_ok.
  repeat total_step;
    match goal with
    | H : Nat.leb 3 (length ?n) = true |- context [Metas.fill ?p ?n] =>
        destruct (fill_total p n H) as [? ->]; rewrite bind_ok; eauto
    end.
Qed.

(** No parser raises, whatever the text and the warnings given. *)
Lemma parsers_never_raise (text_all : string) (w : list string) :
  (exists r, Recursos.parse_recursos_from_text text_all w = Ok r) /\
  (exists r, Gastos.parse_gastos_objeto_from_text text_all w = Ok r) /\
  (exists r, Programas.parse_programas_from_text text_all w = Ok r) /\
  (exists r, Movimientos.parse_movimientos_from_text text_all w = Ok r) /\
  (exists r, Cuentas.parse_cuentas_from_text text_all w = Ok r) /\
  (exists r, SitPat.parse_sitpat_from_text text_all w = Ok r) /\
  (exists r, Metas.parse_metas_from_text text_all w = Ok r).
Proof.
  repeat split.
  - unfold Recursos.parse_recursos_from_text, Recursos.parse_lines.
    edestruct (scan_total Recursos.is_start Recursos._SECTION_END_KEYWORDS
                 Recursos.body recursos_body_total) as [st ->].
    rewrite bind_ok. eauto.
  - unfold Gastos.parse_gastos_objeto_from_text, Gastos.parse_lines.
    edestruct (scan_total Gastos.is_start Gastos._SECTION_END_KEYWORDS
                 Gastos.body gastos_body_total) as [st ->].
    rewrite bind_ok. eauto.
  - unfold Programas.parse_programas_from_text, Programas.parse_lines.
    edestruct (scan_total Programas.is_start Programas._SECTION_END_KEYWORDS
                 Programas.body programas_body_total) as [st ->].
    rewrite bind_ok. eauto.
  - unfold Movimientos.parse_movimientos_from_text, Movimientos.parse_lines.
    edestruct (scan_total (contains Movimientos._SECTION_START)
                 Movimientos._SECTION_END_KEYWORDS
                 Movimientos.body movimientos_body_total) as [st ->].
    rewrite bind_ok. eauto.
  - unfold Cuentas.parse_cuentas_from_text, Cuentas.parse_lines.
    edestruct (scan_total (contains Cuentas._SECTION_START)
                 Cuentas._SECTION_END_KEYWORDS
                 Cuentas.body cuentas_body_total) as [st ->].
    rewrite bind_ok. eauto.
  - unfold SitPat.parse_sitpat_from_text, SitPat.parse_lines.
    edestruct (scan_total (contains SitPat._SECTION_START)
                 SitPat._SECTION_END_KEYWORDS
                 SitPat.body sitpat_body_total) as [st ->].
    rewrite bind_ok. eauto.
  - unfold Metas.parse_metas_from_text, Metas.parse_lines.
    edestruct (scan_total (contains Metas._SECTION_START)
                 Metas._SECTION_END_KEYWORDS
                 Metas.body metas_body_total) as [st ->].
    rewrite bind_ok. eauto.
Qed.

(** ** Zero rows *)

(** The four parsers built on [common.py] end with the zero-rows warning:
    it is added exactly when no row was collected. *)
Lemma zero_rows_warning_siblings (lines : list string) (w : list string) :
  (forall rows w', Movimientos.parse_lines lines w = Ok (rows, w') ->
     w' = if Nat.eqb (length rows) 0
          then w ++ ["No se encontraron movimientos de tesoreria."] else w) /\
  (forall rows w', Cuentas.parse_lines lines w = Ok (rows, w') ->
     w' = if Nat.eqb (length rows) 0
          then w ++ ["No se encontraron cuentas."] else w) /\
  (forall rows w', SitPat.parse_lines lines w = Ok (rows, w') ->
     w' = if Nat.eqb (length rows) 0
          then w ++ ["No se encontraron filas de situacion patrimonial."] else w) /\
  (forall rows w', Metas.parse_lines lines w = Ok (rows, w') ->
     w' = if Nat.eqb (length rows) 0
          then w ++ ["No se encontraron metas."] else w).
Proof.
  repeat split; intros rows w';
    [unfold Movimientos.parse_lines | unfold Cuentas.parse_lines
    | unfold SitPat.parse_lines | unfold Metas.parse_lines];
    match goal with
    | |- context [scan ?a ?b ?c ?d ?e ?f] => destruct (scan a b c d e f)
    end; simpl; intros H; inversion H; subst; reflexivity.
Qed.

(** C3, the code at the failing input.  No parser raises, whatever the
    text.  But on a text with none of the tables (and on the empty text)
    the resources, expenses and programs parsers return no row and leave
    the warnings list as it was, where the treasury, accounts,
    balance-sheet and goals parsers add their zero-rows warning. *)
Theorem C3_zero_rows_without_warning :
  (forall (text_all : string) (w : list string),
     (exists r, Recursos.parse_recursos_from_text text_all w = Ok r) /\
     (exists r, Gastos.parse_gastos_objeto_from_text text_all w = Ok r) /\
     (exists r, Programas.parse_programas_from_text text_all w = Ok r) /\
     (exists r, Movimientos.parse_movimientos_from_text text_all w = Ok r) /\
     (exists r, Cuentas.parse_cuentas_from_text text_all w = Ok r) /\
     (exists r, SitPat.parse_sitpat_from_text text_all w = Ok r) /\
     (exists r, Metas.parse_metas_from_text text_all w = Ok r)) /\
  Recursos.parse_recursos_from_text no_tables_text [] = Ok ([], []) /\
  Gastos.parse_gastos_objeto_from_text no_tables_text [] = Ok ([], []) /\
  Programas.parse_programas_from_text no_tables_text [] = Ok ([], [], []) /\
  Recursos.parse_recursos_from_text EmptyString [] = Ok ([], []) /\
  Gastos.parse_gastos_objeto_from_text EmptyString [] = Ok ([], []) /\
  Programas.parse_programas_from_text EmptyString [] = Ok ([], [], []) /\
  Movimientos.parse_movimientos_from_text no_tables_text []
  = Ok ([], ["No se encontraron movimientos de tesoreria."]) /\
  Cuentas.parse_cuentas_from_text no_tables_text []
  = Ok ([], ["No se encontraron cuentas."]) /\
  SitPat.parse_sitpat_from_text no_tables_text []
  = Ok ([], ["No se encontraron filas de situacion patrimonial."]) /\
  Metas.parse_metas_from_text no_tables_text []
  = Ok ([], ["No se encontraron metas."]).
Proof.
  split; [exact parsers_never_raise|].
  repeat split; vm_compute; reflexivity.
Qed.

(** ** Treasury movements *)

(** The summary type of a persisted movement is one of three, in the
    single-shot mapping as well. *)
Lemma normalize_movtes_tipo_tri (value : option string) :
  SingleShot._normalize_movtes_tipo value = None \/
  SingleShot._normalize_movtes_tipo value = Some "Saldo Inicial" \/
  SingleShot._normalize_movtes_tipo value = Some "Ingreso" \/
  SingleShot._normalize_movtes_tipo value = Some "Egreso".
Proof.
  unfold SingleShot._normalize_movtes_tipo.
  destruct value as [v|]; [|auto].
  repeat match goal with
         | |- context [if ?b then _ else _] => destruct b
         end; auto.
Qed.

Section ScanInvariant.
Context {S : Type}.
Variable is_start : string -> bool.
Variable end_keywords : list string.
Variable body : string -> string -> S -> exc (flow S).
Variable Inv : S -> Prop.
Hypothesis body_keeps : forall line low st st',
  Inv st ->
  body line low st = Ok (Next st') \/ body line low st = Ok (Stop st') ->
  Inv st'.

Lemma scan_keeps (lines : list string) : forall b st st',
  Inv st -> scan is_start end_keywords body lines b st = Ok st' -> Inv st'.
Proof.
  induction lines as [|l lines IH]; intros b st st' Hst H; simpl in H.
  - now injection H as <-.
  - destruct (nonempty (normalize_name l)); simpl in H; [|eauto].
    destruct b; simpl in H; [|eauto].
    destruct (is_end end_keywords (normalize_key (normalize_name l)));
      [now injection H as <-|].
    destruct (body (normalize_name l) (normalize_key (normalize_name l)) st)
      as [[st1|st1]|err] eqn:E; simpl in H.
    + eapply IH; [|exact H]. eapply body_keeps; eauto.
    + injection H as <-. eapply body_keeps; eauto.
    + discriminate.
Qed.
End ScanInvariant.

(** Every entry of [found] carries its key as summary type. *)
Definition well_keyed (found : Movimientos.state) : Prop :=
  forall k r, found !! k = Some r -> Movimientos.MovTes_TipoResumido r = k.

Lemma record_first_keeps types line low amounts : forall found found',
  well_keyed found ->
  Movimientos.record_first types line low amounts found = Ok found' ->
  well_keyed found'.
Proof.
  induction types as [|[slug label] types IH]; intros found found' Hf H;
    cbn [Movimientos.record_first] in H.
  - now injection H as <-.
  - destruct (contains label low && negb (Movimientos.has found slug)); [|eauto].
    destruct (amount_at amounts 0) as [importe|err]; [|discriminate].
    rewrite bind_ok in H.
    injection H as <-. intros k r Hk. unfold Movimientos.state in *.
    destruct (decide (slug = k)) as [<-|Hne].
    + rewrite lookup_insert_eq in Hk. now injection Hk as <-.
    + rewrite lookup_insert_ne in Hk by exact Hne. now apply Hf.
Qed.

Lemma movimientos_body_keeps line low found found' :
  well_keyed found ->
  Movimientos.body line low found = Ok (Next found') \/
  Movimientos.body line low found = Ok (Stop found') ->
  well_keyed found'.
Proof.
  intros Hf H. unfold Movimientos.body in H.
  destruct (contains "movimientos de tesoreria" low && contains "importe" low).
  { destruct H as [H|H]; inversion H; now subst. }
  destruct (match re_search CODE9_RE line with
            | Some code_idx =>
                (strip (take (m_start code_idx) line),
                 normalize_key (strip (take (m_start code_idx) line)))
            | None => (line, low)
            end) as [line' low'].
  destruct (negb (nonempty line')).
  { destruct H as [H|H]; inversion H; now subst. }
  destruct (Nat.eqb (length (find_amounts line')) 0).
  { destruct H as [H|H]; inversion H; now subst. }
  destruct (Movimientos.record_first Movimientos._MOV_TYPES line' low'
              (find_amounts line') found) as [f|err] eqn:E.
  - rewrite bind_ok in H. apply record_first_keeps in E; [|exact Hf].
    destruct (Nat.eqb (size f) (length Movimientos._MOV_TYPES));
      destruct H as [H|H]; inversion H; subst; exact E.
  - destruct H as [H|H]; discriminate.
Qed.

Lemma collect_keys (found : Movimientos.state) (types : list (string * string)) :
  well_keyed found ->
  Forall (fun r => In (Movimientos.MovTes_TipoResumido r) (map fst types))
         (omap (fun '(slug, _) => found !! slug) types).
Proof.
  intros Hf. induction types as [|[slug label] types IH]; [constructor|].
  cbn [omap list_omap map fst].
  destruct (found !! slug) as [r|] eqn:E.
  - constructor.
    + left. symmetry. now apply Hf.
    + eapply Forall_impl; [exact IH|]. intros x Hx. now right.
  - eapply Forall_impl; [exact IH|]. intros x Hx. now right.
Qed.

(** Whatever the text, the summary type of every row the treasury parser
    returns is one of the three. *)
Lemma movimientos_tri_state (lines : list string) (w : list string) rows w' :
  Movimientos.parse_lines lines w = Ok (rows, w') ->
  Forall (fun r =>
            Movimientos.MovTes_TipoResumido r = "Saldo Inicial" \/
            Movimientos.MovTes_TipoResumido r = "Ingreso" \/
            Movimientos.MovTes_TipoResumido r = "Egreso") rows.
Proof.
  unfold Movimientos.parse_lines. intros H.
  destruct (scan (contains Movimientos._SECTION_START)
              Movimientos._SECTION_END_KEYWORDS Movimientos.body lines false ∅)
    as [found|err] eqn:E; [|discriminate].
  rewrite bind_ok in H. injection H as <- _.
  assert (Hf : well_keyed found).
  { eapply (scan_keeps _ _ Movimientos.body well_keyed); [| |exact E].
    - intros line low st st'. apply movimientos_body_keeps.
    - intros k r Hk. unfold Movimientos.state in *.
      rewrite lookup_empty in Hk. discriminate. }
  eapply Forall_impl; [exact (collect_keys found Movimientos._MOV_TYPES Hf)|].
  intros r Hr. cbn in Hr.
  destruct Hr as [<-|[<-|[<-|[<-|[<-|[<-|[]]]]]]]; auto.
Qed.

(** C4, the code at the failing input.  On a treasury section with the six
    canonical lines the parser returns six rows, but only three lines are
    read: [found] is keyed by the summary type, so the second line of each
    type is skipped and the first one is returned twice.  No row stands
    for Income Adjustments, Expense Adjustments or Closing Balance.  What
    does hold, for every text and in the single-shot mapping too, is that
    a summary type is one of Saldo Inicial, Ingreso and Egreso. *)
Theorem C4_six_movements :
  Movimientos.parse_movimientos_from_text six_movements_text []
  = Ok ([ mov "Saldo Inicial" 100000 "Saldo Inicial";
          mov "Ingresos del Periodo" 50000 "Ingreso";
          mov "Ingresos del Periodo" 50000 "Ingreso";
          mov "Gastos del Periodo" 30000 "Egreso";
          mov "Gastos del Periodo" 30000 "Egreso";
          mov "Saldo Inicial" 100000 "Saldo Inicial" ],
        []) /\
  (forall (text_all : string) (w : list string),
     exists rows w',
       Movimientos.parse_movimientos_from_text text_all w = Ok (rows, w') /\
       Forall (fun r =>
                 Movimientos.MovTes_TipoResumido r = "Saldo Inicial" \/
                 Movimientos.MovTes_TipoResumido r = "Ingreso" \/
                 Movimientos.MovTes_TipoResumido r = "Egreso") rows) /\
  (forall value : option string,
     SingleShot._normalize_movtes_tipo value = None \/
     SingleShot._normalize_movtes_tipo value = Some "Saldo Inicial" \/
     SingleShot._normalize_movtes_tipo value = Some "Ingreso" \/
     SingleShot._normalize_movtes_tipo value = Some "Egreso").
Proof.
  split; [vm_compute; reflexivity|]. split.
  - intros text_all w.
    destruct (parsers_never_raise text_all w) as (_ & _ & _ & [[rows w'] H] & _).
    exists rows, w'. split; [exact H|].
    eapply movimientos_tri_state. exact H.
  - exact normalize_movtes_tipo_tri.
Qed.


(** ** Goals: which numbers become annual, partial and executed *)

Lemma py_index_from_end {A} (pre suf : list A) (i : Z) :
  (- Z.of_nat (length suf) <= i < 0)%Z ->
  py_index (pre ++ suf) i = py_index suf i.
Proof.
  intros Hi. unfold py_index. rewrite length_app.
  destruct (Z.ltb_spec i 0) as [_|]; [|lia].
  set (lp := length pre) in *. set (ls := length suf) in *.
  destruct (Z.ltb_spec (Z.of_nat (lp + ls) + i) 0); [lia|].
  destruct (Z.leb_spec (Z.of_nat (lp + ls)) (Z.of_nat (lp + ls) + i)); [lia|].
  destruct (Z.ltb_spec (Z.of_nat ls + i) 0); [lia|].
  destruct (Z.leb_spec (Z.of_nat ls) (Z.of_nat ls + i)); [lia|].
  simpl.
  replace (Z.to_nat (Z.of_nat (lp + ls) + i))
    with (lp + Z.to_nat (Z.of_nat ls + i)) by lia.
  now rewrite lookup_app_r, Nat.add_comm, Nat.add_sub by lia.
Qed.

Lemma fill_from_end (pending : Metas.row) (pre : list pyfloat) (a p e d : pyfloat) :
  Metas.fill pending (pre ++ [a; p; e; d])
  = Ok {| Metas.Juri_Codigo := Metas.Juri_Codigo pending;
          Metas.Prog_Codigo := Metas.Prog_Codigo pending;
          Metas.Prog_Nombre := Metas.Prog_Nombre pending;
          Metas.Meta_Nombre := Metas.Meta_Nombre pending;
          Metas.Meta_Unidad := Metas.Meta_Unidad pending;
          Metas.Meta_Anual := Some a; Metas.Meta_Parcial := Some p;
          Metas.Meta_Ejecutado := Some e;
          Metas.Meta_Observacion := Metas.Meta_Observacion pending |}.
Proof.
  unfold Metas.fill.
  assert (Hlen : Nat.leb 4 (length (pre ++ [a; p; e; d])) = true)
    by (apply Nat.leb_le; rewrite length_app; simpl; lia).
  rewrite Hlen.
  rewrite !py_index_from_end by (simpl; lia).
  reflexivity.
Qed.





(** ** Programs and their jurisdiction *)

Lemma truthy_some (x : option string) :
  truthy x = true -> exists s, x = Some s /\ nonempty s = true.
Proof. destruct x as [s|]; simpl; [eauto | discriminate]. Qed.

Lemma runner_juri_map_lookup (juri_db : list Runner.juri_db_row) :
  forall (m : gmap string (option string)) (k : string) (v : option string),
    Runner.build_juri_map juri_db m !! k = Some v ->
    m !! k = Some v \/
    exists j, j ∈ juri_db /\ Runner.juri_key j = Some k /\ Runner.ID_Jurisdiccion j = v.
Proof.
  induction juri_db as [|j db IH]; intros m k v H; simpl in H; [now left|].
  unfold Runner.juri_key.
  destruct (truthy (Runner.Juri_Codigo j)) eqn:Ec.
  - apply IH in H as [H|(j' & Hin & Hk & Hv)].
    + destruct (decide (default EmptyString (Runner.Juri_Codigo j) = k)) as [<-|Hne].
      * rewrite lookup_insert_eq in H. injection H as <-.
        right. exists j. split; [left|]. unfold Runner.juri_key. rewrite Ec.
        apply truthy_some in Ec as (c & -> & _). now split.
      * rewrite lookup_insert_ne in H by exact Hne. now left.
    + right. exists j'. split; [now right | now split].
  - destruct (truthy (Runner.Juri_Nombre j)) eqn:En.
    + apply IH in H as [H|(j' & Hin & Hk & Hv)].
      * destruct (decide (default EmptyString (Runner.Juri_Nombre j) = k)) as [<-|Hne].
        -- rewrite lookup_insert_eq in H. injection H as <-.
           right. exists j. split; [left|]. unfold Runner.juri_key. rewrite Ec, En.
           apply truthy_some in En as (c & -> & _). now split.
        -- rewrite lookup_insert_ne in H by exact Hne. now left.
      * right. exists j'. split; [now right | now split].
    + apply IH in H as [H|(j' & Hin & Hk & Hv)]; [now left|].
      right. exists j'. split; [now right | now split].
Qed.

Lemma runner_get_sound (juri_db : list Runner.juri_db_row) (k id : string) :
  Runner.get (Runner.build_juri_map juri_db ∅) k = Some id ->
  exists j, j ∈ juri_db /\ Runner.juri_key j = Some k /\
            Runner.ID_Jurisdiccion j = Some id.
Proof.
  unfold Runner.get. intros H.
  destruct (Runner.build_juri_map juri_db ∅ !! k) as [v|] eqn:E; [|discriminate].
  simpl in H. subst v.
  apply runner_juri_map_lookup in E as [E|E]; [|exact E].
  now rewrite lookup_empty in E.
Qed.

Lemma runner_resolve_cases (m : gmap string (option string))
    (p : Programas.prog) (id : string) :
  Runner.resolve_juri m p = Some id ->
  nonempty id = true /\
  ((exists c, Programas.P_Juri_Codigo p = Some c /\ Runner.get m c = Some id) \/
   (exists n, Programas.P_Juri_Nombre p = Some n /\ Runner.get m n = Some id)).
Proof.
  unfold Runner.resolve_juri, truthy.
  destruct (Programas.P_Juri_Codigo p) as [c|], (Programas.P_Juri_Nombre p) as [n|];
    simpl; try discriminate.
  - destruct (Runner.get m c) as [i1|] eqn:G1;
      destruct (Runner.get m n) as [i2|] eqn:G2;
      destruct (nonempty c), (nonempty n); simpl; try discriminate;
      try destruct (nonempty i1) eqn:E1; try destruct (nonempty i2) eqn:E2;
      simpl; try rewrite E1; try rewrite E2; try discriminate;
      intros H; injection H as <-; split; eauto.
  - destruct (Runner.get m c) as [i1|] eqn:G1;
      destruct (nonempty c); simpl; try discriminate;
      try rewrite andb_false_r; try discriminate;
      destruct (nonempty i1) eqn:E1; simpl; try rewrite E1; try discriminate;
      intros H; injection H as <-; split; eauto.
  - destruct (Runner.get m n) as [i2|] eqn:G2;
      destruct (nonempty n); simpl; try discriminate;
      destruct (nonempty i2) eqn:E2; simpl; try discriminate;
      intros H; injection H as <-; split; eauto.
Qed.

(** The jurisdiction a program is attached to carries, as its key, the
    program's jurisdiction code or its jurisdiction name. *)
Lemma runner_resolve_sound (juri_db : list Runner.juri_db_row)
    (p : Programas.prog) (id : string) :
  Runner.resolve_juri (Runner.build_juri_map juri_db ∅) p = Some id ->
  nonempty id = true /\
  exists j, j ∈ juri_db /\ Runner.ID_Jurisdiccion j = Some id /\
    (Runner.juri_key j = Programas.P_Juri_Codigo p \/
     Runner.juri_key j = Programas.P_Juri_Nombre p).
Proof.
  intros H. apply runner_resolve_cases in H as [Hid [(c & Hc & G)|(n & Hn & G)]];
    (split; [exact Hid|]);
    apply runner_get_sound in G as (j & Hin & Hk & Hj);
    exists j; rewrite Hk; repeat split; auto.
Qed.

(** The loop of step 11 keeps the resolved programs, in order, each with
    the identifier its look-up gave, and adds one warning per other. *)
Lemma runner_map_programas_spec (m : gmap string (option string))
    (programas : list Programas.prog) :
  forall w,
    let '(rows, w') := Runner.map_programas m programas w in
    map Runner.PR_source rows = List.filter (Runner.resolved m) programas /\
    Forall (fun r => Runner.resolve_juri m (Runner.PR_source r)
                     = Some (Runner.PR_ID_Jurisdiccion r)) rows /\
    w' = w ++ map Runner.prog_warning
                (List.filter (fun p => negb (Runner.resolved m p)) programas).
Proof.
  induction programas as [|p ps IH]; intros w; simpl.
  - repeat split; [constructor | now rewrite app_nil_r].
  - destruct (Runner.resolve_juri m p) as [id|] eqn:E.
    + assert (R : Runner.resolved m p = true)
        by (unfold Runner.resolved; rewrite E; apply bool_decide_true; eauto).
      specialize (IH w). destruct (Runner.map_programas m ps w) as [rows w'].
      destruct IH as (H1 & H2 & H3). rewrite R. simpl.
      repeat split; [now rewrite H1 | constructor; auto | exact H3].
    + assert (R : Runner.resolved m p = false).
      { unfold Runner.resolved. rewrite E. apply bool_decide_false.
        intros [? ?]; discriminate. }
      specialize (IH (w ++ [Runner.prog_warning p])).
      destruct (Runner.map_programas m ps _) as [rows w'].
      destruct IH as (H1 & H2 & H3). rewrite R. simpl.
      repeat split; [exact H1 | exact H2 |].
      rewrite H3. now rewrite <- app_assoc.
Qed.

Lemma ss_juri_map_lookup (juri_db : list SingleShot.juri_db_row) :
  forall (m : gmap string (option string)) (k : string) (v : option string),
    SingleShot.build_juri_map juri_db m !! k = Some v ->
    m !! k = Some v \/
    exists j, j ∈ juri_db /\ SingleShot.JD_Juri_Codigo j = Some k /\
              SingleShot.ID_Jurisdiccion j = v.
Proof.
  induction juri_db as [|j db IH]; intros m k v H; simpl in H; [now left|].
  destruct (truthy (SingleShot.JD_Juri_Codigo j)) eqn:Ec.
  - apply IH in H as [H|(j' & Hin & Hk & Hv)].
    + apply truthy_some in Ec as (c & Ec & _). rewrite Ec in H. simpl in H.
      destruct (decide (c = k)) as [<-|Hne].
      * rewrite lookup_insert_eq in H. injection H as <-.
        right. exists j. split; [left | now split].
      * rewrite lookup_insert_ne in H by exact Hne. now left.
    + right. exists j'. split; [now right | now split].
  - apply IH in H as [H|(j' & Hin & Hk & Hv)]; [now left|].
    right. exists j'. split; [now right | now split].
Qed.

Lemma ss_lookup_sound (juri_db : list SingleShot.juri_db_row)
    (item : SingleShot.programa_item) (id : string) :
  SingleShot.lookup_juri (SingleShot.build_juri_map juri_db ∅) item = Some id ->
  nonempty id = true /\
  exists j, j ∈ juri_db /\
    SingleShot.JD_Juri_Codigo j = Some (SingleShot.juri_key item) /\
    SingleShot.ID_Jurisdiccion j = Some id.
Proof.
  unfold SingleShot.lookup_juri. intros H.
  destruct (SingleShot.build_juri_map juri_db ∅ !! SingleShot.juri_key item)
    as [v|] eqn:E; [|discriminate].
  simpl in H. destruct v as [i|]; [|discriminate]. simpl in H.
  destruct (nonempty i) eqn:Ei; [|discriminate]. injection H as <-.
  split; [exact Ei|].
  apply ss_juri_map_lookup in E as [E|E]; [now rewrite lookup_empty in E | exact E].
Qed.

Lemma ss_map_programas_spec (m : gmap string (option string))
    (items : list SingleShot.programa_item) :
  let '(rows, warnings) := SingleShot._map_programas items m in
  Forall (fun r => exists item, item ∈ items /\
            SingleShot.lookup_juri m item = Some (SingleShot.PR_ID_Jurisdiccion r) /\
            r = SingleShot.prog_row_of (SingleShot.PR_ID_Jurisdiccion r) item) rows /\
  length rows = length (List.filter (SingleShot.resolved m) items) /\
  warnings = map SingleShot.prog_warning
               (List.filter (fun i => negb (SingleShot.resolved m i)) items).
Proof.
  induction items as [|item items IH]; simpl.
  - repeat split. constructor.
  - destruct (SingleShot._map_programas items m) as [rows warnings].
    destruct IH as (H1 & H2 & H3).
    assert (H1' : Forall (fun r => exists it, it ∈ item :: items /\
              SingleShot.lookup_juri m it = Some (SingleShot.PR_ID_Jurisdiccion r) /\
              r = SingleShot.prog_row_of (SingleShot.PR_ID_Jurisdiccion r) it) rows).
    { eapply Forall_impl; [exact H1|]. intros r (it & Hin & Hl & Hr).
      exists it. split; [now right | now split]. }
    destruct (SingleShot.lookup_juri m item) as [id|] eqn:E.
    + assert (R : SingleShot.resolved m item = true)
        by (unfold SingleShot.resolved; rewrite E; apply bool_decide_true; eauto).
      rewrite R. simpl. repeat split; [|now rewrite H2|exact H3].
      constructor; [|exact H1'].
      exists item. split; [left | now split].
    + assert (R : SingleShot.resolved m item = false).
      { unfold SingleShot.resolved. rewrite E. apply bool_decide_false.
        intros [? ?]; discriminate. }
      rewrite R. simpl. repeat split; [exact H1'|exact H2|now rewrite H3].
Qed.



(** ** Goals without a program *)

Lemma ss_map_metas_spec (m : gmap string string)
    (items : list SingleShot.meta_item) :
  let '(rows, warnings, unresolved) := SingleShot._map_metas items m in
  unresolved = List.filter (fun i => negb (SingleShot.meta_resolved m i)) items /\
  warnings = map SingleShot.meta_warning unresolved /\
  length rows = length (List.filter (SingleShot.meta_resolved m) items) /\
  Forall (fun r => exists item, item ∈ items /\
            SingleShot.lookup_prog m item = Some (SingleShot.ID_Programa r)) rows.
Proof.
  induction items as [|item items IH]; simpl.
  - repeat split. constructor.
  - destruct (SingleShot._map_metas items m) as [[rows warnings] unresolved].
    destruct IH as (H1 & H2 & H3 & H4).
    assert (H4' : Forall (fun r => exists it, it ∈ item :: items /\
              SingleShot.lookup_prog m it = Some (SingleShot.ID_Programa r)) rows).
    { eapply Forall_impl; [exact H4|]. intros r (it & Hin & Hl).
      exists it. split; [now right | exact Hl]. }
    destruct (SingleShot.lookup_prog m item) as [id|] eqn:E.
    + assert (R : SingleShot.meta_resolved m item = true)
        by (unfold SingleShot.meta_resolved; rewrite E; apply bool_decide_true; eauto).
      rewrite R. simpl. repeat split; [exact H1|exact H2|now rewrite H3|].
      constructor; [|exact H4']. exists item. split; [left | exact E].
    + assert (R : SingleShot.meta_resolved m item = false).
      { unfold SingleShot.meta_resolved. rewrite E. apply bool_decide_false.
        intros [? ?]; discriminate. }
      rewrite R. simpl. repeat split; [now rewrite H1|now rewrite H2|exact H3|exact H4'].
Qed.

(** C8, the code at the failing input, next to what the single-shot
    pipeline does.  The runner's loop over the parsed goals returns the
    rows to insert and the warnings, nothing else: a goal whose program is
    not found leaves a warning (its jurisdiction code, program code and
    name) and is dropped with its unit and its three values.  In the
    single-shot pipeline [_map_metas] returns every such goal, in order, in
    [unresolved], with one warning each, and [run_single_shot] writes that
    list to the staging table when one is configured. *)
Theorem C8_runner_drops_unresolved_goal :
  Runner.map_metas only_program_01 only_program_01_by_name [orphan_goal] []
  = ([], ["No se encontro programa para meta: 1110100000 16 Consultas medicas"]) /\
  (forall (m : gmap string string) (items : list SingleShot.meta_item),
     let '(rows, warnings, unresolved) := SingleShot._map_metas items m in
     unresolved = List.filter (fun i => negb (SingleShot.meta_resolved m i)) items /\
     warnings = map SingleShot.meta_warning unresolved /\
     length rows + length unresolved = length items) /\
  (forall (m : gmap string string) (items : list SingleShot.meta_item)
          (table : string) (w : list string),
     let '(rows, warnings, unresolved) := SingleShot._map_metas items m in
     SingleShot.goals_step items m (Some table) w
     = (match unresolved with
        | [] => []
        | _ => SingleShot.LogUnresolved unresolved ::
               (if nonempty table
                then [SingleShot.InsertStaging table unresolved] else [])
        end ++ [SingleShot.UpsertMetas rows],
        w ++ warnings)).
Proof.
  split; [vm_compute; reflexivity|]. split.
  - intros m items. pose proof (ss_map_metas_spec m items) as H.
    destruct (SingleShot._map_metas items m) as [[rows warnings] unresolved].
    destruct H as (H1 & H2 & H3 & _). repeat split; [exact H1|exact H2|].
    rewrite H3, H1.
    clear. induction items as [|i items IH]; simpl; [reflexivity|].
    destruct (SingleShot.meta_resolved m i); simpl; lia.
  - intros m items table w. unfold SingleShot.goals_step.
    destruct (SingleShot._map_metas items m) as [[rows warnings] unresolved].
    reflexivity.
Qed.


(** ** The second pass over the goals *)

(** C7. In [run_single_shot] the goals-only extraction is called exactly
    when the first pass returned fewer than 50 goals; when it is called
    and returns, its goals array takes the place of the first one exactly
    when it is strictly longer, and otherwise the first array is kept as
    it is: the result is one array or the other, never a mix.  (When the
    call raises, the run raises.) *)
Theorem C7_goals_second_pass :
  forall (bd_metas0 : list SingleShot.meta_item) (w : list string)
         (extract_metas_only : exc (list SingleShot.meta_item)),
    (SingleShot.metas_threshold <= length bd_metas0 ->
     SingleShot.reload_metas bd_metas0 w extract_metas_only
     = Ok {| SingleShot.bd_metas := bd_metas0; SingleShot.sp_warnings := w;
             SingleShot.calls := 0; SingleShot.replaced := false |}) /\
    (length bd_metas0 < SingleShot.metas_threshold ->
     forall metas_list, extract_metas_only = Ok metas_list ->
       exists sp,
         SingleShot.reload_metas bd_metas0 w extract_metas_only = Ok sp /\
         SingleShot.calls sp = 1 /\
         (SingleShot.replaced sp = true <-> length bd_metas0 < length metas_list) /\
         SingleShot.bd_metas sp
         = (if SingleShot.replaced sp then metas_list else bd_metas0)) /\
    (length bd_metas0 < SingleShot.metas_threshold ->
     forall e, extract_metas_only = Raise e ->
       SingleShot.reload_metas bd_metas0 w extract_metas_only = Raise e).
Proof.
  intros m0 w ex. unfold SingleShot.reload_metas. repeat split.
  - intros H. apply Nat.ltb_ge in H. now rewrite H.
  - intros H new ->. apply Nat.ltb_lt in H. rewrite H, bind_ok.
    destruct (Nat.ltb_spec (length m0) (length new)) as [L|L].
    + eexists. split; [reflexivity|]. simpl. repeat split; auto.
    + eexists. split; [reflexivity|]. simpl. repeat split; auto.
      * discriminate.
      * intros C. lia.
  - intros H e ->. apply Nat.ltb_lt in H. now rewrite H.
Qed.

Lemma C7_goals_second_pass_witness :
  (SingleShot.reload_metas (repeat (goal_named "a") 50) []
     (Ok [goal_named "b"])
   = Ok {| SingleShot.bd_metas := repeat (goal_named "a") 50;
           SingleShot.sp_warnings := [];
           SingleShot.calls := 0; SingleShot.replaced := false |}) /\
  (exists sp,
     SingleShot.reload_metas [goal_named "a"] []
       (Ok [goal_named "b"; goal_named "c"]) = Ok sp /\
     SingleShot.calls sp = 1 /\
     (SingleShot.replaced sp = true
      <-> length [goal_named "a"] < length [goal_named "b"; goal_named "c"]) /\
     SingleShot.bd_metas sp
     = (if SingleShot.replaced sp then [goal_named "b"; goal_named "c"]
        else [goal_named "a"])) /\
  SingleShot.reload_metas [goal_named "a"] [] (Raise (RuntimeError "LLM fallo."))
  = Raise (RuntimeError "LLM fallo.").
Proof.
  split; [|split].
  - apply (proj1 (C7_goals_second_pass (repeat (goal_named "a") 50) []
                    (Ok [goal_named "b"]))).
    unfold SingleShot.metas_threshold. simpl. lia.
  - refine (proj1 (proj2 (C7_goals_second_pass [goal_named "a"] []
                            (Ok [goal_named "b"; goal_named "c"])))
              _ [goal_named "b"; goal_named "c"] eq_refl).
    unfold SingleShot.metas_threshold. simpl. lia.
  - apply (proj2 (proj2 (C7_goals_second_pass [goal_named "a"] []
                           (Raise (RuntimeError "LLM fallo."))))).
    + unfold SingleShot.metas_threshold. simpl. lia.
    + reflexivity.
Defined.


(** ** The retry loop *)

Section RetryFacts.
Context {P : Type}.
Variable native_call : nat -> Retry.native_outcome string.
Variable chat_call : nat -> exc string.
Variable loads : string -> exc P.
Variable validate : P -> exc unit.
Variable final_msg : string.
Variable empty_msg : string.
Variable max_retries : Z.
Variable retry_sleep_sec : Q.
Variable has_responses : bool.

Local Abbreviation loop :=
  (Retry.loop native_call chat_call loads validate final_msg empty_msg
     max_retries retry_sleep_sec).
Local Abbreviation outcome :=
  (Retry.outcome native_call chat_call loads validate has_responses).
Local Abbreviation ur :=
  (Retry.use_responses_at native_call chat_call loads validate has_responses).
Local Abbreviation delay := (Retry.delay retry_sleep_sec).

Lemma loop_step_fail (n i : nat) (slept : list Q) (e : pyerr) :
  outcome i = Raise e -> (Z.of_nat i < max_retries)%Z ->
  loop (S n) i (ur i) slept = loop n (S i) (ur (S i)) (slept ++ [delay i]).
Proof.
  unfold Retry.outcome. intros Ho Hi. simpl.
  destruct (Retry.attempt native_call chat_call loads validate i (ur i))
    as [[payload|err] u]; simpl in Ho; [discriminate|].
  destruct (Z.ltb_spec (Z.of_nat i) max_retries); [reflexivity | lia].
Qed.

Lemma loop_success (payload : P) (d : nat) : forall (j n : nat) (slept : list Q),
  (forall i, j <= i < j + d -> exists e, outcome i = Raise e) ->
  outcome (j + d) = Ok payload ->
  d < n -> (Z.of_nat (j + d) <= max_retries)%Z ->
  loop n j (ur j) slept = (Ok payload, slept ++ map delay (seq j d)).
Proof.
  induction d as [|d IH]; intros j n slept Hfail Hok Hn Hm.
  - destruct n as [|n]; [lia|]. rewrite Nat.add_0_r in Hok.
    unfold Retry.outcome in Hok. simpl.
    destruct (Retry.attempt native_call chat_call loads validate j (ur j))
      as [[p|err] u]; simpl in Hok; [|discriminate].
    injection Hok as ->. now rewrite app_nil_r.
  - destruct n as [|n]; [lia|].
    destruct (Hfail j ltac:(lia)) as [e He].
    rewrite (loop_step_fail n j slept e He) by lia.
    rewrite (IH (S j) n (slept ++ [delay j])).
    + simpl. now rewrite <- app_assoc.
    + intros i Hi. apply Hfail. lia.
    + now replace (S j + d) with (j + S d) by lia.
    + lia.
    + lia.
Qed.

Lemma loop_exhausted (last_error : pyerr) (d : nat) :
  forall (j n : nat) (slept : list Q),
  (forall i, j <= i < j + d -> exists e, outcome i = Raise e) ->
  outcome (j + d) = Raise last_error ->
  d < n -> Z.of_nat (j + d) = max_retries ->
  loop n j (ur j) slept
  = (Raise (Retry.exhausted final_msg last_error), slept ++ map delay (seq j d)).
Proof.
  induction d as [|d IH]; intros j n slept Hfail Hlast Hn Hm.
  - destruct n as [|n]; [lia|]. rewrite Nat.add_0_r in Hlast, Hm.
    unfold Retry.outcome in Hlast. simpl.
    destruct (Retry.attempt native_call chat_call loads validate j (ur j))
      as [[p|err] u]; simpl in Hlast; [discriminate|].
    injection Hlast as ->.
    destruct (Z.ltb_spec (Z.of_nat j) max_retries); [lia|].
    now rewrite app_nil_r.
  - destruct n as [|n]; [lia|].
    destruct (Hfail j ltac:(lia)) as [e He].
    rewrite (loop_step_fail n j slept e He) by lia.
    rewrite (IH (S j) n (slept ++ [delay j])).
    + simpl. now rewrite <- app_assoc.
    + intros i Hi. apply Hfail. lia.
    + now replace (S j + d) with (j + S d) by lia.
    + lia.
    + lia.
Qed.
End RetryFacts.



Lemma group_app_l (new cs : caps) (i : nat) :
  is_Some (group new i) -> group (new ++ cs) i = group new i.
Proof.
  induction new as [|[j t] new IH]; simpl; intros H.
  - now destruct H.
  - destruct (Nat.eqb i j); [reflexivity | now apply IH].
Qed.

Lemma group_app_some (new1 new2 : caps) (i : nat) :
  is_Some (group new1 i) \/ is_Some (group new2 i) -> is_Some (group (new1 ++ new2) i).
Proof.
  induction new1 as [|[j t] new1 IH]; simpl; intros H.
  - destruct H as [H|H]; [now destruct H | exact H].
  - destruct (Nat.eqb i j); [eauto | now apply IH].
Qed.

Lemma caps_in_weaken (r r' : re) (new : caps) :
  (forall x, In x (groups_of r) -> In x (groups_of r')) ->
  caps_in r new -> caps_in r' new.
Proof.
  intros Hsub H. unfold caps_in in *. eapply Forall_impl; [exact H|].
  intros [i t] (a & Ha & La). exists a. split; [now apply Hsub | exact La].
Qed.

Lemma caps_in_app (r : re) (new1 new2 : caps) :
  caps_in r new1 -> caps_in r new2 -> caps_in r (new1 ++ new2).
Proof. unfold caps_in. intros. now apply Forall_app. Qed.

Section RepLoopCaps.
Context {R : Type}.
Variable a : re.
Variable body : pos -> caps -> (pos -> caps -> option R) -> option R.
Variable lo : nat.
Variable hi : option nat.
Variable k : pos -> caps -> option R.
Hypothesis body_caps : forall p cs k' x,
  body p cs k' = Some x ->
  exists s p' new,
    rest p = s +:+ rest p' /\ lang a s /\ k' p' (new ++ cs) = Some x /\
    caps_in a new /\
    (forall i, always_captures a i = true -> is_Some (group new i)).

Lemma rep_loop_caps fuel : forall n p cs x,
  rep_loop body lo hi k fuel n p cs = Some x ->
  (forall h, hi = Some h -> n <= h) ->
  exists m s p' new,
    rest p = s +:+ rest p' /\ reps a m s /\ lo <= n + m /\
    (forall h, hi = Some h -> n + m <= h) /\
    k p' (new ++ cs) = Some x /\ caps_in a new /\
    (1 <= m -> forall i, always_captures a i = true -> is_Some (group new i)).
Proof.
  assert (Hstop : forall n p cs x,
    (if Nat.leb lo n then k p cs else None) = Some x ->
    (forall h, hi = Some h -> n <= h) ->
    exists m s p' new,
      rest p = s +:+ rest p' /\ reps a m s /\ lo <= n + m /\
      (forall h, hi = Some h -> n + m <= h) /\
      k p' (new ++ cs) = Some x /\ caps_in a new /\
      (1 <= m -> forall i, always_captures a i = true -> is_Some (group new i))).
  { intros n p cs x H Hn. destruct (Nat.leb lo n) eqn:E; [|discriminate].
    apply Nat.leb_le in E.
    exists 0, EmptyString, p, [].
    repeat split; [constructor | lia | | exact H | constructor | lia].
    intros h Hh. specialize (Hn h Hh). lia. }
  induction fuel as [|fuel IH]; intros n p cs x H Hn; simpl in H.
  - eapply Hstop; eassumption.
  - destruct (within hi n) eqn:W; [|eapply Hstop; eassumption].
    destruct (body p cs _) as [y|] eqn:B; [|eapply Hstop; eassumption].
    injection H as ->.
    apply body_caps in B. destruct B as (s & p1 & new1 & Hs & La & Hk & Hin & Hall).
    cbv beta in Hk.
    destruct (Nat.ltb _ _); [|discriminate].
    apply IH in Hk.
    + destruct Hk as (m & t & p' & new2 & Ht & Hr & Hlo & Hhi & Hk & Hin2 & _).
      exists (S m), (s +:+ t), p', (new2 ++ new1). repeat split.
      * rewrite Hs, Ht. now rewrite str_app_assoc.
      * now constructor.
      * lia.
      * intros h Hh. specialize (Hhi h Hh). lia.
      * now rewrite <- app_assoc.
      * now apply caps_in_app.
      * intros _ i Hi. apply group_app_some. right. now apply Hall.
    + intros h Hh. unfold within in W. rewrite Hh in W.
      apply Nat.ltb_lt in W. lia.
Qed.
End RepLoopCaps.

Lemma exec_caps {R} (r : re) : forall p cs (k : pos -> caps -> option R) x,
  exec r p cs k = Some x ->
  exists s p' new,
    rest p = s +:+ rest p' /\ lang r s /\ k p' (new ++ cs) = Some x /\
    caps_in r new /\
    (forall i, always_captures r i = true -> is_Some (group new i)).
Proof.
  induction r as [|f|a IHa b IHb|a IHa b IHb|lo hi a IHa|j a IHa| | |];
    intros p cs k x H; cbn [exec] in H.
  - exists EmptyString, p, []. repeat split; [constructor | exact H | constructor | discriminate].
  - destruct (rest p) as [|c s] eqn:E; [discriminate|].
    destruct (f c) eqn:F; [|discriminate].
    exists (String c EmptyString), {| prev := Some c; rest := s |}, [].
    repeat split; [now constructor | exact H | constructor | discriminate].
  - apply IHa in H. destruct H as (s & p1 & new1 & Hs & La & H & Hin1 & Hall1).
    apply IHb in H. destruct H as (t & p2 & new2 & Ht & Lb & H & Hin2 & Hall2).
    exists (s +:+ t), p2, (new2 ++ new1). repeat split.
    + rewrite Hs, Ht. now rewrite str_app_assoc.
    + now constructor.
    + now rewrite <- app_assoc.
    + apply caps_in_app.
      * eapply caps_in_weaken; [|exact Hin2]. intros y Hy. simpl. apply in_or_app. now right.
      * eapply caps_in_weaken; [|exact Hin1]. intros y Hy. simpl. apply in_or_app. now left.
    + intros i Hi. simpl in Hi. apply orb_true_iff in Hi.
      apply group_app_some. destruct Hi as [Hi|Hi]; [right; now apply Hall1 | left; now apply Hall2].
  - destruct (exec a p cs k) as [y|] eqn:E.
    + injection H as ->. apply IHa in E.
      destruct E as (s & p1 & new & Hs & La & H & Hin & Hall).
      exists s, p1, new. repeat split; [exact Hs|now apply L_alt_l|exact H| |].
      * eapply caps_in_weaken; [|exact Hin]. intros y Hy. simpl. apply in_or_app. now left.
      * intros i Hi. simpl in Hi. apply andb_true_iff in Hi as [Hi _]. now apply Hall.
    + apply IHb in H. destruct H as (s & p1 & new & Hs & La & H & Hin & Hall).
      exists s, p1, new. repeat split; [exact Hs|now apply L_alt_r|exact H| |].
      * eapply caps_in_weaken; [|exact Hin]. intros y Hy. simpl. apply in_or_app. now right.
      * intros i Hi. simpl in Hi. apply andb_true_iff in Hi as [_ Hi]. now apply Hall.
  - apply (rep_loop_caps a) in H; [|exact IHa|intros; lia].
    destruct H as (m & s & p' & new & Hs & Hr & Hlo & Hhi & H & Hin & Hall).
    exists s, p', new. repeat split; [exact Hs| |exact H|exact Hin|].
    + apply L_rep with (n := m); [exact Hr|lia|exact Hhi].
    + intros i Hi. simpl in Hi. apply andb_true_iff in Hi as [Hlo' Hi].
      apply Nat.ltb_lt in Hlo'. apply Hall; [lia | exact Hi].
  - apply IHa in H. destruct H as (s & p1 & new & Hs & La & H & Hin & Hall).
    cbv beta in H.
    exists s, p1, ((j, consumed (rest p) (rest p1)) :: new).
    repeat split; [exact Hs|now constructor|exact H| |].
    + constructor.
      * exists a. split; [now left|]. cbn [snd]. rewrite Hs. now rewrite consumed_app.
      * eapply caps_in_weaken; [|exact Hin]. intros y Hy. now right.
    + intros i Hi. cbn [always_captures] in Hi. cbn [group].
      destruct (Nat.eqb i j); [eauto|]. now apply Hall.
  - destruct (prev p); [discriminate|].
    exists EmptyString, p, []. repeat split; [constructor | exact H | constructor | discriminate].
  - destruct (at_end p); [|discriminate].
    exists EmptyString, p, []. repeat split; [constructor | exact H | constructor | discriminate].
  - destruct (at_boundary p); [|discriminate].
    exists EmptyString, p, []. repeat split; [constructor | exact H | constructor | discriminate].
Qed.

Lemma match_at_caps r pv s i m :
  match_at r pv s i = Some m ->
  lang r (m_text m) /\ s = m_text m +:+ m_after m /\
  caps_in r (m_caps m) /\
  (forall g, always_captures r g = true -> is_Some (group (m_caps m) g)).
Proof.
  unfold match_at. intros H.
  destruct (exec r _ [] accept) as [[p' cs]|] eqn:E; [|discriminate].
  injection H as <-. simpl.
  apply exec_caps in E. destruct E as (t & p1 & new & Ht & L & A & Hin & Hall).
  unfold accept in A. injection A as -> <-. simpl in Ht. subst s.
  rewrite app_nil_r. rewrite consumed_app. auto.
Qed.

(** A group that always takes part holds a text of its own pattern, when
    the pattern has one group of that number. *)
Lemma group_of_lang r pv s i m (g : nat) (a : re) :
  match_at r pv s i = Some m ->
  always_captures r g = true ->
  (forall b, In (g, b) (groups_of r) -> b = a) ->
  lang a (group_of m g).
Proof.
  intros H Hg Huniq. apply match_at_caps in H as (_ & _ & Hin & Hall).
  specialize (Hall g Hg). destruct Hall as [t Ht].
  unfold group_of. rewrite Ht. simpl.
  clear Hg. induction (m_caps m) as [|[j u] cs IH]; [discriminate|].
  apply Forall_cons in Hin as [Hj Hin]. simpl in Ht.
  destruct (Nat.eqb g j) eqn:E.
  - injection Ht as ->. apply Nat.eqb_eq in E. subst j.
    destruct Hj as (b & Hb & Lb). simpl in Hb, Lb. now rewrite <- (Huniq b Hb).
  - now apply IH.
Qed.


(** ** What the rows of a parser look like *)

Lemma scan_inv {S : Type} (is_start : string -> bool) (end_keywords : list string)
    (body : string -> string -> S -> exc (flow S)) (Inv : S -> Prop) :
  (forall line low st fl, Inv st -> body line low st = Ok fl -> Inv (flow_st fl)) ->
  forall lines b st st',
    Inv st -> scan is_start end_keywords body lines b st = Ok st' -> Inv st'.
Proof.
  intros Hbody lines b st st'.
  apply (scan_keeps is_start end_keywords body Inv).
  intros line low st0 st1 H0 [H|H]; apply (Hbody _ _ _ _ H0 H).
Qed.

Lemma bind_inv {A B} (m : exc A) (f : A -> exc B) (r : B) :
  (m ≫= f) = Ok r -> exists a, m = Ok a /\ f a = Ok r.
Proof. destruct m as [a|e]; [eauto | discriminate]. Qed.

Lemma amount_at_fin (line : string) (i : Z) (x : pyfloat) :
  amount_at (re_findall AMOUNT_RE line) i = Ok x -> exists q, x = PFin q.
Proof.
  unfold amount_at. intros H. apply bind_inv in H as (t & Ht & Hx).
  assert (Hin : In t (re_findall AMOUNT_RE line)).
  { unfold py_index in Ht.
    destruct (_ || _); [discriminate|].
    destruct (re_findall AMOUNT_RE line !! _) as [y|] eqn:E; [|discriminate].
    injection Ht as ->. apply list_elem_of_In. eapply list_elem_of_lookup_2. exact E. }
  apply re_findall_sound in Hin. apply parse_amount_ar_token in Hin as [q Hq].
  exists q. congruence.
Qed.

(** One step back through a parser body whose outcome is known. *)
Ltac walk H :=
  cbv beta iota zeta in H;
  lazymatch type of H with
  | mret _ = Ok _ => unfold mret, exc_ret in H; injection H as <-
  | Ok _ = Ok _ => injection H as <-
  | Raise _ = Ok _ => discriminate H
  | (Ok _ ≫= _) = Ok _ => rewrite bind_ok in H
  | (?m ≫= _) = Ok _ =>
      let a := fresh "a" in
      let E := fresh "E" in
      apply bind_inv in H as (a & E & H)
  | (if ?b then _ else _) = Ok _ => destruct b eqn:?
  | (match ?x with _ => _ end) = Ok _ =>
      lazymatch x with
      | if ?b then _ else _ => destruct b eqn:?
      | _ => destruct x eqn:?
      end
  end.

Ltac fin_amounts :=
  repeat match goal with
         | E : amount_at (re_findall AMOUNT_RE _) _ = Ok ?x |- _ =>
             let q := fresh "q" in apply amount_at_fin in E as [q ->]
         | E : amount_at (find_amounts _) _ = Ok ?x |- _ =>
             let q := fresh "q" in apply amount_at_fin in E as [q ->]
         end.

Lemma recursos_body_inv w0 line low st fl :
  recursos_inv w0 st -> Recursos.body line low st = Ok fl ->
  recursos_inv w0 (flow_st fl).
Proof.
  intros (Ht & Hr & (ex & Hw)) H. unfold Recursos.body in H.
  repeat walk H; fin_amounts; cbn [flow_st].
  all: unfold recursos_inv; cbn [Recursos.tipo_actual Recursos.rows Recursos.warnings].
  all: repeat match goal with
              | H : _ && _ = true |- _ => apply andb_true_iff in H as [? ?]
              end.
  all: repeat match goal with
              | H : opt_eqb (Some _) _ = true |- _ =>
                  first [ discriminate H | clear H ]
              | H : opt_eqb ?x _ = true |- _ =>
                  destruct x; [apply String.eqb_eq in H; subst | discriminate H]
              end.
  all: try (destruct Ht as [Ht|[Ht|Ht]]; try discriminate Ht;
            try (injection Ht as ->)).
  all: split; [auto|].
  all: split;
    [ first [ exact Hr
            | apply Forall_app; split; [exact Hr|];
              constructor; [|constructor];
              unfold recursos_row_ok; cbn; intuition eauto 8 ]
    | first [ now exists ex
            | eexists; rewrite Hw, <- app_assoc; reflexivity ] ].
Qed.

Lemma recursos_parse_inv (lines : list string) (w : list string) st :
  Recursos.parse_lines lines w = Ok st -> recursos_inv w st.
Proof.
  unfold Recursos.parse_lines.
  apply (scan_inv _ _ _ (recursos_inv w)).
  - apply recursos_body_inv.
  - repeat split; [now left | constructor | exists []; cbn; now rewrite app_nil_r].
Qed.

Lemma gastos_body_inv w0 line low st fl :
  gastos_inv w0 st -> Gastos.body line low st = Ok fl ->
  gastos_inv w0 (flow_st fl).
Proof.
  intros (Ht & Hr & (ex & Hw)) H. unfold Gastos.body in H.
  repeat walk H; fin_amounts; cbn [flow_st].
  all: unfold gastos_inv; cbn [Gastos.tipo_actual Gastos.rows Gastos.warnings].
  all: try (destruct Ht as [Ht|[Ht|Ht]]; try discriminate Ht;
            try (injection Ht as ->)).
  all: split; [auto|].
  all: split;
    [ first [ exact Hr
            | apply Forall_app; split; [exact Hr|];
              constructor; [|constructor];
              unfold gastos_row_ok; cbn; intuition eauto 12 ]
    | first [ now exists ex
            | eexists; rewrite Hw, <- app_assoc; reflexivity ] ].
Qed.

Lemma gastos_parse_inv (lines : list string) (w : list string) st :
  Gastos.parse_lines lines w = Ok st -> gastos_inv w st.
Proof.
  unfold Gastos.parse_lines.
  apply (scan_inv _ _ _ (gastos_inv w)).
  - apply gastos_body_inv.
  - repeat split; [now left | constructor | exists []; cbn; now rewrite app_nil_r].
Qed.

Lemma lang_rep_cls_hi lo h f (s : string) :
  lang (Rep lo (Some h) (Cls f)) s ->
  sall f s = true /\ lo <= String.length s <= h.
Proof.
  intros H. apply lang_rep_inv in H as (n & H & Hlo & Hhi).
  apply reps_cls in H as [H2 H3]. specialize (Hhi h eq_refl).
  split; [exact H2 | lia].
Qed.

Ltac one_group :=
  let b := fresh "b" in
  let Hb := fresh "Hb" in
  intros b Hb; cbn in Hb;
  repeat (destruct Hb as [Hb|Hb]; [first [discriminate Hb | now injection Hb as <-]|]);
  destruct Hb.

Lemma code_line_groups (line : string) (m : rmatch) :
  re_match Programas._CODE_LINE_RE line = Some m ->
  (sall is_digit (group_of m 1) = true /\ 4 <= String.length (group_of m 1)) /\
  (sall is_digit (group_of m 2) = true /\ 1 <= String.length (group_of m 2) <= 3).
Proof.
  unfold re_match. intros H. split.
  - apply (lang_rep_cls 4 None).
    apply (group_of_lang _ _ _ _ _ 1 (at_least 4 digit) H); [reflexivity | one_group].
  - apply lang_rep_cls_hi.
    apply (group_of_lang _ _ _ _ _ 2 (between 1 3 digit) H); [reflexivity | one_group].
Qed.

Lemma juri_listed_more js js' p :
  juri_listed js p -> juri_listed (js ++ js') p.
Proof.
  intros (j & Hj & H). exists j. split; [apply in_or_app; now left | exact H].
Qed.

Lemma programas_body_inv w0 line low st fl :
  programas_inv w0 st -> Programas.body line low st = Ok fl ->
  programas_inv w0 (flow_st fl).
Proof.
  intros (Hp & Hj & (ex & Hw)) H. unfold Programas.body in H.
  repeat walk H; fin_amounts; cbn [flow_st].
  all: unfold programas_inv;
    cbn [Programas.programas Programas.jurisdicciones Programas.warnings].
  all: try match goal with
           | E : re_match Programas._CODE_LINE_RE _ = Some _ |- _ =>
               apply code_line_groups in E as [[? ?] [? ?]]
           end.
  all: repeat match goal with
              | H : negb _ = true |- _ => apply negb_true_iff in H
              end.
  all: repeat match goal with
              | |- context [if negb (_is_total_row ?x) then _ else _] =>
                  let T := fresh "T" in
                  destruct (_is_total_row x) eqn:T; cbn [negb]
              end.
  all: split;
    [ first [ exact Hp
            | apply Forall_app; split; [exact Hp|];
              constructor; [|constructor];
              unfold prog_ok; cbn; intuition eauto 14 ] |].
  all: split;
    [ first [ exact Hj
            | eapply Forall_impl; [exact Hj|]; intros; now apply juri_listed_more
            | apply Forall_app; split;
              [ eapply Forall_impl; [exact Hj|]; intros; now apply juri_listed_more
              | constructor; [|constructor];
                eexists; split; [apply in_or_app; right; now left|]; cbn;
                (split; [reflexivity | first [discriminate | reflexivity]]) ] ]
    | first [ now exists ex
            | eexists; rewrite Hw, <- app_assoc; reflexivity ] ].
Qed.

Lemma programas_parse_inv (lines : list string) (w : list string) st :
  Programas.parse_lines lines w = Ok st -> programas_inv w st.
Proof.
  unfold Programas.parse_lines.
  apply (scan_inv _ _ _ (programas_inv w)).
  - apply programas_body_inv.
  - repeat split; [constructor | constructor | exists []; cbn; now rewrite app_nil_r].
Qed.

(** *** Accounts *)

Lemma lang_bol_inv (s : string) : lang Bol s -> s = EmptyString.
Proof. intros H. now inversion H. Qed.

Lemma lang_wb_inv (s : string) : lang Wb s -> s = EmptyString.
Proof. intros H. now inversion H. Qed.

Lemma lang_eol_inv (s : string) : lang Eol s -> s = EmptyString.
Proof. intros H. now inversion H. Qed.

Lemma cuentas_code_digits (s : string) (m : rmatch) :
  re_match Cuentas._CODE_RE s = Some m ->
  sall is_digit (m_text m) = true /\ 6 <= String.length (m_text m) <= 12.
Proof.
  unfold re_match. intros H. apply match_at_sound in H as [L _].
  unfold Cuentas._CODE_RE, cat_all in L.
  apply lang_cat_inv in L as (s1 & s2 & E & H1 & L).
  apply lang_cat_inv in L as (d & s3 & E2 & Hd & H3).
  apply lang_bol_inv in H1. apply lang_wb_inv in H3. subst s1 s3.
  rewrite str_app_nil_r in E2. subst s2. rewrite str_app_nil_l in E. rewrite E.
  now apply lang_rep_cls_hi.
Qed.

Lemma tipo_from_nombre_cases (name : string) :
  In (Cuentas._tipo_from_nombre name) ["BANCO"; "FONDOS"; "RECURSOS"; "CAJA"; "OTRO"].
Proof.
  unfold Cuentas._tipo_from_nombre.
  repeat match goal with |- context [if ?b then _ else _] => destruct b end;
    simpl; tauto.
Qed.

Lemma cuentas_body_inv line low rows fl :
  Forall cuenta_ok rows -> Cuentas.body line low rows = Ok fl ->
  Forall cuenta_ok (flow_st fl).
Proof.
  intros Hr H. unfold Cuentas.body in H.
  repeat walk H; fin_amounts; cbn [flow_st]; try exact Hr.
  all: try match goal with
           | E : re_match Cuentas._CODE_RE _ = Some _ |- _ =>
               apply cuentas_code_digits in E as [? ?]
           end.
  all: repeat match goal with
              | H : negb _ = false |- _ => apply negb_false_iff in H
              | H : negb _ = true |- _ => apply negb_true_iff in H
              end.
  all: apply Forall_app; split; [exact Hr|]; constructor; [|constructor].
  all: unfold cuenta_ok; cbn.
  all: repeat split; eauto.
  all: try lia.
  match goal with |- context [negb (nonempty ?x)] => destruct (nonempty x) eqn:N end;
    cbn [negb]; [exact N|].
  match goal with
  | H1 : 6 <= String.length ?c <= 12 |- nonempty ?c = true =>
      destruct c; [simpl in H1; lia | reflexivity]
  end.
Qed.

Lemma cuentas_parse_inv (lines : list string) (w : list string) rows w' :
  Cuentas.parse_lines lines w = Ok (rows, w') -> Forall cuenta_ok rows.
Proof.
  unfold Cuentas.parse_lines. intros H. apply bind_inv in H as (rs & E & H).
  injection H as <- _.
  revert E. apply (scan_inv _ _ _ (Forall cuenta_ok)).
  - apply cuentas_body_inv.
  - constructor.
Qed.

(** *** The balance sheet *)

Lemma sitpat_tipo_saldo (name : string) (saldo : option pyfloat) :
  SitPat._tipo_from_name name saldo
  = if contains "activo" (normalize_key name) then "ACTIVO" else "PASIVO_PATRIMONIO".
Proof.
  unfold SitPat._tipo_from_name.
  repeat match goal with |- context [if ?b then _ else _] => destruct b end;
    reflexivity.
Qed.

Lemma sitpat_table_functional (k l1 l2 : string) :
  In (k, l1) SitPat._CODE_NAME_MAP -> In (k, l2) SitPat._CODE_NAME_MAP -> l1 = l2.
Proof.
  unfold SitPat._CODE_NAME_MAP. cbn [In]. intros H1 H2.
  repeat (destruct H1 as [H1|H1]; [injection H1 as <- <-|]); [..|destruct H1].
  all: repeat (destruct H2 as [H2|H2];
               [first [discriminate H2 | now injection H2 as <-]|]); destruct H2.
Qed.

Lemma pick_amount_fin line code x :
  SitPat._pick_amount_after_code line code = Ok (Some x) -> exists q, x = PFin q.
Proof.
  unfold SitPat._pick_amount_after_code. intros H.
  destruct (_ <? 0)%Z; [discriminate|]. cbv zeta in H.
  destruct (Nat.ltb 0 _); [|discriminate].
  apply bind_inv in H as (y & E & H). unfold mret, exc_ret in H.
  injection H as <-. now apply amount_at_fin in E.
Qed.

Lemma record_codes_keeps entries line : forall found found',
  (forall e, In e entries -> In e SitPat._CODE_NAME_MAP) ->
  sitpat_keyed found ->
  SitPat.record_codes entries line found = Ok found' ->
  sitpat_keyed found'.
Proof.
  induction entries as [|[code label] entries IH]; intros found found' Hsub Hf H;
    cbn [SitPat.record_codes] in H.
  - unfold mret, exc_ret in H. now injection H as <-.
  - assert (Hsub' : forall e, In e entries -> In e SitPat._CODE_NAME_MAP)
      by (intros e He; apply Hsub; now right).
    destruct (contains code line && _); [|now apply (IH found)].
    apply bind_inv in H as ([x|] & E & H); [|now apply (IH found)].
    apply pick_amount_fin in E as [q ->].
    revert H. apply IH; [exact Hsub'|].
    intros k r Hk. unfold SitPat.state in *.
    destruct (decide (code = k)) as [<-|Hne].
    + rewrite lookup_insert_eq in Hk. injection Hk as <-. cbn.
      repeat split; eauto. apply Hsub. now left.
    + rewrite lookup_insert_ne in Hk by exact Hne. now apply Hf.
Qed.

Lemma sitpat_body_inv line low found fl :
  sitpat_keyed found -> SitPat.body line low found = Ok fl ->
  sitpat_keyed (flow_st fl).
Proof.
  intros Hf H. unfold SitPat.body in H.
  repeat walk H; cbn [flow_st]; try exact Hf.
  all: match goal with
       | E : SitPat.record_codes _ _ _ = Ok _ |- _ =>
           apply record_codes_keeps in E; [exact E | auto | exact Hf]
       end.
Qed.

Lemma sitpat_collect_sublist (found : SitPat.state) (entries : list (string * string)) :
  sitpat_keyed found ->
  (forall e, In e entries -> In e SitPat._CODE_NAME_MAP) ->
  sublist (map sitpat_pair (omap (fun '(code, _) => found !! code) entries)) entries.
Proof.
  intros Hf. induction entries as [|[code label] entries IH]; intros Hsub.
  - constructor.
  - assert (Hsub' : forall e, In e entries -> In e SitPat._CODE_NAME_MAP)
      by (intros e He; apply Hsub; now right).
    cbn [omap list_omap]. destruct (found !! code) as [r|] eqn:E.
    + cbn [map]. destruct (Hf _ _ E) as (Hc & Hn & _).
      assert (Hl : SitPat.SitPat_Nombre r = label)
        by (eapply sitpat_table_functional; [exact Hn | apply Hsub; now left]).
      unfold sitpat_pair at 1. rewrite Hc, Hl.
      apply sublist_skip. now apply IH.
    + apply sublist_cons. now apply IH.
Qed.

Lemma sitpat_collect_rows (found : SitPat.state) (entries : list (string * string)) :
  sitpat_keyed found ->
  Forall (fun r =>
            (exists q, SitPat.SitPat_Saldo r = PFin q) /\
            SitPat.SitPat_Tipo r
            = (if String.prefix "1" (SitPat.SitPat_Codigo r)
               then "ACTIVO" else "PASIVO_PATRIMONIO"))
         (omap (fun '(code, _) => found !! code) entries).
Proof.
  intros Hf. induction entries as [|[code label] entries IH]; [constructor|].
  cbn [omap list_omap]. destruct (found !! code) as [r|] eqn:E; [|exact IH].
  constructor; [|exact IH].
  destruct (Hf _ _ E) as (Hc & Hn & Hq & Ht). split; [exact Hq|].
  rewrite Ht, sitpat_tipo_saldo, Hc. clear - Hn.
  unfold SitPat._CODE_NAME_MAP in Hn. cbn [In] in Hn.
  repeat (destruct Hn as [Hn|Hn]; [injection Hn as <- <-; vm_compute; reflexivity|]).
  destruct Hn.
Qed.

Lemma sitpat_parse_keyed (lines : list string) found :
  scan (contains SitPat._SECTION_START) SitPat._SECTION_END_KEYWORDS SitPat.body
       lines false ∅ = Ok found ->
  sitpat_keyed found.
Proof.
  apply (scan_inv _ _ _ sitpat_keyed).
  - apply sitpat_body_inv.
  - intros k r Hk. unfold SitPat.state in *. rewrite lookup_empty in Hk. discriminate.
Qed.

(** *** Treasury movements *)

Lemma record_first_keyed types line low line' : forall found found',
  mov_keyed found ->
  Movimientos.record_first types line low (find_amounts line') found = Ok found' ->
  mov_keyed found'.
Proof.
  induction types as [|[slug label] types IH]; intros found found' Hf H;
    cbn [Movimientos.record_first] in H.
  - unfold mret, exc_ret in H. now injection H as <-.
  - destruct (contains label low && negb (Movimientos.has found slug)); [|eauto].
    apply bind_inv in H as (x & E & H). apply amount_at_fin in E as [q ->].
    unfold mret, exc_ret in H. injection H as <-.
    intros k r Hk. unfold Movimientos.state in *.
    destruct (decide (slug = k)) as [<-|Hne].
    + rewrite lookup_insert_eq in Hk. injection Hk as <-. cbn. eauto.
    + rewrite lookup_insert_ne in Hk by exact Hne. now apply Hf.
Qed.

Lemma movimientos_body_keyed line low found fl :
  mov_keyed found -> Movimientos.body line low found = Ok fl ->
  mov_keyed (flow_st fl).
Proof.
  intros Hf H. unfold Movimientos.body in H.
  repeat walk H; cbn [flow_st]; try exact Hf.
  all: match goal with
       | E : Movimientos.record_first _ _ _ _ _ = Ok _ |- _ =>
           apply record_first_keyed in E; [exact E | exact Hf]
       end.
Qed.

Lemma movimientos_parse_keyed (lines : list string) found :
  scan (contains Movimientos._SECTION_START) Movimientos._SECTION_END_KEYWORDS
       Movimientos.body lines false ∅ = Ok found ->
  mov_keyed found.
Proof.
  apply (scan_inv _ _ _ mov_keyed).
  - apply movimientos_body_keyed.
  - intros k r Hk. unfold Movimientos.state in *. rewrite lookup_empty in Hk.
    discriminate.
Qed.

Lemma movimientos_collect_pairs (found : Movimientos.state) :
  Movimientos.collect found
  = omap id [ found !! "Saldo Inicial"; found !! "Ingreso"; found !! "Ingreso";
              found !! "Egreso"; found !! "Egreso"; found !! "Saldo Inicial" ].
Proof.
  unfold Movimientos.collect, Movimientos._MOV_TYPES. cbn [omap list_omap].
  unfold Movimientos.state in *.
  destruct (found !! "Saldo Inicial"), (found !! "Ingreso"), (found !! "Egreso");
    reflexivity.
Qed.

(** *** Goals *)

Lemma py_float_whole_fin (sg : string) (d : ascii) (D : string) :
  sg = EmptyString \/ sg = "-" ->
  sall is_digit (String d D) = true ->
  exists q, Metas.float_of (sg +:+ String d D) = Ok (PFin q).
Proof.
  intros Hsg HD. destruct (py_float_whole sg d D Hsg HD) as [q Hq].
  exists q. unfold Metas.float_of. now rewrite Hq.
Qed.

Lemma dotted_token_fin (sg d g : string) :
  (sg = EmptyString \/ sg = "-") ->
  sall is_digit d = true -> 1 <= String.length d -> sall digit_or_dot g = true ->
  exists q, Metas.float_of (replace_char "." EmptyString (sg +:+ d +:+ g)) = Ok (PFin q).
Proof.
  intros Hsg Hd Hdn Hg.
  rewrite !replace_char_app.
  assert (E1 : replace_char "." EmptyString sg = sg) by (destruct Hsg; now subst).
  rewrite E1.
  rewrite (replace_char_id "." _ d)
    by (apply (sall_impl is_digit); [apply digit_not_dot | exact Hd]).
  apply nonempty_of_length in Hdn as (d0 & D & ->).
  rewrite str_app_cons.
  apply py_float_whole_fin; [exact Hsg|].
  simpl. simpl in Hd. apply andb_true_iff in Hd as [Hd0 HD].
  rewrite Hd0, sall_app, HD. simpl. now apply replace_dot_digits.
Qed.

Lemma num_token_fin (t : string) (x : pyfloat) :
  lang Metas._NUM_TOKEN_RE t ->
  (if contains "," t then parse_amount_ar t
   else Metas.float_of (replace_char "." EmptyString t)) = Ok x ->
  is_fin x.
Proof.
  unfold Metas._NUM_TOKEN_RE, alt_all. intros H Hx.
  apply lang_alt_inv in H as [H|H].
  - rewrite (comma_in_amount t H) in Hx.
    destruct (parse_amount_ar_token t H) as [q Hq]. exists q. congruence.
  - apply lang_alt_inv in H as [H|H].
    + unfold cat_all in H.
      apply lang_cat_inv in H as (sg & t1 & -> & Hsg & H).
      apply lang_cat_inv in H as (d & g & -> & Hd & Hg).
      apply lang_opt_chr in Hsg. apply lang_rep_cls in Hd as [Hd1 Hd2].
      apply lang_rep_inv in Hg as (n & Hg & _). apply reps_dot_group in Hg.
      destruct (dotted_token sg d g Hsg Hd1 Hd2 Hg) as [Hc _]. rewrite Hc in Hx.
      destruct (dotted_token_fin sg d g Hsg Hd1 Hd2 Hg) as [q Hq].
      exists q. congruence.
    + apply lang_rep_cls in H as [H1 H2].
      destruct (dotted_token EmptyString t EmptyString (or_introl eq_refl) H1 H2
                  eq_refl) as [Hc _].
      destruct (dotted_token_fin EmptyString t EmptyString (or_introl eq_refl) H1 H2
                  eq_refl) as [q Hq].
      rewrite str_app_nil_l, str_app_nil_r in Hc, Hq. rewrite Hc in Hx.
      exists q. congruence.
Qed.

Lemma parse_tokens_fin (tokens : list string) : forall xs,
  Forall (lang Metas._NUM_TOKEN_RE) tokens ->
  Metas.parse_tokens tokens = Ok xs -> Forall is_fin xs.
Proof.
  induction tokens as [|t tokens IH]; intros xs Ht H; cbn [Metas.parse_tokens] in H.
  - unfold mret, exc_ret in H. injection H as <-. constructor.
  - apply Forall_cons in Ht as [Ht Hts].
    apply bind_inv in H as (x & Ex & H). apply bind_inv in H as (ys & Ey & H).
    unfold mret, exc_ret in H. injection H as <-.
    constructor; [now apply (num_token_fin t) | now apply IH].
Qed.

Lemma parse_numeric_tokens_fin (text : string) (nums : list pyfloat) :
  Metas._parse_numeric_tokens text = Ok nums -> Forall is_fin nums.
Proof.
  unfold Metas._parse_numeric_tokens. apply parse_tokens_fin.
  apply Forall_forall. intros t Ht. apply list_elem_of_In in Ht.
  eapply re_findall_sound. exact Ht.
Qed.

Lemma py_index_in {A} (l : list A) (i : Z) (x : A) :
  py_index l i = Ok x -> In x l.
Proof.
  unfold py_index. intros H.
  destruct (_ || _); [discriminate|].
  destruct (l !! _) as [y|] eqn:E; [|discriminate].
  injection H as <-. apply list_elem_of_In. eapply list_elem_of_lookup_2. exact E.
Qed.

Lemma py_index_fin (l : list pyfloat) (i : Z) (x : pyfloat) :
  Forall is_fin l -> py_index l i = Ok x -> is_fin x.
Proof.
  intros Hl H. apply py_index_in in H.
  rewrite Forall_forall in Hl. apply Hl. now apply list_elem_of_In.
Qed.

Lemma prog_header_groups (line : string) (m : rmatch) :
  re_match Metas._PROG_HEADER_RE line = Some m ->
  (sall is_digit (group_of m 1) = true /\ String.length (group_of m 1) = 10) /\
  (sall is_digit (group_of m 2) = true /\ 1 <= String.length (group_of m 2)).
Proof.
  unfold re_match. intros H. split.
  - assert (L : lang (times 10 digit) (group_of m 1))
      by (apply (group_of_lang _ _ _ _ _ 1 _ H); [reflexivity | one_group]).
    apply lang_rep_cls_hi in L as [L1 L2]. split; [exact L1 | lia].
  - apply (lang_rep_cls 1 None).
    apply (group_of_lang _ _ _ _ _ 2 (plus digit) H); [reflexivity | one_group].
Qed.

Lemma fill_ok (pending : Metas.row) (nums : list pyfloat) (r : Metas.row) :
  meta_head_ok pending -> Forall is_fin nums ->
  Metas.fill pending nums = Ok r -> meta_row_ok r.
Proof.
  intros Hp Hn H. unfold Metas.fill in H.
  apply bind_inv in H as (a & Ea & H).
  apply bind_inv in H as (p & Ep & H).
  apply bind_inv in H as (e & Ee & H).
  unfold mret, exc_ret in H. injection H as <-.
  assert (Fa : is_fin a) by (destruct (Nat.leb 4 _); eapply py_index_fin; eauto).
  apply (py_index_fin _ _ _ Hn) in Ep, Ee.
  destruct Fa as [qa ->], Ep as [qp ->], Ee as [qe ->].
  split; [exact Hp|]. cbn. repeat split; eauto.
Qed.

Lemma metas_body_inv line low st fl :
  metas_inv st -> Metas.body line low st = Ok fl -> metas_inv (flow_st fl).
Proof.
  intros (Hr & Hj & Hc & Hp) H. unfold Metas.body in H.
  repeat walk H; cbn [flow_st]; try (now repeat split).
  all: try match goal with
           | E : re_match Metas._PROG_HEADER_RE _ = Some _ |- _ =>
               apply prog_header_groups in E as [[? ?] [? ?]]
           end.
  all: try match goal with
           | E : Metas._parse_numeric_tokens _ = Ok _ |- _ =>
               apply parse_numeric_tokens_fin in E
           end.
  all: unfold metas_inv, Metas.emit, Metas.with_pending;
    cbn [Metas.rows Metas.current_juri Metas.current_prog_code
         Metas.current_prog_name Metas.pending_meta].
  all: repeat match goal with
              | |- _ /\ _ => split
              end.
  all: try assumption.
  all: try (apply Forall_app; split; [exact Hr|]; constructor; [|constructor];
            eapply fill_ok; [|eassumption|eassumption]).
  all: intros.
  all: try congruence.
  all: repeat match goal with
              | H1 : ?x = Some ?s, H2 : ?x = Some ?t |- _ =>
                  rewrite H1 in H2; injection H2 as <-
              | H : Some _ = Some _ |- _ => injection H as <-
              end.
  all: try (apply Hp; reflexivity).
  all: try (unfold meta_head_ok; cbn; repeat split).
  all: try assumption.
  all: first [now apply Hj | now apply Hc].
Qed.

Lemma metas_parse_inv (lines : list string) st :
  scan (contains Metas._SECTION_START) Metas._SECTION_END_KEYWORDS Metas.body
       lines false
       {| Metas.rows := []; Metas.current_juri := None;
          Metas.current_prog_code := None; Metas.current_prog_name := None;
          Metas.pending_meta := None |} = Ok st ->
  metas_inv st.
Proof.
  apply (scan_inv _ _ _ metas_inv).
  - apply metas_body_inv.
  - split; [apply List.Forall_nil|].
    split; [|split]; intros x Hx; discriminate Hx.
Qed.









Lemma scan_closed {S : Type} (is_start : string -> bool) (end_keywords : list string)
    (body : string -> string -> S -> exc (flow S)) (lines : list string) (st : S) :
  (forall l, In l lines -> opens_section is_start l = false) ->
  scan is_start end_keywords body lines false st = Ok st.
Proof.
  induction lines as [|l lines IH]; intros H; [reflexivity|].
  cbn [scan]. cbv zeta.
  assert (Hl := H l (or_introl eq_refl)). unfold opens_section in Hl.
  destruct (nonempty (normalize_name l)); cbn [negb].
  - cbn [andb] in Hl. rewrite Hl. apply IH. intros l' Hl'. apply H. now right.
  - apply IH. intros l' Hl'. apply H. now right.
Qed.





(** ** The value of an amount *)

Lemma sfilter_app p (s t : string) : sfilter p (s +:+ t) = sfilter p s +:+ sfilter p t.
Proof.
  induction s as [|c s IH]; [reflexivity|]. rewrite str_app_cons. simpl.
  destruct (p c); [now rewrite str_app_cons, IH | exact IH].
Qed.

Lemma sfilter_all p (s : string) : sall p s = true -> sfilter p s = s.
Proof.
  induction s as [|c s IH]; simpl; [easy|].
  intros H. apply andb_true_iff in H as [Hc Hs]. now rewrite Hc, IH.
Qed.

Lemma sfilter_digits_dotted (g : string) :
  sall digit_or_dot g = true ->
  sfilter is_digit g = replace_char "." EmptyString g.
Proof.
  induction g as [|c g IH]; simpl; [easy|].
  intros H. apply andb_true_iff in H as [Hc Hg].
  destruct (Ascii.eqb c ".") eqn:E.
  - apply Ascii.eqb_eq in E. subst c. rewrite str_app_nil_l. now apply IH.
  - unfold digit_or_dot in Hc. rewrite E, orb_false_r in Hc. now rewrite Hc, IH.
Qed.

(** A sign-free plain numeral denotes its digits, scaled by the number of
    digits after the point. *)
Lemma float_body_plain_value (neg : bool) (d f : ascii) (D F : string) :
  sall is_digit (String d D) = true -> sall is_digit (String f F) = true ->
  float_body neg (String d D +:+ String "." (String f F))
  = Some (PFin (decimal
                  (if neg then (- digits_val (String d D +:+ String f F))%Z
                   else digits_val (String d D +:+ String f F))
                  (String.length (String f F)))).
Proof.
  intros HD HF. unfold float_body. cbv zeta.
  assert (Hd : is_digit d = true) by (simpl in HD; now apply andb_true_iff in HD).
  rewrite str_app_cons.
  destruct (not_special_digit d (D +:+ String "." (String f F)) Hd) as [E1 E2].
  rewrite E1, E2. rewrite <- str_app_cons.
  rewrite (scan_digitpart_digits d D _ HD) by (split; reflexivity).
  pose proof (scan_digitpart_digits f F EmptyString HF I) as HFs.
  rewrite str_app_nil_r in HFs. rewrite HFs.
  cbn [nonempty negb andb]. unfold scaled.
  set (n := String.length (String f F)).
  assert (Hn : (0 <=? - Z.of_nat n)%Z = false) by (apply Z.leb_gt; subst n; simpl; lia).
  rewrite Hn. rewrite Z.opp_involutive, Nat2Z.id. reflexivity.
Qed.

Lemma py_float_plain_value (sg : string) (d f : ascii) (D F : string) :
  sg = EmptyString \/ sg = "-" ->
  sall is_digit (String d D) = true -> sall is_digit (String f F) = true ->
  py_float (sg +:+ String d D +:+ String "." (String f F))
  = Some (PFin (decimal
                  (if String.eqb sg "-"
                   then (- digits_val (String d D +:+ String f F))%Z
                   else digits_val (String d D +:+ String f F))
                  (String.length (String f F)))).
Proof.
  intros Hsg HD HF.
  assert (Hns : sall not_space (String d D +:+ String "." (String f F)) = true).
  { rewrite sall_app. apply andb_true_iff. split.
    - apply (sall_impl is_digit); [apply digit_not_space | exact HD].
    - change (sall not_space (String "." (String f F)))
        with (sall not_space (String f F)).
      apply (sall_impl is_digit); [apply digit_not_space | exact HF]. }
  assert (Hd : is_digit d = true) by (simpl in HD; now apply andb_true_iff in HD).
  unfold py_float. destruct Hsg as [-> | ->].
  - rewrite str_app_nil_l, (strip_id _ Hns).
    rewrite str_app_cons, (scan_sign_digit d _ Hd), <- str_app_cons.
    apply (float_body_plain_value false d f D F HD HF).
  - rewrite strip_id by (rewrite str_app_cons; simpl; exact Hns).
    change (scan_sign ("-" +:+ String d D +:+ String "." (String f F)))
      with (true, String d D +:+ String "." (String f F)).
    apply (float_body_plain_value true d f D F HD HF).
Qed.

(** The shape of an amount token, with its two decimals. *)
Lemma amount_shape_two (t : string) :
  lang AMOUNT_RE t ->
  exists sg d g f,
    t = sg +:+ d +:+ g +:+ String "," f /\
    (sg = EmptyString \/ sg = "-") /\
    sall is_digit d = true /\ 1 <= String.length d /\
    sall digit_or_dot g = true /\
    sall is_digit f = true /\ String.length f = 2.
Proof.
  unfold AMOUNT_RE, cat_all. intros H.
  apply lang_cat_inv in H as (sg & t1 & -> & Hsg & H).
  apply lang_cat_inv in H as (d & t2 & -> & Hd & H).
  apply lang_cat_inv in H as (g & t3 & -> & Hg & H).
  apply lang_cat_inv in H as (cm & f & -> & Hcm & Hf).
  apply lang_opt_chr in Hsg.
  apply lang_rep_cls in Hd as [Hd1 Hd2].
  apply lang_rep_inv in Hg as (n & Hg & _). apply reps_dot_group in Hg.
  apply lang_cls_inv in Hcm as (c & -> & Hc). apply Ascii.eqb_eq in Hc. subst c.
  apply lang_rep_cls_hi in Hf as [Hf1 Hf2].
  exists sg, d, g, f. repeat split; try assumption; lia.
Qed.



(** ** The two normalisers side by side *)

Lemma lstrip_by_length p (s : string) :
  String.length (lstrip_by p s) <= String.length s.
Proof.
  induction s as [|c s IH]; simpl; [lia|]. destruct (p c); simpl; lia.
Qed.

Lemma rstrip_by_length p (s : string) :
  String.length (rstrip_by p s) <= String.length s.
Proof.
  induction s as [|c s IH]; simpl; [lia|].
  destruct (rstrip_by p s) as [|d r]; [destruct (p c)|]; simpl in *; lia.
Qed.

Lemma rstrip_by_last p (s : string) (c : ascii) :
  rstrip_by p s = s -> ends_with_char s c = true -> p c = false.
Proof.
  induction s as [|d s IH]; simpl; [discriminate|].
  destruct s as [|e s].
  - simpl. destruct (p d) eqn:E; [discriminate|].
    intros _ H. apply Ascii.eqb_eq in H. now subst.
  - intros H1 H2. apply IH; [|exact H2].
    destruct (rstrip_by p (String e s)) as [|x r] eqn:R.
    + destruct (p d); discriminate H1.
    + injection H1 as -> ->. reflexivity.
Qed.

(** A string that [strip("()")] leaves as it is neither begins nor ends
    with a parenthesis. *)
Lemma strip_chars_fixed (chars : string) (c : ascii) (r : string) :
  strip_chars chars (String c r) = String c r ->
  mem_char c chars = false /\
  forall x, ends_with_char (String c r) x = true -> mem_char x chars = false.
Proof.
  unfold strip_chars. intros H.
  assert (Hc : mem_char c chars = false).
  { destruct (mem_char c chars) eqn:E; [|reflexivity]. exfalso.
    cbn [lstrip_by] in H. rewrite E in H.
    pose proof (rstrip_by_length (fun c => mem_char c chars)
                  (lstrip_by (fun c => mem_char c chars) r)) as L1.
    pose proof (lstrip_by_length (fun c => mem_char c chars) r) as L2.
    rewrite H in L1. simpl in L1. lia. }
  split; [exact Hc|]. intros x Hx.
  cbn [lstrip_by] in H. rewrite Hc in H.
  exact (rstrip_by_last _ _ _ H Hx).
Qed.

Lemma rstrip_by_app_keep p (t u : string) :
  sall (fun c => negb (p c)) t = true ->
  rstrip_by p (t +:+ u) = t +:+ rstrip_by p u.
Proof.
  induction t as [|c t IH]; [reflexivity|]. simpl.
  intros H. apply andb_true_iff in H as [Hc Ht]. apply negb_true_iff in Hc.
  rewrite str_app_cons. simpl. rewrite (IH Ht).
  destruct (t +:+ rstrip_by p u) eqn:E; [now rewrite Hc | reflexivity].
Qed.

Lemma ends_with_char_app (t : string) (c : ascii) :
  ends_with_char (t +:+ String c EmptyString) c = true.
Proof.
  induction t as [|d t IH]; [simpl; apply Ascii.eqb_refl|].
  rewrite str_app_cons. simpl.
  destruct (t +:+ String c EmptyString) eqn:E; [|exact IH].
  destruct t; discriminate E.
Qed.

(** X11. On an input with no parenthesis at either end (one that
    [strip("()")] leaves as it is) the two normalisers agree: where
    [parse_amount_ar] returns a number [normalize_number] returns the same
    number, and where it raises [normalize_number] returns [None].  On a
    text without blanks or parentheses put between parentheses,
    [normalize_number] returns the negation of what it returns for the
    text itself. *)
Theorem normalizers_agree :
  (forall s : string,
     strip_chars "()" (strip s) = strip s ->
     normalize_number s
     = match parse_amount_ar s with Ok x => Some x | Raise _ => None end) /\
  (forall t : string,
     nonempty t = true ->
     sall (fun c => negb (mem_char c "()") && negb (is_space c)) t = true ->
     normalize_number ("(" +:+ t +:+ ")") = fneg <$> normalize_number t).
Proof.
  split.
  - intros s H. unfold normalize_number, parse_amount_ar. cbv zeta.
    destruct (strip s) as [|c r] eqn:E; [reflexivity|]. cbn [nonempty negb].
    destruct (strip_chars_fixed "()" c r H) as [Hc _].
    rewrite H.
    assert (Hs : startswith (String c r) "(" = false).
    { unfold startswith. rewrite prefix_char. simpl in Hc.
      now apply orb_false_iff in Hc as [Hc _]. }
    rewrite Hs. cbn [andb]. now destruct (py_float _).
  - intros t Hne Ht.
    assert (Hp : sall (fun c => negb (mem_char c "()")) t = true)
      by (revert Ht; apply sall_impl; intros c Hc;
          now apply andb_true_iff in Hc as [Hc _]).
    assert (Hsp : sall not_space t = true)
      by (revert Ht; apply sall_impl; intros c Hc;
          now apply andb_true_iff in Hc as [_ Hc]).
    assert (Hsp' : sall not_space ("(" +:+ t +:+ ")") = true)
      by (rewrite str_app_cons, str_app_nil_l; simpl; now rewrite sall_app, Hsp).
    unfold normalize_number. cbv zeta.
    rewrite (strip_id _ Hsp), (strip_id _ Hsp'), Hne. cbn [negb].
    assert (Hne' : nonempty ("(" +:+ t +:+ ")") = true) by reflexivity.
    rewrite Hne'. cbn [negb].
    assert (Hst : startswith ("(" +:+ t +:+ ")") "(" = true).
    { unfold startswith. rewrite str_app_cons, str_app_nil_l, prefix_char. reflexivity. }
    assert (Hen : ends_with_char ("(" +:+ t +:+ ")") ")" = true).
    { rewrite <- str_app_assoc. apply ends_with_char_app. }
    rewrite Hst, Hen. cbn [andb].
    assert (Hstrip : strip_chars "()" ("(" +:+ t +:+ ")") = t).
    { unfold strip_chars. rewrite str_app_cons, str_app_nil_l.
      cbn [lstrip_by mem_char Ascii.eqb Bool.eqb orb].
      destruct t as [|c r]; [discriminate Hne|].
      rewrite str_app_cons. simpl in Hp. apply andb_true_iff in Hp as [Hc Hr].
      apply negb_true_iff in Hc. rewrite lstrip_by_id by exact Hc.
      rewrite <- str_app_cons.
      rewrite rstrip_by_app_keep
        by (simpl; apply andb_true_iff; split; [now apply negb_true_iff | exact Hr]).
      simpl. now rewrite str_app_nil_r. }
    rewrite Hstrip.
    assert (Hstrip' : strip_chars "()" t = t).
    { unfold strip_chars. destruct t as [|c r]; [reflexivity|].
      simpl in Hp. pose proof Hp as Hp'. apply andb_true_iff in Hp as [Hc Hr].
      apply negb_true_iff in Hc. rewrite lstrip_by_id by exact Hc.
      now apply rstrip_by_id. }
    rewrite Hstrip'.
    assert (Hneg : startswith t "(" && ends_with_char t ")" = false).
    { destruct t as [|c r]; [reflexivity|]. unfold startswith. rewrite prefix_char.
      simpl in Hp. apply andb_true_iff in Hp as [Hc _].
      apply negb_true_iff in Hc. simpl in Hc.
      apply orb_false_iff in Hc as [Hc _]. now rewrite Hc. }
    rewrite Hneg. now destruct (py_float _).
Qed.

Lemma normalizers_agree_witness :
  strip_chars "()" (strip " 1.234,56 ") = strip " 1.234,56 " /\
  normalize_number " 1.234,56 "
  = match parse_amount_ar " 1.234,56 " with Ok x => Some x | Raise _ => None end.
Proof.
  split; [reflexivity|].
  exact (proj1 normalizers_agree " 1.234,56 " eq_refl).
Defined.


(** ** Names in canonical form *)

Lemma split_ws_words (s : string) : Forall is_word_str (split_ws s).
Proof.
  induction s as [|c s IH]; [constructor|]. cbn [split_ws].
  destruct (is_space c) eqn:Ec; [exact IH|].
  assert (Hc : not_space c = true) by (unfold not_space; now rewrite Ec).
  destruct (starts_word s).
  - destruct (split_ws s) as [|w ws]; [repeat constructor; simpl; now rewrite Hc|].
    apply Forall_cons in IH as [[_ Hw] Hws].
    constructor; [|exact Hws]. split; [reflexivity | simpl; now rewrite Hc, Hw].
  - constructor; [|exact IH]. split; [reflexivity | simpl; now rewrite Hc].
Qed.

Lemma split_ws_word_app (w r : string) :
  is_word_str w ->
  split_ws (w +:+ String " " r) = w :: split_ws r.
Proof.
  intros [Hne Hw]. induction w as [|c w IH]; [discriminate Hne|].
  simpl in Hw. apply andb_true_iff in Hw as [Hc Hw].
  unfold not_space in Hc. apply negb_true_iff in Hc.
  rewrite str_app_cons. cbn [split_ws]. rewrite Hc.
  destruct w as [|d w].
  - rewrite str_app_nil_l. cbn [starts_word]. cbn. reflexivity.
  - assert (Hd : is_space d = false).
    { simpl in Hw. apply andb_true_iff in Hw as [Hd _]. now apply negb_true_iff in Hd. }
    rewrite str_app_cons. cbn [starts_word]. rewrite Hd. cbn [negb].
    rewrite <- str_app_cons. rewrite IH by (reflexivity || exact Hw). reflexivity.
Qed.

Lemma split_ws_word (w : string) : is_word_str w -> split_ws w = [w].
Proof.
  intros [Hne Hw]. induction w as [|c w IH]; [discriminate Hne|].
  simpl in Hw. apply andb_true_iff in Hw as [Hc Hw].
  unfold not_space in Hc. apply negb_true_iff in Hc.
  cbn [split_ws]. rewrite Hc.
  destruct w as [|d w]; [reflexivity|].
  assert (Hd : is_space d = false).
  { simpl in Hw. apply andb_true_iff in Hw as [Hd _]. now apply negb_true_iff in Hd. }
  cbn [starts_word]. rewrite Hd. cbn [negb].
  rewrite IH by (reflexivity || exact Hw). reflexivity.
Qed.

Lemma split_ws_join (ws : list string) :
  Forall is_word_str ws -> split_ws (join " " ws) = ws.
Proof.
  induction 1 as [|w ws Hw Hws IH]; [reflexivity|].
  destruct ws as [|w' ws'].
  - simpl. now apply split_ws_word.
  - change (join " " (w :: w' :: ws')) with (w +:+ " " +:+ join " " (w' :: ws')).
    rewrite str_app_cons, str_app_nil_l.
    rewrite (split_ws_word_app w _ Hw). now rewrite IH.
Qed.

Lemma split_ws_lstrip (s : string) : split_ws (lstrip_by is_space s) = split_ws s.
Proof.
  induction s as [|c s IH]; [reflexivity|]. cbn [lstrip_by split_ws].
  destruct (is_space c) eqn:E; [exact IH|]. cbn [split_ws]. now rewrite E.
Qed.

Lemma rstrip_by_head p (s : string) (x : ascii) (y : string) :
  rstrip_by p s = String x y -> exists z, s = String x z.
Proof.
  destruct s as [|c s]; [discriminate|]. simpl.
  destruct (rstrip_by p s); [destruct (p c)|]; intros H;
    first [discriminate H | injection H as <- _; eauto].
Qed.

Lemma split_ws_rstrip (s : string) : split_ws (rstrip_by is_space s) = split_ws s.
Proof.
  induction s as [|c s IH]; [reflexivity|]. cbn [rstrip_by].
  destruct (rstrip_by is_space s) as [|x y] eqn:R.
  - cbn [split_ws] in IH. cbn [split_ws]. rewrite <- IH.
    destruct (is_space c) eqn:E; [reflexivity|].
    cbn [split_ws]. rewrite E. cbn [starts_word].
    destruct (starts_word s); reflexivity.
  - destruct (rstrip_by_head _ _ _ _ R) as [z ->].
    change (split_ws (String c (String x y)))
      with (if is_space c then split_ws (String x y)
            else if starts_word (String x y) then
              match split_ws (String x y) with
              | w :: ws => String c w :: ws
              | [] => [String c EmptyString]
              end
            else String c EmptyString :: split_ws (String x y)).
    change (split_ws (String c (String x z)))
      with (if is_space c then split_ws (String x z)
            else if starts_word (String x z) then
              match split_ws (String x z) with
              | w :: ws => String c w :: ws
              | [] => [String c EmptyString]
              end
            else String c EmptyString :: split_ws (String x z)).
    rewrite IH. reflexivity.
Qed.

Lemma split_ws_strip (s : string) : split_ws (strip s) = split_ws s.
Proof. unfold strip. now rewrite split_ws_rstrip, split_ws_lstrip. Qed.

Lemma split_ws_blank (s : string) : split_ws s = [] <-> sall is_space s = true.
Proof.
  induction s as [|c s IH]; [easy|]. cbn [split_ws sall].
  destruct (is_space c); cbn [andb]; [exact IH|].
  split; [|discriminate].
  destruct (starts_word s); [destruct (split_ws s)|]; discriminate.
Qed.

Lemma join_words_nonempty (w : string) (ws : list string) :
  is_word_str w -> nonempty (join " " (w :: ws)) = true.
Proof.
  intros [Hne _]. destruct w as [|c w]; [discriminate|].
  destruct ws; reflexivity.
Qed.



(** ** Jurisdictions written once per key *)

Lemma truthy_default (k : option string) :
  truthy k = true -> k = Some (default EmptyString k).
Proof. destruct k; [reflexivity | discriminate]. Qed.

Lemma juri_rows_from_spec (doc_id : string) (id_muni : option string)
    (js : list Programas.juri) : forall seen : gset string,
  let rows := RunnerJuris.juri_rows_from doc_id id_muni js seen in
  Forall (fun r =>
            truthy (RunnerJuris.row_key r) = true /\
            (default EmptyString (RunnerJuris.row_key r) ∉ seen) /\
            exists j, In j js /\ r = RunnerJuris.row_of doc_id id_muni j) rows /\
  NoDup (map RunnerJuris.row_key rows) /\
  sublist rows (map (RunnerJuris.row_of doc_id id_muni) js) /\
  (forall j, In j js -> truthy (RunnerJuris.key j) = true ->
     default EmptyString (RunnerJuris.key j) ∉ seen ->
     exists r, In r rows /\ RunnerJuris.row_key r = RunnerJuris.key j) /\
  (forall pre j post, js = pre ++ j :: post ->
     truthy (RunnerJuris.key j) = true ->
     default EmptyString (RunnerJuris.key j) ∉ seen ->
     (forall j', In j' pre -> RunnerJuris.key j' <> RunnerJuris.key j) ->
     In (RunnerJuris.row_of doc_id id_muni j) rows).
Proof.
  induction js as [|j js IH]; intros seen; cbn zeta.
  - cbn [RunnerJuris.juri_rows_from map]. repeat split.
    + constructor.
    + constructor.
    + constructor.
    + intros j [].
    + intros pre j post H. destruct pre; discriminate H.
  - cbn [RunnerJuris.juri_rows_from]. cbv zeta.
    destruct (truthy (RunnerJuris.key j)) eqn:T; cbn [negb orb].
    + destruct (bool_decide _) eqn:B.
      * apply bool_decide_eq_true in B.
        destruct (IH seen) as (H1 & H2 & H3 & H4 & H5). repeat split.
        -- eapply Forall_impl; [exact H1|]. intros r (Ha & Hb & j' & Hj' & Hr).
           repeat split; auto. exists j'. split; [now right | exact Hr].
        -- exact H2.
        -- cbn [map]. now apply sublist_cons.
        -- intros j' [<-|Hj'] Ht Hs; [contradiction | now apply H4].
        -- intros pre j' post E Ht Hs Hpre.
           destruct pre as [|j0 pre]; cbn in E; injection E as <- E.
           ++ contradiction.
           ++ apply (H5 pre j' post E Ht Hs).
              intros x Hx. apply Hpre. now right.
      * apply bool_decide_eq_false in B.
        set (k := default EmptyString (RunnerJuris.key j)) in *.
        destruct (IH ({[k]} ∪ seen)) as (H1 & H2 & H3 & H4 & H5). repeat split.
        -- constructor.
           ++ repeat split; [exact T | exact B |]. exists j. split; [now left | reflexivity].
           ++ eapply Forall_impl; [exact H1|]. intros r (Ha & Hb & j' & Hj' & Hr).
              repeat split; auto; [intros Hx; apply Hb; apply elem_of_union; now right|]. exists j'. split; [now right | exact Hr].
        -- cbn [map]. constructor; [|exact H2].
           intros Hin. apply list_elem_of_In in Hin. apply in_map_iff in Hin as (r & Hr & Hin).
           rewrite Forall_forall in H1. apply list_elem_of_In in Hin.
           destruct (H1 r Hin) as (_ & Hb & _).
           apply Hb. change (RunnerJuris.row_key (RunnerJuris.row_of doc_id id_muni j))
             with (RunnerJuris.key j) in Hr. rewrite Hr. fold k. apply elem_of_union. left. now apply elem_of_singleton.
        -- cbn [map]. now apply sublist_skip.
        -- intros j' [<-|Hj'] Ht Hs.
           ++ exists (RunnerJuris.row_of doc_id id_muni j). split; [now left | reflexivity].
           ++ destruct (decide (default EmptyString (RunnerJuris.key j') = k)) as [E|E].
              ** exists (RunnerJuris.row_of doc_id id_muni j). split; [now left|].
                 change (RunnerJuris.row_key (RunnerJuris.row_of doc_id id_muni j))
                   with (RunnerJuris.key j).
                 rewrite (truthy_default _ T), (truthy_default _ Ht). fold k. now rewrite E.
              ** destruct (H4 j' Hj' Ht) as (r & Hr & Hk);
                   [intros Hx; apply elem_of_union in Hx as [Hx|Hx];
                    [apply elem_of_singleton in Hx; contradiction | contradiction]|].
                 exists r. split; [now right | exact Hk].
        -- intros pre j' post E Ht Hs Hpre.
           destruct pre as [|j0 pre]; cbn in E; injection E as <- E.
           ++ now left.
           ++ right. apply (H5 pre j' post E Ht).
              ** assert (Hne : RunnerJuris.key j <> RunnerJuris.key j')
                   by (apply Hpre; now left).
                 rewrite (truthy_default _ T), (truthy_default _ Ht) in Hne.
                 fold k in Hne. intros Hx. apply elem_of_union in Hx as [Hx|Hx];
                   [apply elem_of_singleton in Hx; congruence | contradiction].
              ** intros x Hx. apply Hpre. now right.
    + destruct (IH seen) as (H1 & H2 & H3 & H4 & H5). repeat split.
      * eapply Forall_impl; [exact H1|]. intros r (Ha & Hb & j' & Hj' & Hr).
        repeat split; auto. exists j'. split; [now right | exact Hr].
      * exact H2.
      * cbn [map]. now apply sublist_cons.
      * intros j' [<-|Hj'] Ht Hs; [congruence | now apply H4].
      * intros pre j' post E Ht Hs Hpre.
        destruct pre as [|j0 pre]; cbn in E; injection E as <- E.
        -- congruence.
        -- apply (H5 pre j' post E Ht Hs).
           intros x Hx. apply Hpre. now right.
Qed.

(** X13. Step 9 of the runner writes the parsed jurisdictions once per key
    (the code, else the name): the rows are entries of the parsed list in
    their order, each with a non-empty key, no two with the same key; every
    parsed entry with a non-empty key has a row with its key, and the row
    of a key is the first entry parsed with it.  Entries without key are
    left out. *)
Theorem runner_jurisdictions_once_per_key :
  forall (doc_id : string) (id_muni : option string)
         (jurisdicciones : list Programas.juri),
    let rows := RunnerJuris.juri_rows doc_id id_muni jurisdicciones in
    sublist rows (map (RunnerJuris.row_of doc_id id_muni) jurisdicciones) /\
    Forall (fun r => truthy (RunnerJuris.row_key r) = true) rows /\
    NoDup (map RunnerJuris.row_key rows) /\
    (forall j, In j jurisdicciones -> truthy (RunnerJuris.key j) = true ->
       exists r, In r rows /\ RunnerJuris.row_key r = RunnerJuris.key j) /\
    (forall pre j post, jurisdicciones = pre ++ j :: post ->
       truthy (RunnerJuris.key j) = true ->
       (forall j', In j' pre -> RunnerJuris.key j' <> RunnerJuris.key j) ->
       In (RunnerJuris.row_of doc_id id_muni j) rows).
Proof.
  intros doc_id id_muni js. cbv zeta. unfold RunnerJuris.juri_rows.
  destruct (juri_rows_from_spec doc_id id_muni js ∅) as (H1 & H2 & H3 & H4 & H5).
  repeat split.
  - exact H3.
  - eapply Forall_impl; [exact H1|]. now intros r (Ha & _).
  - exact H2.
  - intros j Hj Ht. apply H4; [exact Hj | exact Ht | apply not_elem_of_empty].
  - intros pre j post E Ht Hpre. eapply H5; [exact E | exact Ht | apply not_elem_of_empty | exact Hpre].
Qed.


(** ** From the parsed programs to the rows written *)

Lemma runner_juri_map_total (juri_db : list Runner.juri_db_row) :
  forall (m : gmap string (option string)) (k : string),
    (is_Some (m !! k) \/
     exists d, d ∈ juri_db /\ Runner.juri_key d = Some k) ->
    exists v, Runner.build_juri_map juri_db m !! k = Some v /\
      (m !! k = Some v \/
       exists d, d ∈ juri_db /\ Runner.juri_key d = Some k /\
                 Runner.ID_Jurisdiccion d = v).
Proof.
  induction juri_db as [|j db IH]; intros m k H.
  - destruct H as [[v Hv]|(d & Hd & _)]; [|now apply elem_of_nil in Hd].
    exists v. split; [exact Hv | now left].
  - cbn [Runner.build_juri_map]. cbv zeta.
    assert (Hstep : forall (k0 : string),
              Runner.juri_key j = Some k0 ->
              exists v, Runner.build_juri_map db (<[k0 := Runner.ID_Jurisdiccion j]> m) !! k
                        = Some v /\
                (m !! k = Some v \/
                 exists d, d ∈ j :: db /\ Runner.juri_key d = Some k /\
                           Runner.ID_Jurisdiccion d = v)).
    { intros k0 Hk0.
      destruct (IH (<[k0 := Runner.ID_Jurisdiccion j]> m) k) as (v & Hv & Hsrc).
      - destruct (decide (k0 = k)) as [->|Hne].
        + left. rewrite lookup_insert_eq. eauto.
        + destruct H as [Hm|(d & Hd & Hk)].
          * left. now rewrite lookup_insert_ne.
          * apply elem_of_cons in Hd as [->|Hd]; [congruence|]. right. eauto.
      - exists v. split; [exact Hv|].
        destruct Hsrc as [Hm|(d & Hd & Hk & Hid)].
        + destruct (decide (k0 = k)) as [->|Hne].
          * rewrite lookup_insert_eq in Hm. injection Hm as <-.
            right. exists j. split; [left|]. now split.
          * rewrite lookup_insert_ne in Hm by exact Hne. now left.
        + right. exists d. split; [now right | now split]. }
    unfold Runner.juri_key in Hstep.
    destruct (truthy (Runner.Juri_Codigo j)) eqn:Ec.
    + apply Hstep. now apply truthy_default.
    + destruct (truthy (Runner.Juri_Nombre j)) eqn:En.
      * apply Hstep. now apply truthy_default.
      * destruct (IH m k) as (v & Hv & Hsrc).
        -- destruct H as [Hm|(d & Hd & Hk)]; [now left|].
           apply elem_of_cons in Hd as [->|Hd]; [|right; eauto].
           unfold Runner.juri_key in Hk. rewrite Ec, En in Hk. discriminate.
        -- exists v. split; [exact Hv|].
           destruct Hsrc as [Hm|(d & Hd & Hk & Hid)]; [now left|].
           right. exists d. split; [now right | now split].
Qed.

(** A key some fetched jurisdiction has is found by [juri_map.get], with a
    non-empty identifier when every fetched row has one. *)
Lemma runner_get_total (juri_db : list Runner.juri_db_row) (k : string) :
  (forall d, d ∈ juri_db -> truthy (Runner.ID_Jurisdiccion d) = true) ->
  (exists d, d ∈ juri_db /\ Runner.juri_key d = Some k) ->
  exists id, Runner.get (Runner.build_juri_map juri_db ∅) k = Some id /\
             nonempty id = true.
Proof.
  intros Hid Hk.
  destruct (runner_juri_map_total juri_db ∅ k (or_intror Hk)) as (v & Hv & Hsrc).
  destruct Hsrc as [Hm|(d & Hd & _ & Hv')]; [now rewrite lookup_empty in Hm|].
  specialize (Hid d Hd). rewrite Hv' in Hid.
  apply truthy_some in Hid as (id & -> & Hne).
  exists id. unfold Runner.get. rewrite Hv. now split.
Qed.

Lemma runner_resolve_by_code (m : gmap string (option string))
    (p : Programas.prog) (c id : string) :
  Programas.P_Juri_Codigo p = Some c -> nonempty c = true ->
  Runner.get m c = Some id -> nonempty id = true ->
  Runner.resolved m p = true.
Proof.
  intros Hc Hn Hg Hid. unfold Runner.resolved, Runner.resolve_juri. cbv zeta.
  rewrite Hc. change (default EmptyString (Some c)) with c.
  cbn [truthy]. rewrite Hn, Hg. cbn [truthy]. rewrite Hid.
  cbn [negb andb truthy]. rewrite Hid. apply bool_decide_eq_true. eauto.
Qed.

Lemma runner_resolve_by_name (m : gmap string (option string))
    (p : Programas.prog) (n id : string) :
  Programas.P_Juri_Codigo p = None ->
  Programas.P_Juri_Nombre p = Some n -> nonempty n = true ->
  Runner.get m n = Some id -> nonempty id = true ->
  Runner.resolved m p = true.
Proof.
  intros Hc Hp Hn Hg Hid. unfold Runner.resolved, Runner.resolve_juri. cbv zeta.
  rewrite Hc, Hp. change (default EmptyString (Some n)) with n.
  cbn [truthy negb andb]. rewrite Hn, Hg. cbn [truthy].
  rewrite Hid. apply bool_decide_eq_true. eauto.
Qed.

Lemma digits_nonempty (s : string) (n : nat) :
  1 <= n -> n <= String.length s -> nonempty s = true.
Proof. destruct s; simpl; [lia | reflexivity]. Qed.

Lemma filter_all_true {A} (f : A -> bool) (l : list A) :
  (forall x, In x l -> f x = true) -> List.filter f l = l.
Proof.
  induction l as [|x l IH]; intros H; [reflexivity|]. simpl.
  rewrite (H x (or_introl eq_refl)). f_equal. apply IH. intros y Hy. apply H. now right.
Qed.

Lemma filter_none_true {A} (f : A -> bool) (l : list A) :
  (forall x, In x l -> f x = true) -> List.filter (fun x => negb (f x)) l = [].
Proof.
  induction l as [|x l IH]; intros H; [reflexivity|]. simpl.
  rewrite (H x (or_introl eq_refl)). simpl. apply IH. intros y Hy. apply H. now right.
Qed.




(** ** Accounts that belong to the balance sheet *)

Lemma moved_as_by_name (item : SingleShotRows.cuenta_item) :
  SingleShotRows.moved_as item
  = assoc_get (SingleShot._norm_text (SingleShotRows.Cuenta_Nombre item))
              SingleShotRows._SITPAT_NAMES.
Proof.
  unfold SingleShotRows.moved_as. cbv zeta.
  generalize (SingleShot._norm_text (SingleShotRows.Cuenta_Nombre item)) as name.
  generalize (isdigit (strip (default EmptyString (SingleShotRows.Cuenta_Codigo item)))
              && Nat.leb 6 (String.length
                   (strip (default EmptyString (SingleShotRows.Cuenta_Codigo item)))))
    as b.
  intros b name. unfold SingleShotRows._SITPAT_NAMES. cbn [assoc_get].
  repeat match goal with
         | |- context [String.eqb name ?l] =>
             let E := fresh "E" in
             destruct (String.eqb name l) eqn:E;
             [apply String.eqb_eq in E; subst name; cbn; now rewrite orb_true_r|]
         end.
  reflexivity.
Qed.

Lemma sitpat_names_range (name t : string) :
  assoc_get name SingleShotRows._SITPAT_NAMES = Some t ->
  In t ["Activo"; "Pasivo"; "Patrimonio Publico"].
Proof.
  unfold SingleShotRows._SITPAT_NAMES. cbn [assoc_get].
  repeat match goal with
         | |- context [String.eqb name ?l] => destruct (String.eqb name l)
         end; intros H; first [discriminate H | injection H as <-; simpl; tauto].
Qed.

Lemma reclassify_loop_spec (cuentas : list SingleShotRows.cuenta_item) :
  forall kept sitpat moved,
    SingleShotRows.reclassify_loop cuentas kept sitpat moved
    = (kept ++ List.filter
                 (fun i => match SingleShotRows.moved_as i with
                           | Some _ => false | None => true end) cuentas,
       sitpat ++ omap (fun i => (fun t => SingleShotRows.to_sitpat t i)
                                <$> SingleShotRows.moved_as i) cuentas,
       moved + length (omap (fun i => (fun t => SingleShotRows.to_sitpat t i)
                                      <$> SingleShotRows.moved_as i) cuentas)).
Proof.
  induction cuentas as [|item more IH]; intros kept sitpat moved.
  - cbn. now rewrite !app_nil_r, Nat.add_0_r.
  - cbn [SingleShotRows.reclassify_loop List.filter omap list_omap].
    destruct (SingleShotRows.moved_as item) as [t|]; cbn [fmap option_fmap option_map].
    + rewrite IH, <- app_assoc. cbn [length app]. now rewrite Nat.add_succ_r.
    + rewrite IH, <- app_assoc. reflexivity.
Qed.



(** ** The type of a resource in the single-shot pipeline *)

Lemma lstrip_by_smap p (f : ascii -> ascii) (s : string) :
  (forall c, p (f c) = p c) ->
  lstrip_by p (smap f s) = smap f (lstrip_by p s).
Proof.
  intros Hf. induction s as [|c s IH]; [reflexivity|]. simpl.
  rewrite Hf. destruct (p c); [exact IH | reflexivity].
Qed.

Lemma rstrip_by_smap p (f : ascii -> ascii) (s : string) :
  (forall c, p (f c) = p c) ->
  rstrip_by p (smap f s) = smap f (rstrip_by p s).
Proof.
  intros Hf. induction s as [|c s IH]; [reflexivity|]. simpl.
  rewrite IH, Hf. destruct (rstrip_by p s); [destruct (p c)|]; reflexivity.
Qed.

Lemma strip_smap (f : ascii -> ascii) (s : string) :
  (forall c, is_space (f c) = is_space c) ->
  strip (smap f s) = smap f (strip s).
Proof.
  intros Hf. unfold strip. now rewrite lstrip_by_smap, rstrip_by_smap.
Qed.

Lemma smap_smap (f g : ascii -> ascii) (s : string) :
  smap f (smap g s) = smap (fun c => f (g c)) s.
Proof. induction s as [|c s IH]; [reflexivity|]. simpl. now rewrite IH. Qed.

Lemma smap_ext (f g : ascii -> ascii) (s : string) :
  (forall c, f c = g c) -> smap f s = smap g s.
Proof. intros H. induction s as [|c s IH]; [reflexivity|]. simpl. now rewrite H, IH. Qed.

Lemma to_lower_space c : is_space (to_lower c) = is_space c.
Proof. char_cases c. Qed.

Lemma to_upper_space c : is_space (to_upper c) = is_space c.
Proof. char_cases c. Qed.

Lemma to_upper_lower c : to_upper (to_lower c) = to_upper c.
Proof. char_cases c. Qed.

Lemma to_upper_upper c : to_upper (to_upper c) = to_upper c.
Proof. char_cases c. Qed.

Lemma norm_text_lower (s : string) :
  SingleShot._norm_text (lower s) = SingleShot._norm_text s.
Proof.
  unfold SingleShot._norm_text, lower, upper.
  rewrite (strip_smap _ _ to_lower_space), smap_smap.
  now rewrite (smap_ext _ to_upper _ to_upper_lower).
Qed.

Lemma norm_text_upper (s : string) :
  SingleShot._norm_text (upper s) = SingleShot._norm_text s.
Proof.
  unfold SingleShot._norm_text, upper.
  rewrite (strip_smap _ _ to_upper_space), smap_smap.
  now rewrite (smap_ext _ to_upper _ to_upper_upper).
Qed.

Lemma nonempty_smap f (s : string) : nonempty (smap f s) = nonempty s.
Proof. now destruct s. Qed.

(** X16. In [_map_recursos] the name of a row is the item's resource type,
    and the type of a row is decided by the category alone whenever the
    category mentions PRESUPUEST, whatever the letter case: so two items
    of one such category get the same conflict key
    (document, category, type) even when their names differ. *)
Theorem recursos_type_from_category :
  (forall items doc_id id_municipio,
     map SingleShotRows.RR_Rec_Nombre
         (SingleShotRows._map_recursos items doc_id id_municipio)
     = map SingleShotRows.Rec_TipoRecurso items) /\
  (forall c,
     SingleShotRows.rec_tipo_norm (Some (lower c))
     = SingleShotRows.rec_tipo_norm (Some c) /\
     SingleShotRows.rec_tipo_norm (Some (upper c))
     = SingleShotRows.rec_tipo_norm (Some c)) /\
  (forall doc_id id_municipio i1 i2,
     SingleShotRows.Rec_Categoria i1 = SingleShotRows.Rec_Categoria i2 ->
     is_Some (SingleShotRows.rec_tipo_norm (SingleShotRows.Rec_Categoria i1)) ->
     SingleShotRows.recurso_conflict_key
       (SingleShotRows.recurso_row_of doc_id id_municipio i1)
     = SingleShotRows.recurso_conflict_key
         (SingleShotRows.recurso_row_of doc_id id_municipio i2)).
Proof.
  split; [|split].
  - intros items doc_id id_municipio. unfold SingleShotRows._map_recursos.
    rewrite map_map. reflexivity.
  - intros c. unfold SingleShotRows.rec_tipo_norm.
    change (default EmptyString (Some (lower c))) with (lower c).
    change (default EmptyString (Some (upper c))) with (upper c).
    change (default EmptyString (Some c)) with c. cbn [truthy].
    assert (E1 : nonempty (lower c) = nonempty c) by apply nonempty_smap.
    assert (E2 : nonempty (upper c) = nonempty c) by apply nonempty_smap.
    now rewrite E1, E2, norm_text_lower, norm_text_upper.
  - intros doc_id id_municipio i1 i2 Hc [t Ht].
    unfold SingleShotRows.recurso_conflict_key, SingleShotRows.recurso_row_of. cbn.
    rewrite <- Hc, Ht. reflexivity.
Qed.

Lemma recursos_type_from_category_witness :
  SingleShotRows.recurso_conflict_key
    (SingleShotRows.recurso_row_of "doc" "muni"
       {| SingleShotRows.Rec_Categoria := Some "Recursos Presupuestarios";
          SingleShotRows.Rec_TipoRecurso := "Tasas";
          SingleShotRows.Rec_Vigente := None; SingleShotRows.Rec_Devengado := None;
          SingleShotRows.Rec_Percibido := None |})
  = SingleShotRows.recurso_conflict_key
      (SingleShotRows.recurso_row_of "doc" "muni"
         {| SingleShotRows.Rec_Categoria := Some "Recursos Presupuestarios";
            SingleShotRows.Rec_TipoRecurso := "Derechos";
            SingleShotRows.Rec_Vigente := None; SingleShotRows.Rec_Devengado := None;
            SingleShotRows.Rec_Percibido := None |}).
Proof.
  apply (proj2 (proj2 recursos_type_from_category)); [reflexivity|].
  vm_compute. eauto.
Defined.


(** ** Goals and the programs fetched (single-shot pipeline) *)

Lemma program_mapping_sound (rows : list SingleShotProgs.prog_db_row)
    (by_id : gmap string string) :
  forall (m : gmap string string) (k v : string),
    SingleShotProgs.program_mapping_from rows by_id m !! k = Some v ->
    m !! k = Some v \/
    exists p, In p rows /\ filed_under by_id p k /\
              SingleShotProgs.ID_Programa p = Some v.
Proof.
  induction rows as [|p rows IH]; intros m k v H; cbn [SingleShotProgs.program_mapping_from] in H.
  - now left.
  - cbv zeta in H.
    set (pc := strip (default EmptyString (SingleShotProgs.Prog_Codigo p))) in *.
    set (jc := SingleShotProgs.juri_code_of by_id (SingleShotProgs.ID_Jurisdiccion p)) in *.
    destruct (truthy (SingleShotProgs.ID_Programa p)) eqn:T; cbn [negb] in H.
    + apply IH in H as [H|(q & Hq & Hf & Hid)];
        [|right; exists q; split; [now right | now split]].
      assert (Hidp : SingleShotProgs.ID_Programa p
                     = Some (default EmptyString (SingleShotProgs.ID_Programa p)))
        by now apply truthy_default.
      destruct (nonempty jc && nonempty pc) eqn:B.
      * apply andb_true_iff in B as [Bj Bp]. rewrite Bp in H.
        destruct (decide (jc +:+ "::" +:+ pc = k)) as [<-|N1].
        -- rewrite lookup_insert_eq in H. injection H as <-.
           right. exists p. split; [now left|]. split; [|exact Hidp].
           repeat split; auto.
        -- rewrite lookup_insert_ne in H by exact N1.
           destruct (decide (pc = k)) as [<-|N2].
           ++ rewrite lookup_insert_eq in H. injection H as <-.
              right. exists p. split; [now left|]. split; [|exact Hidp].
              repeat split; auto.
           ++ rewrite lookup_insert_ne in H by exact N2. now left.
      * destruct (nonempty pc) eqn:Bp; [|now left].
        destruct (decide (pc = k)) as [<-|N2].
        -- rewrite lookup_insert_eq in H. injection H as <-.
           right. exists p. split; [now left|]. split; [|exact Hidp].
           repeat split; auto.
        -- rewrite lookup_insert_ne in H by exact N2. now left.
    + apply IH in H as [H|(q & Hq & Hf & Hid)]; [now left|].
      right. exists q. split; [now right | now split].
Qed.

Lemma program_mapping_complete (rows : list SingleShotProgs.prog_db_row)
    (by_id : gmap string string) :
  forall (m : gmap string string) (k : string),
    (is_Some (m !! k) \/ exists p, In p rows /\ filed_under by_id p k) ->
    is_Some (SingleShotProgs.program_mapping_from rows by_id m !! k).
Proof.
  induction rows as [|p rows IH]; intros m k H;
    cbn [SingleShotProgs.program_mapping_from].
  - destruct H as [H|(p & [] & _)]. exact H.
  - cbv zeta.
    set (pc := strip (default EmptyString (SingleShotProgs.Prog_Codigo p))) in *.
    set (jc := SingleShotProgs.juri_code_of by_id (SingleShotProgs.ID_Jurisdiccion p)) in *.
    destruct (truthy (SingleShotProgs.ID_Programa p)) eqn:T; cbn [negb].
    + apply IH. destruct H as [H|(q & [E|Hq] & Hf)].
      * left. destruct (nonempty jc && nonempty pc); destruct (nonempty pc);
          repeat (rewrite lookup_insert_is_Some'; right); exact H.
      * left. subst q. unfold filed_under in Hf. cbv zeta in Hf.
        fold pc jc in Hf. destruct Hf as (_ & Hp & [->|(Hj & ->)]).
        -- rewrite Hp. destruct (nonempty jc && true);
             repeat first [ now apply lookup_insert_is_Some'; left
                          | apply lookup_insert_is_Some'; right ].
        -- rewrite Hj, Hp. cbn [andb].
           apply lookup_insert_is_Some'. now left.
      * right. eauto.
    + apply IH. destruct H as [H|(q & [E|Hq] & Hf)]; [now left| |right; eauto].
      subst q. destruct Hf as (Hf & _). congruence.
Qed.

Lemma lookup_prog_nonempty (m : gmap string string) item :
  (forall k v, m !! k = Some v -> nonempty v = true) ->
  SingleShot.meta_resolved m item = true <-> is_Some (m !! SingleShot.meta_key item).
Proof.
  intros Hm. unfold SingleShot.meta_resolved, SingleShot.lookup_prog.
  destruct (m !! SingleShot.meta_key item) as [v|] eqn:E.
  - rewrite (Hm _ _ E). split; [eauto|]. intros _. apply bool_decide_eq_true. eauto.
  - split; [intros H; apply bool_decide_eq_true in H; exact H | intros [? ?]; discriminate].
Qed.

Lemma program_mapping_nonempty (prog_db : list SingleShotProgs.prog_db_row)
    (by_id : gmap string string) (k v : string) :
  SingleShotProgs.program_mapping_from prog_db by_id ∅ !! k = Some v ->
  nonempty v = true.
Proof.
  intros H. apply program_mapping_sound in H as [H|(p & _ & (Ht & _) & Hid)].
  - now rewrite lookup_empty in H.
  - rewrite Hid in Ht. exact Ht.
Qed.

(** X17. In the single-shot pipeline a goal gets a program exactly when
    some fetched program with an identifier was filed under the goal's
    key (the program code for a goal without jurisdiction code, otherwise
    jurisdiction code, two colons, program code); the identifier of each
    row written is non-empty and is the identifier of such a program. *)
Theorem goals_resolve_to_fetched_programs :
  forall (prog_db : list SingleShotProgs.prog_db_row)
         (juri_map : list (string * option string))
         (items : list SingleShot.meta_item),
    let by_id := SingleShotProgs.juri_by_id juri_map in
    let mapping := SingleShotProgs._build_program_mapping prog_db juri_map in
    let filed p k :=
      truthy (SingleShotProgs.ID_Programa p) = true /\
      nonempty (strip (default EmptyString (SingleShotProgs.Prog_Codigo p))) = true /\
      (k = strip (default EmptyString (SingleShotProgs.Prog_Codigo p)) \/
       (nonempty (SingleShotProgs.juri_code_of by_id (SingleShotProgs.ID_Jurisdiccion p))
        = true /\
        k = SingleShotProgs.juri_code_of by_id (SingleShotProgs.ID_Jurisdiccion p)
            +:+ "::" +:+ strip (default EmptyString (SingleShotProgs.Prog_Codigo p)))) in
    (forall item,
       SingleShot.meta_resolved mapping item = true <->
       exists p, In p prog_db /\ filed p (SingleShot.meta_key item)) /\
    (let '(rows, warnings, unresolved) := SingleShot._map_metas items mapping in
     Forall (fun r =>
       nonempty (SingleShot.ID_Programa r) = true /\
       exists item p,
         item ∈ items /\ In p prog_db /\
         filed p (SingleShot.meta_key item) /\
         SingleShotProgs.ID_Programa p = Some (SingleShot.ID_Programa r)) rows).
Proof.
  intros prog_db juri_map items. cbv zeta.
  unfold SingleShotProgs._build_program_mapping.
  set (by_id := SingleShotProgs.juri_by_id juri_map).
  set (mapping := SingleShotProgs.program_mapping_from prog_db by_id ∅).
  assert (Hne : forall k v, mapping !! k = Some v -> nonempty v = true)
    by (intros k v; apply program_mapping_nonempty).
  split.
  - intros item. rewrite (lookup_prog_nonempty mapping item Hne). split.
    + intros [v Hv]. apply program_mapping_sound in Hv as [Hv|(p & Hp & Hf & _)];
        [now rewrite lookup_empty in Hv|].
      exists p. split; [exact Hp | exact Hf].
    + intros (p & Hp & Hf). apply program_mapping_complete. right. exists p.
      split; [exact Hp | exact Hf].
  - pose proof (ss_map_metas_spec mapping items) as Hspec.
    destruct (SingleShot._map_metas items mapping) as [[rows warnings] unresolved].
    destruct Hspec as (_ & _ & _ & Hrows).
    eapply Forall_impl; [exact Hrows|].
    intros r (item & Hitem & Hl). unfold SingleShot.lookup_prog in Hl.
    destruct (mapping !! SingleShot.meta_key item) as [v|] eqn:E; [|discriminate].
    destruct (nonempty v) eqn:Nv; [|discriminate]. injection Hl as <-.
    split; [exact Nv|].
    apply program_mapping_sound in E as [E|(p & Hp & Hf & Hid)];
      [now rewrite lookup_empty in E|].
    exists item, p. repeat split; try assumption; apply Hf.
Qed.


(** ** Programs made from the goals (single-shot pipeline) *)

Lemma new_program_rows_spec (juri_map : gmap string (option string))
    (items : list SingleShot.meta_item) : forall seen : gset (string * string),
  exists sel,
    SingleShotProgs.new_program_rows items juri_map seen
      = map (new_prog_row_of juri_map) sel /\
    sublist sel items /\
    Forall (fun s => creatable juri_map s = true /\ (new_prog_key s ∉ seen)) sel /\
    NoDup (map new_prog_key sel) /\
    (forall item, In item items -> creatable juri_map item = true ->
       new_prog_key item ∉ seen ->
       exists s, In s sel /\ new_prog_key s = new_prog_key item).
Proof.
  induction items as [|item items IH]; intros seen.
  - exists []. repeat split; try constructor. intros item [].
  - cbn [SingleShotProgs.new_program_rows]. cbv zeta.
    set (jc := strip (default EmptyString (SingleShot.M_Juri_Codigo item))).
    set (pc := strip (default EmptyString (SingleShot.M_Prog_Codigo item))).
    set (pn := strip (default EmptyString (SingleShot.M_Prog_Nombre item))).
    assert (Hc : creatable juri_map item
                 = nonempty jc && nonempty pc && nonempty pn
                   && truthy (mjoin (juri_map !! jc))) by reflexivity.
    assert (Hk : new_prog_key item = (jc, pc)) by reflexivity.
    destruct (nonempty jc) eqn:Nj; cbn [negb orb andb] in *;
      [destruct (nonempty pc) eqn:Np; cbn [negb orb andb] in *;
       [destruct (nonempty pn) eqn:Nn; cbn [negb orb andb] in *|]|].
    2-4: destruct (IH seen) as (sel & H1 & H2 & H3 & H4 & H5);
         exists sel; repeat split; try assumption;
         [now apply sublist_cons
         |intros it [<-|Hit] Hcr Hs; [congruence | now apply H5]].
    destruct (bool_decide ((jc, pc) ∈ seen)) eqn:B.
    + apply bool_decide_eq_true in B.
      destruct (IH seen) as (sel & H1 & H2 & H3 & H4 & H5).
      exists sel; repeat split; try assumption; [now apply sublist_cons|].
      intros it [<-|Hit] Hcr Hs; [rewrite Hk in Hs; contradiction | now apply H5].
    + apply bool_decide_eq_false in B.
      destruct (truthy (mjoin (juri_map !! jc))) eqn:T; cbn [negb].
      * destruct (IH ({[(jc, pc)]} ∪ seen)) as (sel & H1 & H2 & H3 & H4 & H5).
        exists (item :: sel). repeat split.
        -- cbn [map]. rewrite H1. reflexivity.
        -- now apply sublist_skip.
        -- constructor; [split; [exact Hc | now rewrite Hk]|].
           eapply Forall_impl; [exact H3|]. intros s (Ha & Hb). split; [exact Ha|].
           intros Hx. apply Hb. apply elem_of_union. now right.
        -- cbn [map]. constructor; [|exact H4].
           intros Hin. apply list_elem_of_In in Hin.
           apply in_map_iff in Hin as (s & Hs & Hin).
           rewrite Forall_forall in H3. apply list_elem_of_In in Hin.
           destruct (H3 s Hin) as (_ & Hb). apply Hb. rewrite Hs, Hk.
           apply elem_of_union. left. now apply elem_of_singleton.
        -- intros it [<-|Hit] Hcr Hs.
           ++ exists item. split; [now left | reflexivity].
           ++ destruct (decide (new_prog_key it = (jc, pc))) as [E|E].
              ** exists item. split; [now left | now rewrite Hk, E].
              ** destruct (H5 it Hit Hcr) as (s & Hsel & Hkey).
                 { intros Hx. apply elem_of_union in Hx as [Hx|Hx];
                     [apply elem_of_singleton in Hx; contradiction | contradiction]. }
                 exists s. split; [now right | exact Hkey].
      * destruct (IH seen) as (sel & H1 & H2 & H3 & H4 & H5).
        exists sel; repeat split; try assumption; [now apply sublist_cons|].
        intros it [<-|Hit] Hcr Hs; [congruence | now apply H5].
Qed.

(** X18. [_create_programs_from_metas] makes one program per pair of
    jurisdiction code and program code: the rows are those of a selection
    of the goals, in order, each with non-empty codes and name and a
    jurisdiction known to [juri_map]; no two selected goals share the
    pair, and every goal that qualifies has its pair among them.  The
    number returned is the number of rows; when [juri_map] gives distinct
    codes distinct identifiers, no two rows share jurisdiction identifier
    and program code. *)
Theorem new_programs_once_per_key :
  forall (items : list SingleShot.meta_item)
         (juri_map : gmap string (option string)),
    let '(rows, n) := SingleShotProgs._create_programs_from_metas items juri_map in
    n = length rows /\
    (exists sel,
       rows = map (new_prog_row_of juri_map) sel /\
       sublist sel items /\
       Forall (fun s => creatable juri_map s = true) sel /\
       NoDup (map new_prog_key sel) /\
       (forall item, In item items -> creatable juri_map item = true ->
          exists s, In s sel /\ new_prog_key s = new_prog_key item)) /\
    Forall (fun r =>
      nonempty (SingleShotProgs.NP_ID_Jurisdiccion r) = true /\
      nonempty (SingleShotProgs.NP_Prog_Codigo r) = true /\
      nonempty (SingleShotProgs.NP_Prog_Nombre r) = true) rows /\
    ((forall c1 c2 i, juri_map !! c1 = Some (Some i) ->
        juri_map !! c2 = Some (Some i) -> nonempty i = true -> c1 = c2) ->
     NoDup (map (fun r => (SingleShotProgs.NP_ID_Jurisdiccion r,
                           SingleShotProgs.NP_Prog_Codigo r)) rows)).
Proof.
  intros items juri_map. unfold SingleShotProgs._create_programs_from_metas.
  cbv zeta.
  destruct (new_program_rows_spec juri_map items ∅) as (sel & H1 & H2 & H3 & H4 & H5).
  rewrite H1. split; [reflexivity|].
  assert (Hcr : Forall (fun s => creatable juri_map s = true) sel)
    by (eapply Forall_impl; [exact H3|]; now intros s (Ha & _)).
  split; [|split].
  - exists sel. repeat split; try assumption.
    intros item Hin Hc. apply H5; [exact Hin | exact Hc | apply not_elem_of_empty].
  - apply Forall_forall. intros r Hr. apply list_elem_of_In in Hr.
    apply in_map_iff in Hr as (s & <- & Hs).
    rewrite Forall_forall in Hcr. apply list_elem_of_In in Hs.
    specialize (Hcr s Hs). unfold creatable in Hcr.
    apply andb_true_iff in Hcr as (Hcr & Ht).
    apply andb_true_iff in Hcr as (Hcr & Hn).
    apply andb_true_iff in Hcr as (Hj & Hp).
    cbn [new_prog_row_of SingleShotProgs.NP_ID_Jurisdiccion
         SingleShotProgs.NP_Prog_Codigo SingleShotProgs.NP_Prog_Nombre].
    repeat split; try assumption.
    destruct (mjoin _) as [i|]; [exact Ht | discriminate].
  - intros Hinj. rewrite map_map.
    clear H1 H2 H3 H5. induction sel as [|s sel IH]; cbn [map]; [constructor|].
    apply NoDup_cons in H4 as (Hnot & Hnd). apply Forall_cons in Hcr as (Hs & Hcr).
    constructor; [|now apply IH].
    intros Hin. apply Hnot. apply list_elem_of_In in Hin.
    apply in_map_iff in Hin as (s' & E & Hs').
    apply list_elem_of_In. apply in_map_iff. exists s'. split; [|exact Hs'].
    rewrite Forall_forall in Hcr. apply list_elem_of_In in Hs'.
    specialize (Hcr s' Hs'). unfold creatable in Hs, Hcr.
    apply andb_true_iff in Hs as (_ & Ht). apply andb_true_iff in Hcr as (_ & Ht').
    cbn [new_prog_row_of SingleShotProgs.NP_ID_Jurisdiccion
         SingleShotProgs.NP_Prog_Codigo] in E.
    unfold new_prog_key. injection E as E1 E2. rewrite E2. f_equal.
    destruct (juri_map !! strip (default EmptyString (SingleShot.M_Juri_Codigo s)))
      as [[i|]|] eqn:L; try discriminate Ht.
    destruct (juri_map !! strip (default EmptyString (SingleShot.M_Juri_Codigo s')))
      as [[i'|]|] eqn:L'; try discriminate Ht'.
    cbn in E1, Ht. subst i'. exact (Hinj _ _ i L' L Ht).
Qed.


(** ** The extractor's loop: every run *)

Section RetryCases.
Context {P : Type}.
Variable native_call : nat -> Retry.native_outcome string.
Variable chat_call : nat -> exc string.
Variable loads : string -> exc P.
Variable validate : P -> exc unit.
Variable final_msg : string.
Variable empty_msg : string.
Variable max_retries : Z.
Variable retry_sleep_sec : Q.
Variable has_responses : bool.

Local Abbreviation loop :=
  (Retry.loop native_call chat_call loads validate final_msg empty_msg
     max_retries retry_sleep_sec).
Local Abbreviation outcome :=
  (Retry.outcome native_call chat_call loads validate has_responses).
Local Abbreviation ur :=
  (Retry.use_responses_at native_call chat_call loads validate has_responses).
Local Abbreviation delay := (Retry.delay retry_sleep_sec).

Lemma loop_cases (n : nat) : forall (i : nat) (slept : list Q),
  (Z.of_nat (i + n) = max_retries + 1)%Z -> 0 < n ->
  exists k, i <= k /\ (Z.of_nat k <= max_retries)%Z /\
    snd (loop n i (ur i) slept) = slept ++ map delay (seq i (k - i)) /\
    (forall j, i <= j < k -> exists e, outcome j = Raise e) /\
    ((exists p, outcome k = Ok p /\ fst (loop n i (ur i) slept) = Ok p) \/
     (Z.of_nat k = max_retries /\
      exists e, outcome k = Raise e /\
        fst (loop n i (ur i) slept) = Raise (Retry.exhausted final_msg e))).
Proof.
  induction n as [|n IH]; intros i slept Hn Hpos; [lia|].
  cbn [Retry.loop].
  destruct (Retry.attempt native_call chat_call loads validate i (ur i))
    as [[p|e] u] eqn:A.
  - exists i. split; [lia|]. split; [lia|]. split; [|split].
    + rewrite Nat.sub_diag. cbn. now rewrite app_nil_r.
    + intros j Hj. lia.
    + left. exists p. split; [|reflexivity]. unfold Retry.outcome. now rewrite A.
  - assert (Ho : outcome i = Raise e) by (unfold Retry.outcome; now rewrite A).
    assert (Hu : ur (S i) = u) by (cbn [Retry.use_responses_at]; now rewrite A).
    destruct (Z.ltb_spec (Z.of_nat i) max_retries) as [Hlt|Hge].
    + rewrite <- Hu.
      change (retry_sleep_sec * inject_Z (Z.of_nat i + 1))%Q with (delay i).
      destruct (IH (S i) (slept ++ [delay i])) as (k & Hk1 & Hk2 & Hs & Hf & Hr);
        [lia | lia |].
      exists k. split; [lia|]. split; [lia|]. split; [|split].
      * rewrite Hs, <- app_assoc. f_equal.
        replace (k - i) with (S (k - S i)) by lia. reflexivity.
      * intros j Hj. destruct (decide (j = i)) as [->|Hne]; [eauto|].
        apply Hf. lia.
      * exact Hr.
    + exists i. split; [lia|]. split; [lia|]. split; [|split].
      * rewrite Nat.sub_diag. cbn. now rewrite app_nil_r.
      * intros j Hj. lia.
      * right. split; [lia|]. exists e. split; [exact Ho | reflexivity].
Qed.

Lemma use_responses_stays_off (i : nat) :
  ur i = false -> forall j, i <= j -> ur j = false.
Proof.
  intros Hi j Hj. induction Hj as [|j Hj IH]; [exact Hi|].
  cbn [Retry.use_responses_at]. rewrite IH. reflexivity.
Qed.

Lemma use_responses_on (k : nat) :
  ur k = true ->
  has_responses = true /\
  forall j, j < k -> native_call j <> Retry.NativeUnsupported.
Proof.
  induction k as [|k IH]; intros Hk; [split; [exact Hk | intros j Hj; lia]|].
  cbn [Retry.use_responses_at] in Hk. unfold Retry.attempt in Hk.
  destruct (ur k) eqn:U; [|discriminate Hk].
  destruct (IH eq_refl) as (Hh & Hn). split; [exact Hh|].
  intros j Hj. destruct (decide (j = k)) as [->|Hne]; [|apply Hn; lia].
  destruct (native_call k); [discriminate | discriminate Hk | discriminate].
Qed.

Lemma fallback_ok (i : nat) (p : P) :
  Retry.fallback chat_call loads validate i = Ok p ->
  exists text, chat_call i = Ok text /\ nonempty text = true /\
               loads text = Ok p /\ validate p = Ok tt.
Proof.
  unfold Retry.fallback. intros H.
  destruct (chat_call i) as [text|e] eqn:C; [|discriminate H]. rewrite bind_ok in H.
  destruct (nonempty text) eqn:N; [|discriminate H]. cbn [negb] in H.
  destruct (loads text) as [parsed|e] eqn:L; [|discriminate H]. rewrite bind_ok in H.
  destruct (validate parsed) as [[]|e] eqn:V; [|discriminate H]. rewrite bind_ok in H.
  injection H as <-. exists text. repeat split; assumption.
Qed.

Lemma outcome_ok (k : nat) (p : P) :
  outcome k = Ok p ->
  (ur k = true /\ exists text, native_call k = Retry.NativeOk text /\ loads text = Ok p) \/
  (exists text, chat_call k = Ok text /\ nonempty text = true /\
                loads text = Ok p /\ validate p = Ok tt).
Proof.
  unfold Retry.outcome, Retry.attempt. intros H.
  destruct (ur k) eqn:U.
  - destruct (native_call k) as [text| |e] eqn:N; cbn [fst] in H.
    + left. split; [reflexivity|]. exists text. split; [reflexivity | exact H].
    + right. now apply fallback_ok in H.
    + discriminate H.
  - right. now apply fallback_ok in H.
Qed.
End RetryCases.


(** X20. A payload the extractor's loop returns is the parsed text of one
    call: of the call with a response format, when the client has it and
    no earlier attempt found the format unsupported, and then it is not
    checked against the schema; or of the plain chat call, whose text is
    then non-empty and whose payload passed the validation.  Once an
    attempt has found the response format unsupported, no later attempt
    uses it. *)
Theorem retry_payload_provenance :
  forall (P : Type) (native_call : nat -> Retry.native_outcome string)
         (chat_call : nat -> exc string) (loads : string -> exc P)
         (validate : P -> exc unit) (final_msg empty_msg : string)
         (max_retries : Z) (retry_sleep_sec : Q) (has_responses : bool),
    let uses := Retry.use_responses_at native_call chat_call loads validate
                  has_responses in
    let run := Retry.extract native_call chat_call loads validate final_msg
                 empty_msg max_retries retry_sleep_sec has_responses in
    (forall payload, fst run = Ok payload ->
       exists k : nat, (Z.of_nat k <= max_retries)%Z /\
         ((has_responses = true /\
           (forall j, j < k -> native_call j <> Retry.NativeUnsupported) /\
           exists text, native_call k = Retry.NativeOk text /\
                        loads text = Ok payload) \/
          (exists text, chat_call k = Ok text /\ nonempty text = true /\
                        loads text = Ok payload /\ validate payload = Ok tt))) /\
    (forall i j, i <= j -> uses i = true ->
       native_call i = Retry.NativeUnsupported -> uses (S j) = false).
Proof.
  intros P native_call chat_call loads validate final_msg empty_msg max_retries
    retry_sleep_sec has_responses uses run. split.
  - intros payload Hrun. subst run. unfold Retry.extract in Hrun.
    destruct (Z.ltb_spec max_retries 0) as [Hneg|Hpos].
    + replace (Z.to_nat (max_retries + 1)) with 0 in Hrun by lia. discriminate Hrun.
    + change has_responses
        with (Retry.use_responses_at native_call chat_call loads validate
                has_responses 0) in Hrun at 1.
      destruct (loop_cases native_call chat_call loads validate final_msg empty_msg
                  max_retries retry_sleep_sec has_responses
                  (Z.to_nat (max_retries + 1)) 0 [])
        as (k & _ & Hk & _ & _ & [(p & Ho & Hp)|(_ & e & _ & He)]); [lia | lia | |].
      * rewrite Hp in Hrun. injection Hrun as ->. exists k. split; [exact Hk|].
        apply outcome_ok in Ho as [(Hu & text & Hn & Hl)|Hc]; [left | now right].
        apply use_responses_on in Hu as (Hh & Hnot).
        split; [exact Hh|]. split; [exact Hnot|]. exists text. now split.
      * rewrite He in Hrun. discriminate Hrun.
  - intros i j Hij Hu Hn. subst uses.
    apply (use_responses_stays_off native_call chat_call loads validate
             has_responses (S i)); [|lia].
    cbn [Retry.use_responses_at]. unfold Retry.attempt. rewrite Hu, Hn. reflexivity.
Qed.


(** ** The router *)

Lemma prefix_app_l (a b s : string) :
  String.prefix (a +:+ b) s = true -> String.prefix a s = true.
Proof.
  revert s. induction a as [|c a IH]; intros s H; [now destruct s|].
  rewrite str_app_cons in H. destruct s as [|d s]; cbn in H |- *; [discriminate H|].
  destruct (Ascii.ascii_dec c d); [|discriminate H]. now apply IH.
Qed.

Lemma contains_app_l (a b s : string) :
  contains (a +:+ b) s = true -> contains a s = true.
Proof.
  induction s as [|c s IH]; cbn [contains]; intros H.
  - apply orb_true_iff in H as [H|H]; [|discriminate H].
    apply prefix_app_l in H. now rewrite H.
  - apply orb_true_iff in H as [H|H].
    + apply prefix_app_l in H. now rewrite H.
    + rewrite (IH H). apply orb_true_r.
Qed.

Lemma route_loop_spec (items : list (nat * string)) : forall jp mp,
  Ingest.route_loop items jp mp
  = (jp ++ map fst (List.filter
                      (fun it => 2 <=? Ingest._score_page (snd it) Ingest._JURI_PROG_KEYWORDS)
                      items),
     mp ++ map fst (List.filter
                      (fun it => 2 <=? Ingest._score_page (snd it) Ingest._METAS_KEYWORDS)
                      items)).
Proof.
  induction items as [|[n t] items IH]; intros jp mp; cbn [Ingest.route_loop].
  - cbn. now rewrite !app_nil_r.
  - cbv zeta. rewrite IH. cbn [List.filter snd].
    destruct (2 <=? Ingest._score_page t Ingest._JURI_PROG_KEYWORDS);
      destruct (2 <=? Ingest._score_page t Ingest._METAS_KEYWORDS);
      cbn [map fst]; now rewrite <- ?app_assoc.
Qed.

Lemma page_texts_fst (pages : list (option string)) : forall index,
  map fst (Ingest.page_texts_from index pages) = seq index (length pages).
Proof.
  induction pages as [|t pages IH]; intros index; [reflexivity|].
  cbn [Ingest.page_texts_from map fst length seq]. now rewrite IH.
Qed.

Lemma page_texts_lookup (pages : list (option string)) : forall index i t,
  pages !! i = Some t ->
  In (index + i, default EmptyString (py_or t (Some EmptyString)))
     (Ingest.page_texts_from index pages).
Proof.
  induction pages as [|t0 pages IH]; intros index i t H; [discriminate H|].
  destruct i as [|i]; cbn in H.
  - injection H as ->. rewrite Nat.add_0_r. now left.
  - right. replace (index + S i) with (S index + i) by lia. now apply IH.
Qed.

Lemma page_texts_in (pages : list (option string)) : forall index n text,
  In (n, text) (Ingest.page_texts_from index pages) ->
  exists i t, pages !! i = Some t /\ n = index + i /\
              text = default EmptyString (py_or t (Some EmptyString)).
Proof.
  induction pages as [|t0 pages IH]; intros index n text H; [destruct H|].
  destruct H as [H|H].
  - injection H as <- <-. exists 0, t0. repeat split. lia.
  - apply IH in H as (i & t & Hi & -> & ->). exists (S i), t. repeat split; [exact Hi | lia].
Qed.

Lemma sublist_map_filter {A B} (f : A -> B) (p : A -> bool) (l : list A) :
  sublist (map f (List.filter p l)) (map f l).
Proof.
  induction l as [|a l IH]; cbn; [constructor|].
  destruct (p a); cbn; [now apply sublist_skip | now apply sublist_cons].
Qed.

Lemma score_evolucion (text : string) :
  contains "evolucion" (lower text) = true ->
  (2 <=? Ingest._score_page text Ingest._METAS_KEYWORDS) = true.
Proof.
  intros H. assert (H' : contains "evoluci" (lower text) = true)
    by exact (contains_app_l "evoluci" "on" _ H).
  unfold Ingest._score_page, Ingest._METAS_KEYWORDS. cbv zeta. cbn [List.filter].
  rewrite H, H'.
  destruct (contains "metas" (lower text)); destruct (contains "principales" (lower text));
    reflexivity.
Qed.

(** X21. The router lists the pages in order, each at most once, out of
    the pages of the document.  A page whose text has the word
    "evolucion" (in any case) is always among the pages of goals, whatever
    else it says; a page is listed only if its text has two of the
    keywords of the list, so a page without text is in neither list; and
    the fallback is flagged exactly when no page is in either list. *)
Theorem router_pages :
  forall pages : list (option string),
    let r := Ingest.route_sections pages in
    let score_of t keywords :=
      Ingest._score_page (default EmptyString (py_or t (Some EmptyString))) keywords in
    sublist (Ingest.juri_prog_pages r) (seq 1 (length pages)) /\
    sublist (Ingest.metas_pages r) (seq 1 (length pages)) /\
    (forall i text, pages !! i = Some (Some text) ->
       contains "evolucion" (lower text) = true ->
       In (S i) (Ingest.metas_pages r)) /\
    (forall n, In n (Ingest.juri_prog_pages r) ->
       exists i t, n = S i /\ pages !! i = Some t /\
                   2 <= score_of t Ingest._JURI_PROG_KEYWORDS) /\
    (forall n, In n (Ingest.metas_pages r) ->
       exists i t, n = S i /\ pages !! i = Some t /\
                   2 <= score_of t Ingest._METAS_KEYWORDS) /\
    (Ingest.used_fallback r = true <->
     forall i t, pages !! i = Some t ->
       score_of t Ingest._JURI_PROG_KEYWORDS < 2 /\
       score_of t Ingest._METAS_KEYWORDS < 2).
Proof.
  intros pages. cbv zeta. unfold Ingest.route_sections. cbv zeta.
  rewrite route_loop_spec. cbn [app].
  unfold Ingest._extract_page_texts.
  set (items := Ingest.page_texts_from 1 pages).
  set (fj := fun it : nat * string =>
               2 <=? Ingest._score_page (snd it) Ingest._JURI_PROG_KEYWORDS).
  set (fm := fun it : nat * string =>
               2 <=? Ingest._score_page (snd it) Ingest._METAS_KEYWORDS).
  cbn [Ingest.juri_prog_pages Ingest.metas_pages Ingest.used_fallback].
  assert (Hin : forall f n, In n (map fst (List.filter f items)) ->
            exists i t, n = S i /\ pages !! i = Some t /\
              f (S i, default EmptyString (py_or t (Some EmptyString))) = true).
  { intros f n H. apply in_map_iff in H as ([n' text] & <- & H).
    apply filter_In in H as (H & Hf).
    apply page_texts_in in H as (i & t & Hi & -> & ->).
    exists i, t. split; [reflexivity|]. split; [exact Hi | exact Hf]. }
  assert (Hout : forall (f : nat * string -> bool) i t, pages !! i = Some t ->
            f (S i, default EmptyString (py_or t (Some EmptyString))) = true ->
            In (S i) (map fst (List.filter f items))).
  { intros f i t Hi Hf. apply in_map_iff.
    exists (S i, default EmptyString (py_or t (Some EmptyString))).
    split; [reflexivity|]. apply filter_In. split; [|exact Hf].
    exact (page_texts_lookup pages 1 i t Hi). }
  split; [|split; [|split; [|split; [|split]]]].
  - rewrite <- (page_texts_fst pages 1). apply sublist_map_filter.
  - rewrite <- (page_texts_fst pages 1). apply sublist_map_filter.
  - intros i text Hi He. apply (Hout fm i (Some text) Hi).
    unfold fm. cbn [snd py_or]. destruct (nonempty text) eqn:N.
    + now apply score_evolucion.
    + destruct text; [discriminate He | discriminate N].
  - intros n H. apply Hin in H as (i & t & -> & Hi & Hf).
    exists i, t. split; [reflexivity|]. split; [exact Hi|].
    unfold fj in Hf. cbn [snd] in Hf. now apply Nat.leb_le in Hf.
  - intros n H. apply Hin in H as (i & t & -> & Hi & Hf).
    exists i, t. split; [reflexivity|]. split; [exact Hi|].
    unfold fm in Hf. cbn [snd] in Hf. now apply Nat.leb_le in Hf.
  - split.
    + intros H i t Hi. split.
      * destruct (Nat.leb_spec 2 (Ingest._score_page
                    (default EmptyString (py_or t (Some EmptyString)))
                    Ingest._JURI_PROG_KEYWORDS)) as [Hle|Hlt]; [|exact Hlt].
        assert (Hx := Hout fj i t Hi). unfold fj at 1 in Hx. cbn [snd] in Hx.
        apply Nat.leb_le in Hle. specialize (Hx Hle).
        destruct (map fst (List.filter fj items)); [destruct Hx | discriminate H].
      * destruct (Nat.leb_spec 2 (Ingest._score_page
                    (default EmptyString (py_or t (Some EmptyString)))
                    Ingest._METAS_KEYWORDS)) as [Hle|Hlt]; [|exact Hlt].
        assert (Hx := Hout fm i t Hi). unfold fm at 1 in Hx. cbn [snd] in Hx.
        apply Nat.leb_le in Hle. specialize (Hx Hle).
        destruct (map fst (List.filter fj items));
          destruct (map fst (List.filter fm items));
          first [discriminate H | destruct Hx].
    + intros H.
      destruct (map fst (List.filter fj items)) as [|n l] eqn:Ej.
      * destruct (map fst (List.filter fm items)) as [|n l] eqn:Em; [reflexivity|].
        destruct (Hin fm n) as (i & t & -> & Hi & Hf); [rewrite Em; now left|].
        unfold fm in Hf. cbn [snd] in Hf. apply Nat.leb_le in Hf.
        destruct (H i t Hi) as (_ & Hlt). lia.
      * destruct (Hin fj n) as (i & t & -> & Hi & Hf); [rewrite Ej; now left|].
        unfold fj in Hf. cbn [snd] in Hf. apply Nat.leb_le in Hf.
        destruct (H i t Hi) as (Hlt & _). lia.
Qed.


(** ** Goals and programs in the ingest *)

Ltac insert_cases H :=
  repeat match type of H with
         | (if ?b then _ else _) !! _ = Some _ => destruct b
         | <[_ := _]> _ !! _ = Some _ =>
             apply lookup_insert_Some in H as [[_ H]|[_ H]]
         end.

Lemma ingest_mapping_sound (rows : list Ingest.program_row) :
  forall (m : gmap string string) (k v : string),
    Ingest.program_mapping_from rows m !! k = Some v ->
    m !! k = Some v \/
    (nonempty v = true /\
     exists p, In p rows /\ Ingest.ID_Programa p = Some v).
Proof.
  induction rows as [|p rows IH]; intros m k v H;
    cbn [Ingest.program_mapping_from] in H; [now left|].
  cbv zeta in H.
  destruct (truthy (Ingest.ID_Programa p)) eqn:T; cbn [negb] in H.
  - apply IH in H as [H|(Hv & q & Hq & Hid)];
      [|right; split; [exact Hv|]; exists q; split; [now right | exact Hid]].
    assert (Hidp : Ingest.ID_Programa p
                   = Some (default EmptyString (Ingest.ID_Programa p)))
      by now apply truthy_default.
    assert (Hne : nonempty (default EmptyString (Ingest.ID_Programa p)) = true)
      by (destruct (Ingest.ID_Programa p); [exact T | discriminate T]).
    insert_cases H;
      first [ now left
            | right; subst v; split; [exact Hne|]; exists p; split;
              [now left | exact Hidp] ].
  - apply IH in H as [H|(Hv & q & Hq & Hid)]; [now left|].
    right. split; [exact Hv|]. exists q. split; [now right | exact Hid].
Qed.

Lemma ingest_mapping_has_code (rows : list Ingest.program_row) :
  forall (m : gmap string string) (k : string),
    (is_Some (m !! k) \/
     exists p, In p rows /\ truthy (Ingest.ID_Programa p) = true /\
       nonempty (strip (default EmptyString (Ingest.Prog_Codigo p))) = true /\
       k = strip (default EmptyString (Ingest.Prog_Codigo p))) ->
    is_Some (Ingest.program_mapping_from rows m !! k).
Proof.
  induction rows as [|p rows IH]; intros m k H; cbn [Ingest.program_mapping_from].
  - destruct H as [H|(p & [] & _)]. exact H.
  - cbv zeta.
    destruct (truthy (Ingest.ID_Programa p)) eqn:T; cbn [negb].
    + apply IH. destruct H as [H|(q & [E|Hq] & Hf)]; [left | left | right; eauto].
      * repeat match goal with
               | |- is_Some ((if ?b then _ else _) !! _) => destruct b
               | |- is_Some (<[_ := _]> _ !! _) => apply lookup_insert_is_Some'; right
               end; exact H.
      * subst q. destruct Hf as (_ & Hp & ->). rewrite Hp.
        repeat match goal with
               | |- is_Some ((if ?b then _ else _) !! _) => destruct b
               | |- is_Some (<[?k := _]> _ !! ?k) =>
                   apply lookup_insert_is_Some'; now left
               | |- is_Some (<[_ := _]> _ !! _) => apply lookup_insert_is_Some'; right
               end.
    + apply IH. destruct H as [H|(q & [E|Hq] & Hf)]; [now left| |right; eauto].
      subst q. destruct Hf as (Hf & _). congruence.
Qed.

Lemma ingest_lookup_nonempty (rows : list Ingest.program_row) (k v : string) :
  Ingest._build_program_mapping rows !! k = Some v ->
  nonempty v = true /\ exists p, In p rows /\ Ingest.ID_Programa p = Some v.
Proof.
  intros H. apply ingest_mapping_sound in H as [H|H]; [|exact H].
  now rewrite lookup_empty in H.
Qed.

Lemma py_or_cases (x y : option string) :
  py_or x y = x /\ truthy x = true \/ py_or x y = y /\ truthy x = false.
Proof.
  destruct x as [s|]; cbn; [destruct (nonempty s)|]; auto.
Qed.

Lemma ingest_resolve_sound (rows : list Ingest.program_row) (m : Ingest.meta)
    (id : option string) :
  Ingest._resolve_program_id (Ingest._build_program_mapping rows) m = id ->
  truthy id = true ->
  exists v p, id = Some v /\ nonempty v = true /\ In p rows /\
              Ingest.ID_Programa p = Some v.
Proof.
  unfold Ingest._resolve_program_id. cbv zeta. intros H T.
  assert (Hget : forall k, Ingest._build_program_mapping rows !! k = id ->
            exists v p, id = Some v /\ nonempty v = true /\ In p rows /\
                        Ingest.ID_Programa p = Some v).
  { intros k Hk. destruct id as [v|]; [|discriminate T].
    apply ingest_lookup_nonempty in Hk as (Hv & p & Hp & Hid).
    exists v, p. repeat split; assumption. }
  repeat match type of H with
         | (if ?b then _ else _) = _ => destruct b
         | py_or ?x ?y = _ =>
             destruct (py_or_cases x y) as [(E & _)|(E & _)]; rewrite E in H
         end;
    first [ now apply Hget in H | subst id; discriminate T ].
Qed.

Lemma resolve_metas_spec (mapping : gmap string string) (metas : list Ingest.meta) :
  forall resolved unresolved,
    Ingest.resolve_metas mapping metas resolved unresolved
    = (resolved
       ++ map (fun m => Ingest.set_id_programa m (Ingest._resolve_program_id mapping m))
            (List.filter (fun m => truthy (Ingest._resolve_program_id mapping m)) metas),
       unresolved
       ++ List.filter (fun m => negb (truthy (Ingest._resolve_program_id mapping m)))
            metas).
Proof.
  induction metas as [|m metas IH]; intros resolved unresolved;
    cbn [Ingest.resolve_metas].
  - cbn. now rewrite !app_nil_r.
  - cbv zeta. cbn [List.filter].
    destruct (truthy (Ingest._resolve_program_id mapping m)); cbn [negb map];
      rewrite IH, <- ?app_assoc; reflexivity.
Qed.

Lemma validate_metas_quiet (doc_id : string) (metas : list Ingest.meta) :
  Forall (fun m => truthy (Ingest.id_programa m) = true) metas ->
  Ingest.validate_metas (Ingest._prep_metas_rows doc_id metas) = [].
Proof.
  induction 1 as [|m metas Hm _ IH]; [reflexivity|].
  cbn [Ingest._prep_metas_rows map Ingest.validate_metas Ingest.R_ID_Programa] in *.
  cbv zeta. cbn [py_or]. rewrite Hm. exact IH.
Qed.


(** X23. In the ingest a goal that names a program code is resolved
    whenever a fetched program with an identifier has that code (both
    stripped), whether or not the goal's jurisdiction code is known: the
    look-up under jurisdiction and code falls back to the code alone. *)
Theorem ingest_goal_found_by_code :
  forall (program_rows : list Ingest.program_row) (metas : list Ingest.meta)
         (m : Ingest.meta) (p : Ingest.program_row),
    In m metas -> In p program_rows ->
    truthy (Ingest.ID_Programa p) = true ->
    nonempty (strip (default EmptyString (Ingest.prog_codigo m))) = true ->
    strip (default EmptyString (Ingest.prog_codigo m))
    = strip (default EmptyString (Ingest.Prog_Codigo p)) ->
    ~ In m (snd (Ingest.extract_metas program_rows metas)) /\
    exists r, In r (fst (Ingest.extract_metas program_rows metas)) /\
      truthy (Ingest.id_programa r) = true /\
      r = Ingest.set_id_programa m (Ingest.id_programa r).
Proof.
  intros program_rows metas m p Hm Hp Ht Hne Heq.
  unfold Ingest.extract_metas. rewrite resolve_metas_spec. cbn [app fst snd].
  set (mapping := Ingest._build_program_mapping program_rows).
  assert (Hcode : exists v, mapping !! strip (default EmptyString (Ingest.prog_codigo m))
                            = Some v /\ nonempty v = true).
  { destruct (ingest_mapping_has_code program_rows ∅
                (strip (default EmptyString (Ingest.prog_codigo m)))) as [v Hv].
    - right. exists p. rewrite <- Heq. repeat split; assumption.
    - exists v. split; [exact Hv|]. now apply ingest_lookup_nonempty in Hv as (Hv' & _). }
  destruct Hcode as (v & Hv & Hvne).
  assert (Hfound : truthy (Ingest._resolve_program_id mapping m) = true).
  { unfold Ingest._resolve_program_id. cbv zeta. rewrite Hne, andb_true_r.
    destruct (nonempty (strip (default EmptyString (Ingest.juri_codigo m)))).
    - rewrite Hv.
      destruct (py_or_cases
                  (mapping !! (strip (default EmptyString (Ingest.juri_codigo m))
                               +:+ "::"
                               +:+ strip (default EmptyString (Ingest.prog_codigo m))))
                  (Some v)) as [(-> & T)|(-> & _)]; [exact T | exact Hvne].
    - rewrite Hv. exact Hvne. }
  split.
  - intros Hin. apply filter_In in Hin as (_ & Hneg). now rewrite Hfound in Hneg.
  - exists (Ingest.set_id_programa m (Ingest._resolve_program_id mapping m)).
    split; [|split; [exact Hfound | reflexivity]].
    apply in_map_iff. exists m. split; [reflexivity|]. apply filter_In. now split.
Qed.

Lemma ingest_goal_found_by_code_witness :
  ~ In ingest_goal_07
      (snd (Ingest.extract_metas [ingest_program_07] [ingest_goal_07])) /\
  exists r, In r (fst (Ingest.extract_metas [ingest_program_07] [ingest_goal_07])) /\
    truthy (Ingest.id_programa r) = true /\
    r = Ingest.set_id_programa ingest_goal_07 (Ingest.id_programa r).
Proof.
  apply (ingest_goal_found_by_code [ingest_program_07] [ingest_goal_07]
           ingest_goal_07 ingest_program_07).
  - now left.
  - now left.
  - reflexivity.
  - reflexivity.
  - reflexivity.
Defined.

(** ** The check of jurisdictions and programs *)

Lemma juri_codes_spec (jurisdicciones : list Ingest.juri_item) (c : string) :
  c ∈ Ingest.juri_codes jurisdicciones <->
  nonempty c = true /\
  exists j, In j jurisdicciones /\ Ingest.ji_juri_codigo j = Some c.
Proof.
  unfold Ingest.juri_codes. rewrite elem_of_list_to_set, list_elem_of_omap. split.
  - intros (j & Hj & E). apply list_elem_of_In in Hj.
    destruct (truthy (Ingest.ji_juri_codigo j)) eqn:T; [|discriminate E].
    rewrite E in T. split; [exact T|]. exists j. now split.
  - intros (Hc & j & Hj & E). exists j. split; [now apply list_elem_of_In|].
    rewrite E. cbn [truthy]. now rewrite Hc.
Qed.

Lemma prog_warnings_spec (codes : gset string) (programas : list Ingest.prog_item) :
  (EmptyString ∉ codes) ->
  length (Ingest.prog_warnings codes programas) <= length programas /\
  (Ingest.prog_warnings codes programas = [] <->
   Forall (fun prog => exists c, Ingest.pi_juri_codigo prog = Some c /\ c ∈ codes)
          programas).
Proof.
  intros Hcodes.
  induction programas as [|prog programas (IHl & IHe)]; cbn [Ingest.prog_warnings].
  - split; [cbn; lia|]. split; [constructor | reflexivity].
  - destruct (truthy (Ingest.pi_juri_codigo prog)) eqn:T; cbn [negb].
    + destruct (bool_decide _) eqn:B; cbn [negb].
      * apply bool_decide_eq_true in B. split; [cbn [length]; lia|].
        rewrite IHe. split.
        -- intros H. constructor; [|exact H].
           destruct (Ingest.pi_juri_codigo prog) as [c|]; [|discriminate T].
           exists c. now split.
        -- intros H. now apply Forall_cons in H as (_ & H).
      * apply bool_decide_eq_false in B. split; [cbn [length]; lia|].
        split; [discriminate|]. intros H. apply Forall_cons in H as ((c & E & Hc) & _).
        rewrite E in B. contradiction.
    + split; [cbn [length]; lia|]. split; [discriminate|].
      intros H. apply Forall_cons in H as ((c & E & Hc) & _).
      rewrite E in T. destruct c; [contradiction | discriminate T].
Qed.

(** X24. [validate_juri_prog] reports nothing exactly when the payload
    has a jurisdiction and a program and every program carries the
    non-empty code of a listed jurisdiction.  It reports at most one
    warning per program besides the two on the empty lists. *)
Theorem validate_juri_prog_quiet_iff :
  forall (jurisdicciones : list Ingest.juri_item)
         (programas : list Ingest.prog_item),
    (Ingest.validate_juri_prog jurisdicciones programas = [] <->
     jurisdicciones <> [] /\ programas <> [] /\
     Forall (fun prog => exists c j,
               Ingest.pi_juri_codigo prog = Some c /\ nonempty c = true /\
               In j jurisdicciones /\ Ingest.ji_juri_codigo j = Some c)
            programas) /\
    length (Ingest.validate_juri_prog jurisdicciones programas)
    <= 2 + length programas.
Proof.
  intros jurisdicciones programas. unfold Ingest.validate_juri_prog.
  assert (Hcodes : EmptyString ∉ Ingest.juri_codes jurisdicciones).
  { intros H. apply juri_codes_spec in H as (H & _). discriminate H. }
  destruct (prog_warnings_spec (Ingest.juri_codes jurisdicciones) programas Hcodes)
    as (Hlen & Hiff).
  assert (Hsame :
    Forall (fun prog => exists c, Ingest.pi_juri_codigo prog = Some c /\
                                  c ∈ Ingest.juri_codes jurisdicciones) programas
    <-> Forall (fun prog => exists c j,
               Ingest.pi_juri_codigo prog = Some c /\ nonempty c = true /\
               In j jurisdicciones /\ Ingest.ji_juri_codigo j = Some c) programas).
  { split; intros H; (eapply Forall_impl; [exact H|]); cbn beta.
    - intros prog (c & E & Hc). apply juri_codes_spec in Hc as (Hne & j & Hj & Ej).
      exists c, j. repeat split; assumption.
    - intros prog (c & j & E & Hne & Hj & Ej). exists c. split; [exact E|].
      apply juri_codes_spec. split; [exact Hne|]. exists j. now split. }
  split.
  - rewrite <- Hsame, <- Hiff.
    destruct jurisdicciones as [|j js]; destruct programas as [|p ps]; cbn [app].
    + split; [discriminate | intros (H & _); congruence].
    + split; [discriminate | intros (H & _); congruence].
    + split; [discriminate | intros (_ & H & _); congruence].
    + split; [intros H; repeat split; [discriminate | discriminate | exact H]
             | intros (_ & _ & H); exact H].
  - destruct jurisdicciones; destruct programas; rewrite ?length_app;
      cbn [length app] in *; lia.
Qed.


(** ** Programs made from the goals, then the goals resolved *)

Lemma rstrip_by_idem p (s : string) : rstrip_by p (rstrip_by p s) = rstrip_by p s.
Proof.
  induction s as [|c s IH]; [reflexivity|]. cbn [rstrip_by].
  destruct (rstrip_by p s) as [|d r] eqn:E.
  - destruct (p c) eqn:Pc; [reflexivity|]. cbn [rstrip_by]. now rewrite Pc.
  - cbn [rstrip_by] in IH |- *. 
    change (match rstrip_by p (String d r) with
            | EmptyString => if p c then EmptyString else String c EmptyString
            | String a b => String c (String a b)
            end = String c (String d r)).
    cbn [rstrip_by]. rewrite IH. reflexivity.
Qed.

Lemma lstrip_by_head p (s : string) (h : ascii) (z : string) :
  lstrip_by p s = String h z -> p h = false.
Proof.
  induction s as [|c s IH]; cbn [lstrip_by]; [discriminate|].
  destruct (p c) eqn:Pc; [exact IH|]. intros H. injection H as <- _. exact Pc.
Qed.

Lemma strip_idem (s : string) : strip (strip s) = strip s.
Proof.
  unfold strip. destruct (lstrip_by is_space s) as [|h z] eqn:L; [reflexivity|].
  pose proof (lstrip_by_head _ _ _ _ L) as Hh.
  destruct (rstrip_by is_space (String h z)) as [|x y] eqn:R; [reflexivity|].
  destruct (rstrip_by_head _ _ _ _ R) as (z' & Hz). injection Hz as <- _.
  rewrite (lstrip_by_id is_space h y Hh), <- R. apply rstrip_by_idem.
Qed.

Lemma juri_by_id_lookup (items : list (string * option string)) (jid jc : string) :
  nonempty jid = true ->
  (forall c, In (c, Some jid) items -> c = jc) ->
  forall m : gmap string string,
    In (jc, Some jid) items \/ m !! jid = Some jc ->
    SingleShotProgs.juri_by_id_from items m !! jid = Some jc.
Proof.
  intros Hne. induction items as [|[k v] items IH]; intros Hall m H;
    cbn [SingleShotProgs.juri_by_id_from].
  - destruct H as [[]|H]. exact H.
  - assert (Hall' : forall c, In (c, Some jid) items -> c = jc)
      by (intros c Hc; apply Hall; now right).
    destruct (truthy v) eqn:T.
    + apply (IH Hall'). destruct (decide (default EmptyString v = jid)) as [E|E].
      * right. destruct v as [i|]; [|discriminate T]. cbn in E. subst i.
        rewrite (Hall k (or_introl eq_refl)). apply lookup_insert_eq.
      * destruct H as [[H|H]|H].
        -- injection H as -> ->. now contradiction E.
        -- now left.
        -- right. rewrite lookup_insert_ne by exact E. exact H.
    + apply (IH Hall'). destruct H as [[H|H]|H]; [|now left | now right].
      injection H as -> ->. cbn in T. congruence.
Qed.

(** X25. In the single-shot pipeline, once the programs made from the
    goals are stored, a goal stays unresolved only if it lacks a
    jurisdiction code, a program code or a program name, or if its
    jurisdiction is unknown.  This holds when the second fetch returns the
    programs just written, each with an identifier, and no two
    jurisdiction codes share an identifier. *)
Theorem created_programs_resolve_goals :
  forall (juri_items : list (string * option string))
         (goals : list SingleShot.meta_item)
         (prog_db prog_db' : list SingleShotProgs.prog_db_row),
    let juri_map : gmap string (option string) := list_to_map juri_items in
    (forall c1 c2 i, In (c1, Some i) juri_items -> In (c2, Some i) juri_items ->
       nonempty i = true -> c1 = c2) ->
    (forall r, In r (fst (SingleShotProgs._create_programs_from_metas goals juri_map)) ->
       exists p, In p prog_db' /\
         truthy (SingleShotProgs.ID_Programa p) = true /\
         SingleShotProgs.ID_Jurisdiccion p = Some (SingleShotProgs.NP_ID_Jurisdiccion r) /\
         SingleShotProgs.Prog_Codigo p = Some (SingleShotProgs.NP_Prog_Codigo r)) ->
    let '(rows, warnings, unresolved) :=
      SingleShot._map_metas goals
        (program_mapping_step juri_items goals prog_db prog_db') in
    Forall (fun g =>
      nonempty (strip (default EmptyString (SingleShot.M_Juri_Codigo g))) = false \/
      nonempty (strip (default EmptyString (SingleShot.M_Prog_Codigo g))) = false \/
      nonempty (strip (default EmptyString (SingleShot.M_Prog_Nombre g))) = false \/
      truthy (mjoin (juri_map !! strip (default EmptyString (SingleShot.M_Juri_Codigo g))))
      = false) unresolved.
Proof.
  intros juri_items goals prog_db prog_db' juri_map Hinj Hstore.
  unfold program_mapping_step. cbv zeta.
  unfold SingleShotProgs._create_programs_from_metas in *. cbv zeta in *.
  cbn [fst] in Hstore.
  destruct (new_program_rows_spec juri_map goals ∅) as (sel & H1 & _ & H3 & _ & H5).
  fold juri_map.
  set (mapping := if 0 <? length _ then _ else _).
  pose proof (ss_map_metas_spec mapping goals) as Hspec.
  destruct (SingleShot._map_metas goals mapping) as [[rows warnings] unresolved].
  destruct Hspec as (-> & _ & _ & _).
  apply Forall_forall. intros g Hg. apply list_elem_of_In in Hg.
  apply filter_In in Hg as (Hg & Hres). apply negb_true_iff in Hres.
  destruct (nonempty (strip (default EmptyString (SingleShot.M_Juri_Codigo g)))) eqn:Nj;
    [|now left].
  destruct (nonempty (strip (default EmptyString (SingleShot.M_Prog_Codigo g)))) eqn:Np;
    [|now right; left].
  destruct (nonempty (strip (default EmptyString (SingleShot.M_Prog_Nombre g)))) eqn:Nn;
    [|now right; right; left].
  destruct (truthy (mjoin (juri_map !! strip (default EmptyString
                                               (SingleShot.M_Juri_Codigo g))))) eqn:T;
    [|now right; right; right].
  exfalso.
  assert (Hc : creatable juri_map g = true)
    by (unfold creatable; now rewrite Nj, Np, Nn, T).
  destruct (H5 g Hg Hc) as (s & Hs & Hkey); [apply not_elem_of_empty|].
  assert (Hrow : In (new_prog_row_of juri_map s)
                    (SingleShotProgs.new_program_rows goals juri_map ∅))
    by (rewrite H1; now apply in_map).
  destruct (Hstore _ Hrow) as (p & Hp & Hid & Hj & Hcode).
  unfold new_prog_key in Hkey. injection Hkey as Kj Kp.
  cbn [new_prog_row_of SingleShotProgs.NP_ID_Jurisdiccion
       SingleShotProgs.NP_Prog_Codigo] in Hj, Hcode.
  rewrite Kj in Hj. rewrite Kp in Hcode.
  set (jc := strip (default EmptyString (SingleShot.M_Juri_Codigo g))) in *.
  set (pc := strip (default EmptyString (SingleShot.M_Prog_Codigo g))) in *.
  destruct (juri_map !! jc) as [[jid|]|] eqn:L; try discriminate T.
  cbn [mjoin default] in Hj, T. cbn in Hj, T.
  assert (Hin : In (jc, Some jid) juri_items).
  { apply list_elem_of_In. now apply elem_of_list_to_map_2. }
  assert (Hby : SingleShotProgs.juri_by_id juri_items !! jid = Some jc).
  { apply juri_by_id_lookup; [exact T | | now left].
    intros c Hc'. exact (Hinj c jc jid Hc' Hin T). }
  assert (Hlen : (0 <? length (SingleShotProgs.new_program_rows goals juri_map ∅)) = true).
  { destruct (SingleShotProgs.new_program_rows goals juri_map ∅); [destruct Hrow|reflexivity]. }
  subst mapping. rewrite Hlen in Hres.
  assert (Hne : forall k v,
            SingleShotProgs._build_program_mapping prog_db' juri_items !! k = Some v ->
            nonempty v = true)
    by (intros k v; apply program_mapping_nonempty).
  assert (R : SingleShot.meta_resolved
                (SingleShotProgs._build_program_mapping prog_db' juri_items) g = true).
  { apply (lookup_prog_nonempty _ g Hne).
    unfold SingleShotProgs._build_program_mapping.
    apply program_mapping_complete. right. exists p. split; [exact Hp|].
    unfold filed_under. cbv zeta. rewrite Hj, Hcode.
    cbn [SingleShotProgs.juri_code_of default].
    rewrite Hby. cbn [default].
    assert (Hsp : strip pc = pc) by (unfold pc; apply strip_idem).
    unfold id. rewrite !Hsp.
    split; [exact Hid|]. split; [exact Np|]. right. split; [exact Nj|].
    unfold SingleShot.meta_key. cbv zeta. fold jc pc. now rewrite Nj, Np. }
  congruence.
Qed.

Lemma created_programs_resolve_goals_witness :
  let '(rows, warnings, unresolved) :=
    SingleShot._map_metas
      [goal_of "1110101000" "16" "Salud"; goal_of "" "17" "Obras"]
      (program_mapping_step two_juri_items
         [goal_of "1110101000" "16" "Salud"; goal_of "" "17" "Obras"]
         [] [stored_program "p-16" "j-1" "16"]) in
  Forall (fun g =>
    nonempty (strip (default EmptyString (SingleShot.M_Juri_Codigo g))) = false \/
    nonempty (strip (default EmptyString (SingleShot.M_Prog_Codigo g))) = false \/
    nonempty (strip (default EmptyString (SingleShot.M_Prog_Nombre g))) = false \/
    truthy (mjoin ((list_to_map two_juri_items : gmap string (option string))
                   !! strip (default EmptyString (SingleShot.M_Juri_Codigo g))))
    = false) unresolved.
Proof.
  apply (created_programs_resolve_goals two_juri_items
           [goal_of "1110101000" "16" "Salud"; goal_of "" "17" "Obras"]
           [] [stored_program "p-16" "j-1" "16"]).
  - intros c1 c2 i H1 H2 _.
    destruct H1 as [H1|[H1|[]]]; destruct H2 as [H2|[H2|[]]]; congruence.
  - intros r Hr. vm_compute in Hr. destruct Hr as [<-|[]].
    exists (stored_program "p-16" "j-1" "16"). repeat split. now left.
Defined.


(** ** Rows sent by [insert_rows] *)

Section InsertRows.
Context {V : Type}.
Implicit Types (r : gmap string (option V)) (rows : list (gmap string (option V))).

Lemma all_keys_from_spec rows : forall (acc : gset string) (k : string),
  k ∈ LoadSupabase.all_keys_from rows acc <->
  k ∈ acc \/ exists r, In r rows /\ k ∈ dom r.
Proof.
  induction rows as [|r rows IH]; intros acc k; cbn [LoadSupabase.all_keys_from].
  - split; [now left | intros [H|(r & [] & _)]; exact H].
  - rewrite IH, elem_of_union. split.
    + intros [[H|H]|(r' & Hr & Hk)]; [now left | right; exists r; split; [now left | exact H]|].
      right. exists r'. split; [now right | exact Hk].
    + intros [H|(r' & [<-|Hr] & Hk)]; [now left; left | now left; right |].
      right. exists r'. now split.
Qed.

Lemma normalized_lookup (keys : gset string) r (k : string) :
  LoadSupabase.normalized keys r !! k
  = if bool_decide (k ∈ keys) then Some (mjoin (r !! k)) else None.
Proof.
  unfold LoadSupabase.normalized.
  assert (Hinj : forall y y' : string, y ∈ keys -> y' ∈ keys ->
            (y, mjoin (r !! y)).1 = (y', mjoin (r !! y')).1 -> y = y')
    by (intros y y' _ _ E; exact E).
  destruct (bool_decide (k ∈ keys)) eqn:B.
  - apply bool_decide_eq_true in B.
    apply (lookup_set_to_map (fun k => (k, mjoin (r !! k))) keys k _ Hinj).
    exists k. split; [exact B | reflexivity].
  - apply bool_decide_eq_false in B.
    destruct (set_to_map _ keys !! k) as [x|] eqn:E; [|reflexivity].
    apply (lookup_set_to_map (fun k => (k, mjoin (r !! k))) keys k _ Hinj) in E
      as (y & Hy & Ey).
    injection Ey as -> _. contradiction.
Qed.
End InsertRows.

(** X26. The rows [insert_rows] hands to the client all have the same
    keys, namely every key that occurs in some row.  There are as many
    rows as were given, in the same order; a key a row had keeps its value,
    and a key it lacked is set to [None], so [get] gives on each row what
    it gave before. *)
Theorem insert_rows_uniform_keys :
  forall (V : Type) (rows : list (gmap string (option V))),
    let out := LoadSupabase.normalized_rows rows in
    length out = length rows /\
    (exists all_keys : gset string,
       (forall k, k ∈ all_keys <-> exists r, In r rows /\ k ∈ dom r) /\
       Forall (fun r' => dom r' = all_keys) out) /\
    (forall i r r', rows !! i = Some r -> out !! i = Some r' ->
       forall k,
         mjoin (r' !! k) = mjoin (r !! k) /\
         (k ∈ dom r -> r' !! k = r !! k) /\
         (k ∉ dom r -> k ∈ dom r' -> r' !! k = Some None)).
Proof.
  intros V rows. cbv zeta. unfold LoadSupabase.normalized_rows. cbv zeta.
  set (keys := LoadSupabase.all_keys_from rows ∅).
  assert (Hkeys : forall k, k ∈ keys <-> exists r, In r rows /\ k ∈ dom r).
  { intros k. unfold keys. rewrite all_keys_from_spec. split; [|now right].
    intros [H|H]; [|exact H]. now apply not_elem_of_empty in H. }
  split; [apply length_map|]. split; [|].
  - exists keys. split; [exact Hkeys|]. apply Forall_forall. intros r' Hr'.
    apply list_elem_of_In in Hr'. apply in_map_iff in Hr' as (r & <- & _).
    apply set_eq. intros k. rewrite elem_of_dom, normalized_lookup.
    destruct (bool_decide (k ∈ keys)) eqn:B.
    + apply bool_decide_eq_true in B. split; [intros _; exact B | eauto].
    + apply bool_decide_eq_false in B. split; [intros [? ?]; discriminate | contradiction].
  - intros i r r' Hr Hr' k. rewrite list_lookup_fmap, Hr in Hr'. cbn in Hr'.
    injection Hr' as <-. rewrite normalized_lookup.
    assert (Hin : k ∈ dom r -> k ∈ keys).
    { intros Hk. apply Hkeys. exists r. split; [|exact Hk].
      apply list_elem_of_In. eapply list_elem_of_lookup_2. exact Hr. }
    destruct (bool_decide (k ∈ keys)) eqn:B.
    + apply bool_decide_eq_true in B. split; [reflexivity|]. split.
      * intros Hk. apply elem_of_dom in Hk as [x Hx]. rewrite Hx. reflexivity.
      * intros Hk _. apply not_elem_of_dom in Hk. rewrite Hk. reflexivity.
    + apply bool_decide_eq_false in B. split; [|split].
      * destruct (r !! k) as [x|] eqn:E; [|reflexivity].
        exfalso. apply B, Hin, elem_of_dom. eauto.
      * intros Hk. exfalso. exact (B (Hin Hk)).
      * intros _ Hk. apply elem_of_dom in Hk as [x Hx].
        rewrite normalized_lookup in Hx.
        destruct (bool_decide (k ∈ keys)) eqn:B'; [|discriminate Hx].
        apply bool_decide_eq_true in B'. contradiction.
Qed.


(** ** Goals and the programs fetched (runner, step 15) *)

Lemma prog_maps_sound (prog_db : list RunnerGoals.prog_db_row)
    (juri_items : list (string * option string)) :
  forall (bk bn : gmap (string * string) string),
    let '(bk', bn') := RunnerGoals.prog_maps_from prog_db juri_items bk bn in
    (forall jc x v, bk' !! (jc, x) = Some v ->
       bk !! (jc, x) = Some v \/
       exists p, In p prog_db /\ runner_filed juri_items p jc /\
         nonempty x = true /\
         x = strip (default EmptyString (RunnerGoals.Prog_Codigo p)) /\
         v = default EmptyString (RunnerGoals.ID_Programa p)) /\
    (forall jc x v, bn' !! (jc, x) = Some v ->
       bn !! (jc, x) = Some v \/
       exists p, In p prog_db /\ runner_filed juri_items p jc /\
         nonempty x = true /\
         x = lower (strip (default EmptyString (RunnerGoals.Prog_Nombre p))) /\
         v = default EmptyString (RunnerGoals.ID_Programa p)).
Proof.
  induction prog_db as [|p prog_db IH]; intros bk bn;
    cbn [RunnerGoals.prog_maps_from]; [split; intros; now left|].
  cbv zeta.
  set (pc := strip (default EmptyString (RunnerGoals.Prog_Codigo p))).
  set (pn := lower (strip (default EmptyString (RunnerGoals.Prog_Nombre p)))).
  destruct (truthy (RunnerGoals.juri_code_of juri_items (RunnerGoals.ID_Jurisdiccion p)))
    eqn:T.
  - destruct (RunnerGoals.juri_code_of juri_items (RunnerGoals.ID_Jurisdiccion p))
      as [jcp|] eqn:J; [|discriminate T]. cbn [default truthy] in *.
    match goal with
    | |- context [RunnerGoals.prog_maps_from prog_db juri_items ?a ?b] =>
        specialize (IH a b);
        destruct (RunnerGoals.prog_maps_from prog_db juri_items a b) as [bk' bn']
    end.
    destruct IH as (IHk & IHn). split.
    + intros jc x v H. apply IHk in H as [H|(q & Hq & Hf)];
        [|right; exists q; split; [now right | exact Hf]].
      destruct (nonempty pc) eqn:Np; [|now left].
      apply lookup_insert_Some in H as [[E <-]|[_ H]]; [|now left].
      injection E as <- <-. right. exists p. split; [now left|].
      unfold runner_filed. rewrite J. repeat split; assumption.
    + intros jc x v H. apply IHn in H as [H|(q & Hq & Hf)];
        [|right; exists q; split; [now right | exact Hf]].
      destruct (nonempty pn) eqn:Np; [|now left].
      apply lookup_insert_Some in H as [[E <-]|[_ H]]; [|now left].
      injection E as <- <-. right. exists p. split; [now left|].
      unfold runner_filed. rewrite J. repeat split; assumption.
  - specialize (IH bk bn).
    destruct (RunnerGoals.prog_maps_from prog_db juri_items bk bn) as [bk' bn'].
    destruct IH as (IHk & IHn). split.
    + intros jc x v H. apply IHk in H as [H|(q & Hq & Hf)]; [now left|].
      right. exists q. split; [now right | exact Hf].
    + intros jc x v H. apply IHn in H as [H|(q & Hq & Hf)]; [now left|].
      right. exists q. split; [now right | exact Hf].
Qed.

Lemma prog_maps_complete (prog_db : list RunnerGoals.prog_db_row)
    (juri_items : list (string * option string)) :
  (forall p, In p prog_db -> truthy (RunnerGoals.ID_Programa p) = true) ->
  forall (bk bn : gmap (string * string) string),
    (forall k v, bk !! k = Some v -> nonempty v = true) ->
    (forall k v, bn !! k = Some v -> nonempty v = true) ->
    let '(bk', bn') := RunnerGoals.prog_maps_from prog_db juri_items bk bn in
    (forall k v, bk' !! k = Some v -> nonempty v = true) /\
    (forall k v, bn' !! k = Some v -> nonempty v = true) /\
    (forall jc x,
       (is_Some (bk !! (jc, x)) \/
        exists p, In p prog_db /\ runner_filed juri_items p jc /\ nonempty x = true /\
          x = strip (default EmptyString (RunnerGoals.Prog_Codigo p))) ->
       is_Some (bk' !! (jc, x))) /\
    (forall jc x,
       (is_Some (bn !! (jc, x)) \/
        exists p, In p prog_db /\ runner_filed juri_items p jc /\ nonempty x = true /\
          x = lower (strip (default EmptyString (RunnerGoals.Prog_Nombre p)))) ->
       is_Some (bn' !! (jc, x))).
Proof.
  induction prog_db as [|p prog_db IH]; intros Hall bk bn Hk Hn;
    cbn [RunnerGoals.prog_maps_from].
  - split; [exact Hk|]. split; [exact Hn|].
    split; intros jc x [H|(p & [] & _)]; exact H.
  - cbv zeta.
    assert (Hall' : forall q, In q prog_db -> truthy (RunnerGoals.ID_Programa q) = true)
      by (intros q Hq; apply Hall; now right).
    assert (Hp : nonempty (default EmptyString (RunnerGoals.ID_Programa p)) = true).
    { specialize (Hall p (or_introl eq_refl)).
      destruct (RunnerGoals.ID_Programa p); [exact Hall | discriminate Hall]. }
    set (pc := strip (default EmptyString (RunnerGoals.Prog_Codigo p))).
    set (pn := lower (strip (default EmptyString (RunnerGoals.Prog_Nombre p)))).
    destruct (truthy (RunnerGoals.juri_code_of juri_items
                        (RunnerGoals.ID_Jurisdiccion p))) eqn:T.
    + destruct (RunnerGoals.juri_code_of juri_items (RunnerGoals.ID_Jurisdiccion p))
        as [jcp|] eqn:J; [|discriminate T]. cbn [default truthy] in *.
      match goal with
      | |- context [RunnerGoals.prog_maps_from prog_db juri_items ?a ?b] =>
          specialize (IH Hall' a b);
          destruct (RunnerGoals.prog_maps_from prog_db juri_items a b) as [bk' bn']
      end.
      destruct IH as (H1 & H2 & H3 & H4).
      * intros k v H. destruct (nonempty pc); [|now apply (Hk k)].
        apply lookup_insert_Some in H as [[_ <-]|[_ H]]; [exact Hp | now apply (Hk k)].
      * intros k v H. destruct (nonempty pn); [|now apply (Hn k)].
        apply lookup_insert_Some in H as [[_ <-]|[_ H]]; [exact Hp | now apply (Hn k)].
      * split; [exact H1|]. split; [exact H2|]. split.
        -- intros jc x [H|(q & [E|Hq] & Hf & Hx & Hc)]; apply H3.
           ++ left. destruct (nonempty pc); [|exact H].
              apply lookup_insert_is_Some'. now right.
           ++ left. subst q. destruct Hf as (Hf & _). rewrite J in Hf.
              injection Hf as <-. subst x. fold pc in Hx |- *. rewrite Hx.
              apply lookup_insert_is_Some'. now left.
           ++ right. exists q. tauto.
        -- intros jc x [H|(q & [E|Hq] & Hf & Hx & Hc)]; apply H4.
           ++ left. destruct (nonempty pn); [|exact H].
              apply lookup_insert_is_Some'. now right.
           ++ left. subst q. destruct Hf as (Hf & _). rewrite J in Hf.
              injection Hf as <-. subst x. fold pn in Hx |- *. rewrite Hx.
              apply lookup_insert_is_Some'. now left.
           ++ right. exists q. tauto.
    + specialize (IH Hall' bk bn Hk Hn).
      destruct (RunnerGoals.prog_maps_from prog_db juri_items bk bn) as [bk' bn'].
      destruct IH as (H1 & H2 & H3 & H4).
      split; [exact H1|]. split; [exact H2|]. split.
      * intros jc x [H|(q & [E|Hq] & Hf & Hx & Hc)]; apply H3; [now left| |].
        -- subst q. destruct Hf as (Hf & Hj). rewrite Hf in T. cbn in T. congruence.
        -- right. exists q. tauto.
      * intros jc x [H|(q & [E|Hq] & Hf & Hx & Hc)]; apply H4; [now left| |].
        -- subst q. destruct Hf as (Hf & Hj). rewrite Hf in T. cbn in T. congruence.
        -- right. exists q. tauto.
Qed.

Lemma get2_some (m : gmap (string * string) string) k v :
  Runner.get2 m k = Some v <-> m !! k = Some v /\ nonempty v = true.
Proof.
  unfold Runner.get2. destruct (m !! k) as [x|]; [|split; [discriminate | intros [? _]; discriminate]].
  destruct (nonempty x) eqn:N; split.
  - intros H. injection H as <-. now split.
  - intros [H _]. exact H.
  - discriminate.
  - intros [H Hv]. injection H as <-. congruence.
Qed.

Lemma resolve_prog_some (bk bn : gmap (string * string) string) (m : Metas.row)
    (v : string) :
  let jc := strip (Metas.Juri_Codigo m) in
  let pc := strip (Metas.Prog_Codigo m) in
  let pn := lower (strip (default EmptyString (Metas.Prog_Nombre m))) in
  Runner.resolve_prog bk bn m = Some v ->
  nonempty v = true /\ nonempty jc = true /\
  ((nonempty pc = true /\ bk !! (jc, pc) = Some v) \/
   (nonempty pn = true /\ bn !! (jc, pn) = Some v)).
Proof.
  cbv zeta. unfold Runner.resolve_prog. cbv zeta.
  set (jc := strip (Metas.Juri_Codigo m)).
  set (pc := strip (Metas.Prog_Codigo m)).
  set (pn := lower (strip (default EmptyString (Metas.Prog_Nombre m)))).
  destruct (nonempty jc) eqn:Nj; cbn [andb].
  - destruct (nonempty pc) eqn:Np.
    + destruct (Runner.get2 bk (jc, pc)) as [x|] eqn:G.
      * apply get2_some in G as (G & Gx). cbn [truthy]. rewrite Gx. cbn [negb andb].
        intros H. injection H as <-. repeat split; auto.
      * cbn [truthy negb andb]. destruct (nonempty pn) eqn:Nn; [|discriminate].
        intros H. apply get2_some in H as (H & Hv). repeat split; auto.
    + cbn [truthy negb andb]. destruct (nonempty pn) eqn:Nn; [|discriminate].
      intros H. apply get2_some in H as (H & Hv). repeat split; auto.
  - rewrite andb_false_r. cbn [andb]. discriminate.
Qed.

Lemma resolve_prog_found (bk bn : gmap (string * string) string) (m : Metas.row) :
  let jc := strip (Metas.Juri_Codigo m) in
  let pc := strip (Metas.Prog_Codigo m) in
  let pn := lower (strip (default EmptyString (Metas.Prog_Nombre m))) in
  (forall k v, bk !! k = Some v -> nonempty v = true) ->
  (forall k v, bn !! k = Some v -> nonempty v = true) ->
  nonempty jc = true ->
  (nonempty pc = true /\ is_Some (bk !! (jc, pc))) \/
  (nonempty pn = true /\ is_Some (bn !! (jc, pn))) ->
  is_Some (Runner.resolve_prog bk bn m).
Proof.
  cbv zeta. unfold Runner.resolve_prog. cbv zeta.
  set (jc := strip (Metas.Juri_Codigo m)).
  set (pc := strip (Metas.Prog_Codigo m)).
  set (pn := lower (strip (default EmptyString (Metas.Prog_Nombre m)))).
  intros Hk Hn Nj H. rewrite Nj. cbn [andb].
  assert (Gk : forall v, bk !! (jc, pc) = Some v -> Runner.get2 bk (jc, pc) = Some v)
    by (intros v Hv; apply get2_some; split; [exact Hv | exact (Hk _ _ Hv)]).
  assert (Gn : forall v, bn !! (jc, pn) = Some v -> Runner.get2 bn (jc, pn) = Some v)
    by (intros v Hv; apply get2_some; split; [exact Hv | exact (Hn _ _ Hv)]).
  destruct H as [(Np & [v Hv])|(Nn & [v Hv])].
  - rewrite Np, (Gk v Hv). cbn [truthy]. rewrite (Hk _ _ Hv). cbn [negb andb]. eauto.
  - rewrite Nn, (Gn v Hv).
    destruct (nonempty pc); [|cbn [truthy negb andb]; eauto].
    destruct (Runner.get2 bk (jc, pc)) as [x|] eqn:G; [|cbn [truthy negb andb]; eauto].
    apply get2_some in G as (_ & Gx). cbn [truthy]. rewrite Gx. cbn [negb andb]. eauto.
Qed.

Lemma runner_map_metas_spec (bk bn : gmap (string * string) string)
    (metas_raw : list Metas.row) : forall warnings,
  let '(rows, w) := Runner.map_metas bk bn metas_raw warnings in
  Forall (fun r => exists m, In m metas_raw /\
            Runner.resolve_prog bk bn m = Some (Runner.ID_Programa r) /\
            r = RunnerGoals.row_for m (Runner.ID_Programa r)) rows /\
  (forall m v, In m metas_raw -> Runner.resolve_prog bk bn m = Some v ->
     In (RunnerGoals.row_for m v) rows) /\
  w = warnings
      ++ map Runner.meta_warning
           (List.filter (fun m => negb (bool_decide (is_Some (Runner.resolve_prog bk bn m))))
              metas_raw) /\
  length rows + length (List.filter
                 (fun m => negb (bool_decide (is_Some (Runner.resolve_prog bk bn m))))
                 metas_raw)
  = length metas_raw.
Proof.
  induction metas_raw as [|m metas_raw IH]; intros warnings; cbn [Runner.map_metas].
  - cbn. rewrite app_nil_r. repeat split; [constructor | intros m v []].
  - destruct (Runner.resolve_prog bk bn m) as [id|] eqn:E.
    + specialize (IH warnings).
      destruct (Runner.map_metas bk bn metas_raw warnings) as [rows w].
      destruct IH as (H1 & H2 & H3 & H4). cbn [List.filter]. rewrite E.
      rewrite bool_decide_true by eauto. cbn [negb]. split; [|split; [|split]].
      * constructor.
        -- exists m. split; [now left|]. split; [exact E | reflexivity].
        -- eapply Forall_impl; [exact H1|]. intros r (m' & Hm & Hr).
           exists m'. split; [now right | exact Hr].
      * intros m' v [<-|Hm] Hv.
        -- rewrite E in Hv. injection Hv as <-. now left.
        -- right. now apply H2.
      * exact H3.
      * cbn [length]. lia.
    + specialize (IH (warnings ++ [Runner.meta_warning m])).
      destruct (Runner.map_metas bk bn metas_raw _) as [rows w].
      destruct IH as (H1 & H2 & H3 & H4). cbn [List.filter]. rewrite E.
      rewrite bool_decide_false by (intros [? ?]; discriminate). cbn [negb].
      split; [|split; [|split]].
      * eapply Forall_impl; [exact H1|]. intros r (m' & Hm & Hr).
        exists m'. split; [now right | exact Hr].
      * intros m' v [<-|Hm] Hv; [congruence | now apply H2].
      * rewrite H3, <- app_assoc. reflexivity.
      * cbn [length]. lia.
Qed.


